(** * Gamma-Camera-Uniformity: the DICOM reader, the image transforms and the
      uniformity engine, embedded from [dicom_functions.py] and
      [uniformity_functions.py].

    Python values are modelled as they are at run time: [bytes] as lists of
    [Byte.byte], [str] as [string], [int] as [Z], a [dict] keyed by strings as
    a [gmap string _], numpy arrays as handles into a store of buffers, and
    numpy's [float64] as the binary64 floats of [PrimFloat].  A call either
    returns a value or raises an exception: [result]. *)

From Stdlib Require Import ZArith Lia Bool List Ascii String.
From Stdlib.Strings Require Import Byte.
From Stdlib Require Import Floats.
From stdpp Require Import base option list gmap strings.

Local Open Scope string_scope.
Local Open Scope Z_scope.

(** ** Exceptions and results *)

Module Py.

(** The exception classes that the modelled code can raise. *)
Inductive exn : Type :=
  | UnicodeDecodeError
  | StructError
  | ValueError
  | TypeError
  | KeyError
  | IndexError
  | OverflowError
  | RecursionError.

Inductive result (A : Type) : Type :=
  | Ok (a : A)
  | Raise (e : exn).
Arguments Ok {A} a.
Arguments Raise {A} e.

Definition bind {A B} (r : result A) (k : A -> result B) : result B :=
  match r with
  | Ok a => k a
  | Raise e => Raise e
  end.

Definition is_ok {A} (r : result A) : bool :=
  match r with Ok _ => true | Raise _ => false end.

Notation "'let*' x ':=' r 'in' k" := (bind r (fun x => k))
  (at level 10, x name, r at level 100, k at level 200).

(** ** Slices

    [l[i:j]] with non-negative bounds: out-of-range bounds are clamped, never an
    error. *)
Definition slice {A} (i j : nat) (l : list A) : list A :=
  take (j - i) (drop i l).

(** [l[:-2]]: everything but the last two items; the empty list when there are
    fewer than two. *)
Definition strip2 {A} (l : list A) : list A :=
  take (length l - 2) l.

(** [s[i:j]] on a [str]. *)
Definition str_slice (i j : nat) (s : string) : string :=
  string_of_list_ascii (slice i j (list_ascii_of_string s)).

(** [s[i:]] on a [str]. *)
Definition str_from (i : nat) (s : string) : string :=
  string_of_list_ascii (drop i (list_ascii_of_string s)).

(** [needle in hay] on two [str]: substring containment. *)
Fixpoint str_in (needle hay : string) : bool :=
  if String.prefix needle hay then true
  else match hay with
       | EmptyString => false
       | String _ hay' => str_in needle hay'
       end.

(** Resolution of one slice bound against an axis of length [n]
    (CPython's [PySlice_AdjustIndices], step 1): a negative bound counts from
    the end, and the result is clamped to [0..n]. *)
Definition adjust_index (n i : Z) : Z :=
  if i <? 0 then Z.max (i + n) 0 else Z.min i n.

(** ** bytes *)

Definition byte_val (b : byte) : Z := Z.of_N (Byte.to_N b).

(** [int.from_bytes(b, byteorder="little")], unsigned. *)
Fixpoint int_from_bytes_little (b : list byte) : Z :=
  match b with
  | [] => 0
  | x :: b' => byte_val x + 256 * int_from_bytes_little b'
  end.

(** Big-endian unsigned reading, the accumulator holding the bytes read so
    far. *)
Definition int_from_bytes_big (b : list byte) : Z :=
  fold_left (fun acc x => 256 * acc + byte_val x) b 0.

(** Two's complement reading of an unsigned [w]-bit number. *)
Definition to_signed (w : Z) (u : Z) : Z :=
  if u <? 2 ^ (w - 1) then u else u - 2 ^ w.

Definition hex_digit (n : Z) : ascii :=
  ascii_of_nat (Z.to_nat (if n <? 10 then 48 + n else 87 + n)).

(** [b.hex()]: two lowercase hexadecimal digits per byte. *)
Fixpoint hex (b : list byte) : string :=
  match b with
  | [] => EmptyString
  | x :: b' =>
      String (hex_digit (byte_val x / 16))
        (String (hex_digit (byte_val x mod 16)) (hex b'))
  end.

(** [b.decode("ascii")]: every byte must be below 128. *)
Fixpoint decode_ascii (b : list byte) : result string :=
  match b with
  | [] => Ok EmptyString
  | x :: b' =>
      if byte_val x <? 128 then
        let* s := decode_ascii b' in Ok (String (ascii_of_byte x) s)
      else Raise UnicodeDecodeError
  end.

(** ** [int(s)] on an ASCII [str], base 10

    Surrounding whitespace (tab, line feed, vertical tab, form feed, carriage
    return, space) is dropped, one sign is allowed, and the digits may be
    separated by single underscores.  CPython refuses more than
    [max_str_digits] digits, leading zeros counted. *)

Definition is_space (c : ascii) : bool :=
  let n := Z.of_nat (nat_of_ascii c) in
  ((9 <=? n) && (n <=? 13)) || (n =? 32).

Definition is_digit (c : ascii) : bool :=
  let n := Z.of_nat (nat_of_ascii c) in (48 <=? n) && (n <=? 57).

Definition digit_val (c : ascii) : Z := Z.of_nat (nat_of_ascii c) - 48.

Definition max_str_digits : nat := 4300.

Fixpoint lstrip (l : list ascii) : list ascii :=
  match l with
  | c :: l' => if is_space c then lstrip l' else l
  | [] => []
  end.

Definition strip (l : list ascii) : list ascii :=
  rev (lstrip (rev (lstrip l))).

(** The digits of a literal, most significant first; [prev_digit] tells whether
    the previous character was a digit, which is where an underscore may
    stand. *)
Fixpoint digits_of (prev_digit : bool) (l : list ascii) : option (list Z) :=
  match l with
  | [] => if prev_digit then Some [] else None
  | c :: l' =>
      if is_digit c then
        match digits_of true l' with
        | Some ds => Some (digit_val c :: ds)
        | None => None
        end
      else if (Ascii.eqb c "_"%char) && prev_digit then digits_of false l'
      else None
  end.

Definition int_of_str (s : string) : result Z :=
  let body := strip (list_ascii_of_string s) in
  let '(neg, rest) :=
    match body with
    | c :: l =>
        if Ascii.eqb c "-"%char then (true, l)
        else if Ascii.eqb c "+"%char then (false, l)
        else (false, body)
    | [] => (false, body)
    end in
  match digits_of false rest with
  | Some (d :: ds) =>
      if (max_str_digits <? length (d :: ds))%nat then Raise ValueError
      else
        let n := fold_left (fun acc x => 10 * acc + x) (d :: ds) 0 in
        Ok (if neg then - n else n)
  | _ => Raise ValueError
  end.

(** ** [struct.unpack] with one big-endian field of [n] bytes *)

Definition unpack_exact (n : nat) (b : list byte) : result (list byte) :=
  if (length b =? n)%nat then Ok b else Raise StructError.

End Py.

(** ** The DICOM reader: [dicom_functions.py] *)

Module Dicom.
Import Py.

(** The Python values that decoding produces.  A float that [struct.unpack]
    reads is kept as the IEEE-754 bit pattern it denotes.  [VEmptyList] is the
    empty list [[]] that [parse_binary] starts [image_data] with. *)
Inductive pyval : Type :=
  | VStr (s : string)
  | VInt (z : Z)
  | VFloat32 (bits : Z)
  | VFloat64 (bits : Z)
  | VBytes (b : list byte)
  | VEmptyList.

Definition text_vrs : string :=
  "AE AS CS DA DS DT LO LT PN SH ST TM UC UI UR UT UV".

Definition short_length_vrs : string :=
  "AE AS AT CS DA DS DT FL FD IS LO LT PN SH SL ST SS TM UI UL US".

(** The body of the [try] block of [decode_value]: one decoding attempt. *)
Definition decode_value_try (vr : string) (value : list byte) : result pyval :=
  if str_in vr text_vrs then
    let* s := decode_ascii value in Ok (VStr s)
  else if String.eqb vr "AT" then Ok (VStr (hex value))
  else if String.eqb vr "FL" then
    let* b := unpack_exact 4 value in Ok (VFloat32 (int_from_bytes_big b))
  else if String.eqb vr "FD" then
    let* b := unpack_exact 8 value in Ok (VFloat64 (int_from_bytes_big b))
  else if String.eqb vr "IS" then
    let* s := decode_ascii value in
    let* n := int_of_str s in Ok (VInt n)
  else if String.eqb vr "SL" then
    let* b := unpack_exact 4 value in
    Ok (VInt (to_signed 32 (int_from_bytes_big b)))
  else if String.eqb vr "SS" then
    let* b := unpack_exact 2 value in
    Ok (VInt (to_signed 16 (int_from_bytes_big b)))
  else if String.eqb vr "SV" then
    let* b := unpack_exact 8 value in
    Ok (VInt (to_signed 64 (int_from_bytes_big b)))
  else if String.eqb vr "UL" then Ok (VInt (int_from_bytes_little value))
  else if String.eqb vr "US" then Ok (VInt (int_from_bytes_little value))
  else Ok (VBytes value).

(** [decode_value]: whatever the attempt raises is caught and the function
    calls itself on [value[:-2]].  [depth] is the number of frames the
    interpreter still allows; a call beyond it raises [RecursionError], which
    no handler of [decode_value] catches: the recursive call is made in the
    handler, not in the [try] block. *)
Fixpoint decode_value (depth : nat) (vr : string) (value : list byte)
  : result pyval :=
  match depth with
  | O => Raise RecursionError
  | S depth' =>
      match decode_value_try vr value with
      | Ok v => Ok v
      | Raise _ => decode_value depth' vr (strip2 value)
      end
  end.

(** [rearrange_tag]. *)
Definition rearrange_tag (tag : string) : string :=
  str_slice 2 4 tag ++ str_slice 0 2 tag ++ str_from 6 tag ++ str_slice 4 6 tag.

Definition pixel_data_tag : string := "7fe00010".

(** The head of the loop body of [parse_binary]: the tag, the VR, the length,
    the [length] bytes of the value and the bytes that follow.  The slices are
    clamped, so a short stream gives short fields; a VR that is not ASCII
    raises out of the loop. *)
Definition read_header (data : list byte)
  : result (string * string * Z * list byte * list byte) :=
  let tag := rearrange_tag (hex (take 4 data)) in
  let data := drop 4 data in
  let* vr := decode_ascii (take 2 data) in
  let data := drop 2 data in
  let '(length, data) :=
    if str_in vr short_length_vrs then
      (int_from_bytes_little (take 2 data), drop 2 data)
    else
      let data := drop 2 data in
      (int_from_bytes_little (take 4 data), drop 4 data) in
  Ok (tag, vr, length, take (Z.to_nat length) data,
      drop (Z.to_nat length) data).

(** One element: the header, and the value decoded under the VR.  A
    [RecursionError] of [decode_value] raises out of the loop. *)
Definition read_element (depth : nat) (data : list byte)
  : result (string * string * Z * pyval * list byte) :=
  let* hd := read_header data in
  let '(tag, vr, length, raw, data) := hd in
  let* value := decode_value depth vr raw in
  Ok (tag, vr, length, value, data).

(** The [while] loop of [parse_binary].  [parsed] is the dictionary built so
    far, each entry the list [[vr, length, value]].  Every round consumes at
    least four bytes; [fuel] bounds the number of rounds and [None] is the
    answer of a loop that was given too little of it. *)
Fixpoint parse_loop (fuel depth : nat) (data : list byte)
  (parsed : gmap string (list pyval))
  : option (result (gmap string (list pyval) * pyval)) :=
  match fuel with
  | O => None
  | S fuel' =>
      if (0 <? length data)%nat then
        match read_element depth data with
        | Raise e => Some (Raise e)
        | Ok (tag, vr, len, value, data') =>
            if String.eqb tag pixel_data_tag then Some (Ok (parsed, value))
            else
              parse_loop fuel' depth data'
                (<[tag := [VStr vr; VInt len; value]]> parsed)
        end
      else Some (Ok (parsed, VEmptyList))
  end.

(** The second loop of [parse_binary]: every entry gets the name that
    [dicom_elements.json] (the dictionary [elements]) has for its tag, or the
    fallback label. *)
Definition annotate (elements : gmap string string)
  (parsed : gmap string (list pyval)) : gmap string (list pyval) :=
  map_imap (fun key entry =>
    Some (entry ++ [VStr (match elements !! key with
                          | Some name => name
                          | None => "UNKOWN"
                          end)])%list) parsed.

(** [parse_binary]: the preamble and the prefix are dropped unseen. *)
Definition parse_binary (depth : nat) (elements : gmap string string)
  (data : list byte) : option (result (gmap string (list pyval) * pyval)) :=
  let data := drop 128 data in
  let data := drop 4 data in
  match parse_loop (S (length data)) depth data ∅ with
  | Some (Ok (parsed, image_data)) =>
      Some (Ok (annotate elements parsed, image_data))
  | r => r
  end.

(** ** Volume reconstruction *)

(** The contents of a 3-D numpy array, axes (frame, row, column), as nested
    lists. *)
Abbreviation volume := (list (list (list Z))).

(** [parsed_data[key][2]]. *)
Definition metadata_value (parsed_data : gmap string (list pyval))
  (key : string) : result pyval :=
  match parsed_data !! key with
  | None => Raise KeyError
  | Some entry =>
      match entry !! 2%nat with
      | Some v => Ok v
      | None => Raise IndexError
      end
  end.

(** [v // 8].  On an [int] it is the floor division.  On a float it is a float,
    which the [range] call that follows refuses with a [TypeError], as the
    division itself does on a [str], on [bytes] and on a list; nothing but
    [len(image_data)], itself a [TypeError] when it raises, is evaluated in
    between, so every operand that is not an [int] ends in [TypeError]. *)
Definition floordiv8 (v : pyval) : result Z :=
  match v with
  | VInt z => Ok (z / 8)
  | _ => Raise TypeError
  end.

(** [len(image_data)]. *)
Definition py_len (v : pyval) : result nat :=
  match v with
  | VBytes b => Ok (length b)
  | VStr s => Ok (String.length s)
  | VEmptyList => Ok 0%nat
  | _ => Raise TypeError
  end.

(** [range(0, n, step)] for a positive [step], as the list of its items. *)
Definition py_range_step (n step : nat) : list nat :=
  map (fun k => (k * step)%nat) (seq 0 ((n + step - 1) / step)).

(** The list comprehension of [decode_image_data]: one little-endian unsigned
    integer per stride of [step] bytes, the last stride possibly shorter.
    [range] refuses a zero step; a negative step gives no item, as does an
    empty [image_data]; [int.from_bytes] refuses a slice of a [str]. *)
Definition samples (image_data : pyval) (step : Z) : result (list Z) :=
  let* n := py_len image_data in
  if step =? 0 then Raise ValueError
  else if step <? 0 then Ok []
  else
    match image_data with
    | VBytes b =>
        Ok (map (fun i => int_from_bytes_little
                            (slice i (i + Z.to_nat step) b))
                (py_range_step n (Z.to_nat step)))
    | VStr _ => if (n =? 0)%nat then Ok [] else Raise TypeError
    | _ => Ok []
    end.

(** *** [np.array] on a list of [int]s

    numpy looks at every item: an [int] that fits [int64] is one, an [int]
    from 2^63 to 2^64 - 1 is a [uint64], any other is an object; and the
    array gets the common type of its items, which for [int64] and [uint64]
    together is [float64].  The empty list makes an empty [float64] array. *)
Inductive dtype : Type := int64 | uint64 | float64 | object.

Definition item_dtype (z : Z) : dtype :=
  if (- 2 ^ 63 <=? z) && (z <? 2 ^ 63) then int64
  else if (0 <=? z) && (z <? 2 ^ 64) then uint64
  else object.

Definition promote (a b : dtype) : dtype :=
  match a, b with
  | object, _ | _, object => object
  | float64, _ | _, float64 => float64
  | int64, int64 => int64
  | uint64, uint64 => uint64
  | _, _ => float64
  end.

Definition array_dtype (items : list Z) : dtype :=
  match items with
  | [] => float64
  | z :: l => fold_left (fun d x => promote d (item_dtype x)) l (item_dtype z)
  end.

(** The double nearest to an integer, ties to the even mantissa, as the
    integer that it is: 53 bits of the magnitude are kept. *)
Definition round_magnitude (n : Z) : Z :=
  if n <? 2 ^ 53 then n
  else
    let e := Z.log2 n - 52 in
    let q := n / 2 ^ e in
    let r := n mod 2 ^ e in
    let half := 2 ^ (e - 1) in
    (if r <? half then q
     else if half <? r then q + 1
     else if Z.even q then q else q + 1) * 2 ^ e.

Definition round_double (z : Z) : Z := Z.sgn z * round_magnitude (Z.abs z).

(** The items as the array stores them.  An item of a [float64] array is a
    double whose value is a whole number; it is kept as that number. *)
Definition np_array (items : list Z) : dtype * list Z :=
  match array_dtype items with
  | float64 => (float64, map round_double items)
  | d => (d, items)
  end.

(** A reshape dimension must be an [int] that fits a machine word: numpy
    turns the overflow of the conversion into a [ValueError] ("Maximum allowed
    dimension exceeded"). *)
Definition as_dim (v : pyval) : result Z :=
  match v with
  | VInt z =>
      if (- 2 ^ 63 <=? z) && (z <? 2 ^ 63) then Ok z else Raise ValueError
  | _ => Raise TypeError
  end.

(** numpy's resolution of the target shape of a reshape: at most one
    dimension may be negative, and it is then inferred from the size; otherwise
    the product of the dimensions must be the size. *)
Definition resolve_shape (size : Z) (dims : list Z) : result (list Z) :=
  let known := fold_right Z.mul 1 (List.filter (fun d => 0 <=? d) dims) in
  match length (List.filter (fun d => d <? 0) dims) with
  | O => if size =? known then Ok dims else Raise ValueError
  | S O =>
      if (known =? 0) || negb (size mod known =? 0) then Raise ValueError
      else Ok (map (fun d => if d <? 0 then size / known else d) dims)
  | _ => Raise ValueError
  end.

(** [k] consecutive blocks of [n] items each. *)
Definition blocks {A} (n k : nat) (l : list A) : list (list A) :=
  map (fun i => slice (i * n) (i * n + n) l) (seq 0 k).

(** [a.reshape((planes, rows, columns))] on the items [flat] of a 1-D
    array. *)
Definition reshape3 (flat : list Z) (planes rows columns : pyval)
  : result volume :=
  let* p := as_dim planes in
  let* r := as_dim rows in
  let* c := as_dim columns in
  let* shape := resolve_shape (Z.of_nat (length flat)) [p; r; c] in
  match map Z.to_nat shape with
  | [p; r; c] => Ok (map (blocks c r) (blocks (r * c) p flat))
  | _ => Raise ValueError
  end.

(** [decode_image_data]: the array that it returns, as its dtype and its
    items. *)
Definition decode_image_data (parsed_data : gmap string (list pyval))
  (image_data : pyval) : result (dtype * volume) :=
  let* bits := metadata_value parsed_data "00280100" in
  let* bits_allocated := floordiv8 bits in
  let* flat := samples image_data bits_allocated in
  let* rows := metadata_value parsed_data "00280010" in
  let* columns := metadata_value parsed_data "00280011" in
  let* planes := metadata_value parsed_data "00280008" in
  let array := np_array flat in
  let* items := reshape3 (snd array) planes rows columns in
  Ok (fst array, items).

(** ** numpy arrays as objects

    An [ndarray] object reads and writes a buffer that it may share with other
    array objects: basic slicing returns a view.  The store maps a buffer to
    its contents, here the 3-D buffers of [int64] samples, which is the dtype
    that numpy gives the volume of [decode_image_data] when the samples are
    below 2^63; an array object names its buffer and, per axis, the offset and
    the extent of its window into it.  [len(array.shape)] is the number of
    axes. *)

Record ndarray : Type := { buffer : nat; axes : list (nat * nat) }.

Definition shape (a : ndarray) : list nat := map snd (axes a).

(** The part of a list that an axis window selects. *)
Definition window {A} (ax : nat * nat) (l : list A) : list A :=
  take (snd ax) (drop (fst ax) l).

(** The contents of a 3-D array object in store [h]. *)
Definition contents (h : gmap nat volume) (a : ndarray) : volume :=
  match axes a with
  | [ax0; ax1; ax2] =>
      map (fun plane => map (window ax2) (window ax1 plane))
          (window ax0 (h !!! buffer a))
  | _ => []
  end.

(** [array[layer]] of a 3-D array object, as contents. *)
Definition plane_of (h : gmap nat volume) (a : ndarray) (layer : nat)
  : list (list Z) :=
  default [] (contents h a !! layer).

(** [array[i][j][k] = v]: the write goes to the shared buffer. *)
Definition set_item (h : gmap nat volume) (a : ndarray) (i j k : nat) (v : Z)
  : gmap nat volume :=
  match axes a with
  | [ax0; ax1; ax2] =>
      alter (alter (alter (<[(fst ax2 + k)%nat := v]>) (fst ax1 + j)%nat)
                   (fst ax0 + i)%nat)
            (buffer a) h
  | _ => h
  end.

(** [array[i] = plane] on an array object that owns its whole buffer. *)
Definition set_plane (h : gmap nat volume) (a : ndarray) (i : nat)
  (plane : list (list Z)) : gmap nat volume :=
  alter (<[i := plane]>) (buffer a) h.

(** The window [start:stop] of an axis that is itself the window [ax]. *)
Definition sub_axis (start stop : Z) (ax : nat * nat) : nat * nat :=
  let n := Z.of_nat (snd ax) in
  let lo := adjust_index n start in
  let hi := adjust_index n stop in
  ((fst ax + Z.to_nat lo)%nat, Z.to_nat (hi - lo)).

(** [crop]: [array[start:end, start:end, start:end]] is a view of the buffer
    of [array]; the store is not written. *)
Definition crop (h : gmap nat volume) (array : ndarray) (crop_size : Z)
  : result (gmap nat volume * ndarray) :=
  match axes array with
  | [ax0; ax1; ax2] =>
      let center := Z.of_nat (snd ax0) / 2 in
      let start := center - crop_size / 2 in
      let end_ := start + crop_size in
      Ok (h, {| buffer := buffer array;
                axes := [sub_axis start end_ ax0;
                         sub_axis start end_ ax1;
                         sub_axis start end_ ax2] |})
  | _ => Raise ValueError
  end.

(** *** scipy's [convolve2d(in1, in2, mode='same', boundary='fill',
        fillvalue=0)] on [int64] arrays

    The kernel is a list of lists of [int], as the configuration file holds
    it.  numpy makes an [int64] array of weights that fit [int64], and the
    sums then wrap around; of a weight below -2^63 or above 2^64 - 1 it makes
    an array of objects, which [convolve2d] refuses.  A weight from 2^63 to
    2^64 - 1 makes the kernel [uint64] or [float64], and scipy then convolves
    in [float64]: that arithmetic is not modelled, such a kernel is given the
    [int64] treatment here, and what is proved about the values of the output
    assumes weights that fit [int64]. *)

Definition wrap64 (z : Z) : Z := to_signed 64 (z mod 2 ^ 64).

Definition Zsum (l : list Z) : Z := fold_right Z.add 0 l.

(** [a[r][c]], or the fill value 0 outside the array. *)
Definition at2 (a : list (list Z)) (r c : Z) : Z :=
  if (0 <=? r) && (0 <=? c) then
    default 0 (a !! Z.to_nat r ≫= fun row => row !! Z.to_nat c)
  else 0.

(** The shape of the kernel that numpy makes of a list of lists: the rows must
    be of one length, and the empty list is not 2-D. *)
Definition kernel_shape (convolution : list (list Z)) : result (nat * nat) :=
  match convolution with
  | [] => Raise ValueError
  | row :: rows =>
      if forallb (fun r => (length r =? length row)%nat) rows
      then Ok (length convolution, length row)
      else Raise ValueError
  end.

(** One output sample: the kernel is flipped, and the output is the centre of
    the full convolution. *)
Definition convolve_at (in1 in2 : list (list Z)) (kh kw : nat) (m n : nat)
  : Z :=
  wrap64 (Zsum (flat_map (fun j => map (fun k =>
            at2 in1 (Z.of_nat m + (Z.of_nat kh - 1) / 2 - Z.of_nat j)
                    (Z.of_nat n + (Z.of_nat kw - 1) / 2 - Z.of_nat k)
            * at2 in2 (Z.of_nat j) (Z.of_nat k))
          (seq 0 kw)) (seq 0 kh))).

(** The weights of the kernel must be numbers to numpy. *)
Definition kernel_weights (convolution : list (list Z)) : result unit :=
  match array_dtype (concat convolution) with
  | object => Raise ValueError
  | _ => Ok tt
  end.

Definition convolve2d (rows cols : nat) (in1 in2 : list (list Z))
  : result (list (list Z)) :=
  let* ks := kernel_shape in2 in
  let* _ := kernel_weights in2 in
  Ok (map (fun m => map (fun n => convolve_at in1 in2 (fst ks) (snd ks) m n)
                        (seq 0 cols))
          (seq 0 rows)).

(** [np.zeros_like(array)] for a 3-D [array]: a new buffer of zeros, and the
    array object that owns it. *)
Definition zeros (n0 n1 n2 : nat) : volume :=
  replicate n0 (replicate n1 (replicate n2 0)).

Definition zeros_like (h : gmap nat volume) (n0 n1 n2 : nat)
  : gmap nat volume * ndarray :=
  let l := fresh (dom h) in
  (<[l := zeros n0 n1 n2]> h,
   {| buffer := l; axes := [(0, n0); (0, n1); (0, n2)]%nat |}).

(** [apply_convolution]: the kernel is handed to [convolve2d] as the caller
    gave it. *)
Definition apply_convolution (h : gmap nat volume) (array : ndarray)
  (convolution : list (list Z)) : result (gmap nat volume * ndarray) :=
  match shape array with
  | [n0; n1; n2] =>
      let '(h0, new_array) := zeros_like h n0 n1 n2 in
      let* h' :=
        foldl (fun acc i =>
                 let* hi := acc in
                 let* out := convolve2d n1 n2 (plane_of hi array i)
                               convolution in
                 Ok (set_plane hi new_array i out))
              (Ok h0) (seq 0 n0) in
      Ok (h', new_array)
  | _ => Raise ValueError
  end.

(** The cells that [remove_image_edges] overwrites. *)
Definition outside_circle (radius : Z) (row column : nat) : bool :=
  (radius - Z.of_nat column) ^ 2 + (radius - Z.of_nat row) ^ 2 >? radius ^ 2.

(** [remove_image_edges]: the three loops write into [array] itself, and
    [array] is what is returned. *)
Definition remove_image_edges (h : gmap nat volume) (array : ndarray)
  : result (gmap nat volume * ndarray) :=
  match shape array with
  | [n0; n1; n2] =>
      let radius := Z.of_nat n0 / 2 in
      Ok (foldl (fun h layer =>
            foldl (fun h row =>
              foldl (fun h column =>
                if outside_circle radius row column
                then set_item h array layer row column 10000
                else h) h (seq 0 n2)) h (seq 0 n1)) h (seq 0 n0),
          array)
  | _ => Raise ValueError
  end.

(** [max_pixel] and [min_pixel]: the extrema of the values that are not the
    sentinel; [max] and [min] refuse an empty list. *)
Definition max_pixel (array : list Z) : result Z :=
  match filter (fun value => value ≠ 10000) array with
  | [] => Raise ValueError
  | x :: l => Ok (foldl Z.max x l)
  end.

Definition min_pixel (array : list Z) : result Z :=
  match filter (fun value => value ≠ 10000) array with
  | [] => Raise ValueError
  | x :: l => Ok (foldl Z.min x l)
  end.

End Dicom.

(** ** The uniformity engine: [uniformity_functions.py] *)

Module Uniformity.
Import Py.
Local Open Scope float_scope.

(** One RGBA pixel of [cropped_data], four [uint8] samples. *)
Record rgba : Type := { red : byte; green : byte; blue : byte; alpha : byte }.

(** The fields of a [UniformityLayer].  [cropped_data] is [None] until
    [crop_to_circle] has run, and then a height x width x 4 array of [uint8],
    kept as its rows of pixels. *)
Record UniformityLayer : Type := {
  bin_data : list (list (list byte));
  circ_rad : Z;
  cropped_data : option (list (list rgba))
}.

(** A number that a method returns: the Python [int] of the literal [0], or a
    numpy [float64]. *)
Inductive number : Type :=
  | PyInt (z : Z)
  | Float64 (f : float).

(** The [float64] that numpy makes of a [uint8] sample, and of the only [int]
    that the methods compare with a float, the literal [0]. *)
Definition float_of_Z (z : Z) : float := of_uint63 (Uint63.of_Z z).

Definition float_of_number (n : number) : float :=
  match n with
  | PyInt z => float_of_Z z
  | Float64 f => f
  end.

(** [0.299 * R + 0.587 * G + 0.114 * B] on one pixel. *)
#[local] Set Warnings "-inexact-float".
Definition luminance (p : rgba) : float :=
  0.299 * float_of_Z (byte_val (red p))
  + 0.587 * float_of_Z (byte_val (green p))
  + 0.114 * float_of_Z (byte_val (blue p)).

(** [grayscale] after the masking assignment: [nan] where alpha is zero. *)
Definition grayscale (data : list (list rgba)) : list (list float) :=
  map (map (fun p => if (0 <? byte_val (alpha p))%Z then luminance p else nan))
      data.

(** [s[~np.isnan(s)]]. *)
Definition valid (s : list float) : list float :=
  List.filter (fun x => negb (is_nan x)) s.

(** [np.nanmax] and [np.nanmin] of a list without [nan], by its first item and
    the rest. *)
Definition fmax (a b : float) : float := if a <? b then b else a.
Definition fmin (a b : float) : float := if b <? a then b else a.
Definition nanmax (x : float) (l : list float) : float := foldl fmax x l.
Definition nanmin (x : float) (l : list float) : float := foldl fmin x l.

(** [abs((max - min) / ((max + min) / 2) * 100)]. *)
Definition extrema_ratio (max_brightness min_brightness : float) : float :=
  abs ((max_brightness - min_brightness)
       / ((max_brightness + min_brightness) / 2) * 100).

(** Python's [max(a, b)] on two numbers: [b] when [b > a], else [a]. *)
Definition py_max (a b : number) : number :=
  if float_of_number a <? float_of_number b then b else a.

(** One round of the loop of [_calculate_uniformity]. *)
Definition uniformity_step (max_uniformity : number) (s : list float)
  : number :=
  if forallb is_nan s then max_uniformity
  else
    match valid s with
    | x :: y :: l =>
        let max_brightness := nanmax x (y :: l) in
        let min_brightness := nanmin x (y :: l) in
        if negb (max_brightness + min_brightness =? 0) then
          py_max max_uniformity
                 (Float64 (extrema_ratio max_brightness min_brightness))
        else max_uniformity
    | _ => max_uniformity
    end.

(** [_calculate_uniformity]. *)
Definition _calculate_uniformity (slices : list (list float)) : number :=
  foldl uniformity_step (PyInt 0) slices.

(** [grayscale.shape[1]]: the length of every row. *)
Definition width {A} (g : list (list A)) : nat :=
  match g with
  | row :: _ => length row
  | [] => 0
  end.

(** [grayscale[y, x:x + 5]] for every [y] and every [x] below
    [shape[1] - 4]. *)
Definition horizontal_slices (g : list (list float)) : list (list float) :=
  flat_map (fun y =>
    map (fun x => slice x (x + 5) (default [] (g !! y)))
        (seq 0 (width g - 4)))
    (seq 0 (length g)).

(** [grayscale[y:y + 5, x]] for every [x] and every [y] below
    [shape[0] - 4]. *)
Definition vertical_slices (g : list (list float)) : list (list float) :=
  flat_map (fun x =>
    map (fun y => flat_map (fun row => slice x (x + 1) row)
                           (slice y (y + 5) g))
        (seq 0 (length g - 4)))
    (seq 0 (width g)).

(** [differential].  The two scans run on a thread pool and [results] lists
    them in the order in which they complete: [horizontal_first] is that order.
    The returned pair is what was printed and the value. *)
Definition differential (horizontal_first : bool) (self : UniformityLayer)
  : list string * number :=
  match cropped_data self with
  | None => (["No data to process."%string], PyInt 0)
  | Some data =>
      let g := grayscale data in
      let h := _calculate_uniformity (horizontal_slices g) in
      let v := _calculate_uniformity (vertical_slices g) in
      ([], if horizontal_first then py_max h v else py_max v h)
  end.

(** [integral]. *)
Definition integral (self : UniformityLayer) : list string * number :=
  match cropped_data self with
  | None => (["No data to process."%string], PyInt 0)
  | Some data =>
      match valid (concat (grayscale data)) with
      | [] => ([], PyInt 0)
      | x :: l =>
          ([], Float64 (extrema_ratio (nanmax x l) (nanmin x l)))
      end
  end.

End Uniformity.

(** ** Files: the rest of [dicom_functions.py] *)

Module Files.
Import Py Dicom.

(** What a call that touches the file system does: it returns, or raises one
    of the exceptions of the reader, or raises [FileNotFoundError]. *)
Inductive outcome (A : Type) : Type :=
  | Returned (a : A)
  | Raised (e : exn)
  | FileNotFound.
Arguments Returned {A} a.
Arguments Raised {A} e.
Arguments FileNotFound {A}.

Definition of_result {A} (r : result A) : outcome A :=
  match r with
  | Ok a => Returned a
  | Raise e => Raised e
  end.

(** [s.endswith(suffix)]. *)
Definition str_endswith (suffix s : string) : bool :=
  String.eqb (str_from (String.length s - String.length suffix) s) suffix
  && (String.length suffix <=? String.length s)%nat.

(** The regular files, as a map from path to contents, and
    [os.path.isfile]. *)
Definition isfile (files : gmap string (list byte)) (filepath : string)
  : bool :=
  match files !! filepath with
  | Some _ => true
  | None => false
  end.

(** [get_dicom_data]: the bytes of the file. *)
Definition get_dicom_data (files : gmap string (list byte)) (filepath : string)
  : outcome (list byte) :=
  match files !! filepath with
  | Some data => Returned data
  | None => FileNotFound
  end.

(** [load_dicom_image]: the path must name a file, and then end in [.dcm];
    the file is parsed and the volume is made.  [None] is the answer of a
    parse that was given too little fuel, as for [parse_binary]. *)
Definition load_dicom_image (depth : nat) (elements : gmap string string)
  (files : gmap string (list byte)) (filepath : string)
  : option (outcome (gmap string (list pyval) * (dtype * volume))) :=
  if negb (isfile files filepath) then Some FileNotFound
  else if negb (str_endswith ".dcm" filepath) then Some (Raised ValueError)
  else
    match get_dicom_data files filepath with
    | Returned data =>
        match parse_binary depth elements data with
        | None => None
        | Some (Raise e) => Some (Raised e)
        | Some (Ok (parsed_data, image_data)) =>
            Some (of_result
                    (let* volume_data :=
                       decode_image_data parsed_data image_data in
                     Ok (parsed_data, volume_data)))
        end
    | Raised e => Some (Raised e)
    | FileNotFound => Some FileNotFound
    end.

(** [config.json]: absent, or the JSON object that it holds, as the map that
    [json.load] makes of it and [json.dump] writes back.  [V] is the type of
    the JSON values. *)
Section Config.
Context {V : Type}.

(** [read_config_file]. *)
Definition read_config_file (config : option (gmap string V)) (key : string)
  : outcome V :=
  match config with
  | None => FileNotFound
  | Some data =>
      match data !! key with
      | None => Raised KeyError
      | Some value => Returned value
      end
  end.

(** [edit_config_file]: what the call does, and the file after it. *)
Definition edit_config_file (config : option (gmap string V)) (key : string)
  (value : V) : outcome unit * option (gmap string V) :=
  match config with
  | None => (FileNotFound, config)
  | Some data =>
      match data !! key with
      | None => (Raised KeyError, config)
      | Some _ => (Returned tt, Some (<[key := value]> data))
      end
  end.

End Config.

End Files.

(** ** The one pure function of [gui.py] *)

Module Gui.
Import Py Dicom.

(** [' ' * n]. *)
Definition spaces (n : nat) : string :=
  string_of_list_ascii (repeat " "%char n).

(** The one-character string of the double quote. *)
Definition quote : string := String "034"%char EmptyString.

(** [Gui.normalize_directory]. *)
Definition normalize_directory (directory : string) : string :=
  if (25 <=? String.length directory)%nat then
    (quote ++ "...") ++ str_from (String.length directory - 25) directory
    ++ quote
  else
    (quote ++ directory ++ quote) ++ spaces (28 - String.length directory).

(** The first two statements of [Gui.uniformity_callback], which make
    [self.cropped_dicom_image]; [convolution] and [crop_amount] are the two
    values that they read from the configuration file.  The array that the
    first statement stores is replaced by the second. *)
Definition uniformity_callback_volume (h : gmap nat volume)
  (current_dicom_image : ndarray) (convolution : list (list Z))
  (crop_amount : Z) : result (gmap nat volume * ndarray) :=
  let* smoothed := apply_convolution h current_dicom_image convolution in
  let* cropped := crop (fst smoothed) current_dicom_image crop_amount in
  Ok cropped.

End Gui.

(** * The vocabulary of the statements

    What the theorems below speak of, beyond the embedding: the sequence of
    inputs that [decode_value] tries, samples of a volume, windows of an
    image, and the concrete inputs that the examples run on. *)

Module FloatKeys.

(** A key whose lexicographic order is the order of the floats that are
    numbers. *)
Definition sf_key (f : spec_float) : option (Z * Z * Z) :=
  match f with
  | S754_nan => None
  | S754_infinity s => Some (if s then -2 else 2, 0, 0)
  | S754_zero _ => Some (0, 0, 0)
  | S754_finite s m e =>
      Some (if s then (-1, - e, Z.neg m) else (1, e, Z.pos m))
  end.

Definition key_lt (a b : Z * Z * Z) : Prop :=
  let '(a1, a2, a3) := a in
  let '(b1, b2, b3) := b in
  a1 < b1 \/ (a1 = b1 /\ (a2 < b2 \/ (a2 = b2 /\ a3 < b3))).

(** A float that is a number and does not have its sign bit set. *)
Definition sf_nonneg (f : spec_float) : bool :=
  match f with
  | S754_nan => false
  | S754_infinity s | S754_zero s | S754_finite s _ _ => negb s
  end.

End FloatKeys.

Module DicomSpec.
Import Py Dicom.

(** [value] after [k] rounds of [value[:-2]]. *)
Fixpoint strips (k : nat) (value : list byte) : list byte :=
  match k with
  | O => value
  | S k' => strips k' (strip2 value)
  end.

(** The VRs whose value [decode_value] hands back as the bytes it was given. *)
Definition opaque_vr (vr : string) : bool :=
  negb (str_in vr text_vrs)
  && forallb (fun s => negb (String.eqb vr s))
       ["AT"; "FL"; "FD"; "IS"; "SL"; "SS"; "SV"; "UL"; "US"].

(** A stream whose only element is the pixel data, two bytes under VR OW. *)
Definition pixel_stream_ow : list byte :=
  (replicate 132 x00
   ++ [xe0; x7f; x10; x00; x4f; x57; x00; x00; x02; x00; x00; x00; x01; x00;
       x99])%list.

(** A stream whose only element is the pixel data, two bytes under VR US. *)
Definition pixel_stream_us : list byte :=
  (replicate 132 x00
   ++ [xe0; x7f; x10; x00; x55; x53; x02; x00; x01; x00])%list.

(** A stream with one element, tag 0028,0010, and then the pixel data. *)
Definition rows_stream : list byte :=
  (replicate 132 x00
   ++ [x28; x00; x10; x00; x55; x53; x02; x00; x40; x00;
       xe0; x7f; x10; x00; x4f; x57; x00; x00; x00; x00; x00; x00])%list.

(** The sample of a volume at (frame, row, column). *)
Definition sample_at (vol : list (list (list Z))) (f y x : nat) : option Z :=
  match vol !! f with
  | Some plane =>
      match plane !! y with
      | Some row => row !! x
      | None => None
      end
  | None => None
  end.


(** Metadata with the four entries that [decode_image_data] reads. *)
Definition metadata (bits planes rows columns : Z)
  : gmap string (list pyval) :=
  <["00280100" := [VStr "US"; VInt 2; VInt bits]]>
    (<["00280010" := [VStr "US"; VInt 2; VInt rows]]>
       (<["00280011" := [VStr "US"; VInt 2; VInt columns]]>
          (<["00280008" := [VStr "IS"; VInt 2; VInt planes]]> ∅))).

(** Python's reading of the bound [b] of a slice on an axis of [n] items: a
    negative bound counts from the end, and what comes of it is kept within 0
    and [n]. *)
Definition slice_bound (n b : Z) : Z :=
  let b' := if b <? 0 then b + n else b in
  if b' <? 0 then 0 else if n <? b' then n else b'.

(** A 4 x 4 x 4 volume in a store, and the array object that owns it. *)
Definition ramp : list (list Z) :=
  [[1; 2; 3; 4]; [5; 6; 7; 8]; [9; 10; 11; 12]; [13; 14; 15; 16]].
Definition store4 : gmap nat volume := {[ 0%nat := [ramp; ramp; ramp; ramp] ]}.
Definition cube4 : ndarray :=
  {| buffer := 0; axes := [(0, 4); (0, 4); (0, 4)]%nat |}.

(** One plane of the output, for a kernel of [kh] rows and [kw] columns. *)
Definition convolve_plane (n1 n2 : nat) (kernel : list (list Z))
  (kh kw : nat) (plane : list (list Z)) : list (list Z) :=
  map (fun m => map (fun n => convolve_at plane kernel kh kw m n) (seq 0 n2))
      (seq 0 n1).

(** The NEMA kernel. *)
Definition nema_kernel : list (list Z) := [[1; 2; 1]; [2; 4; 2]; [1; 2; 1]].

(** The sample of a plane at (row, column), and zero where the plane has
    none: the fill. *)
Definition filled (plane : list (list Z)) (r c : Z) : Z :=
  if (r <? 0) || (c <? 0) then 0
  else
    match plane !! Z.to_nat r with
    | Some row =>
        match row !! Z.to_nat c with
        | Some v => v
        | None => 0
        end
    | None => 0
    end.

(** A number as [int64] arithmetic has it. *)
Definition int64_of (z : Z) : Z := (z + 2 ^ 63) mod 2 ^ 64 - 2 ^ 63.

(** The convolution of a plane with a kernel of [kh] rows and [kw] columns at
    the sample (m, n), same size and zero fill, nothing divided: the centre of
    the kernel, row (kh - 1) / 2 and column (kw - 1) / 2, lies on (m, n), and
    the weight at (j, k) multiplies the sample that lies as far before the
    centre of the window as (j, k) lies after the centre of the kernel. *)
Definition weighted_sum (plane kernel : list (list Z)) (kh kw m n : nat)
  : Z :=
  foldr Z.add 0
    (imap (fun j row =>
       foldr Z.add 0
         (imap (fun k w =>
            w * filled plane
                  (Z.of_nat m + (Z.of_nat kh - 1) / 2 - Z.of_nat j)
                  (Z.of_nat n + (Z.of_nat kw - 1) / 2 - Z.of_nat k)) row))
       kernel).

(** One 3 x 3 plane of ones in a store, and the array object that owns it. *)
Definition ones_store : gmap nat volume :=
  {[ 0%nat := [[[1; 1; 1]; [1; 1; 1]; [1; 1; 1]]] ]}.
Definition ones_array : ndarray :=
  {| buffer := 0; axes := [(0, 1); (0, 3); (0, 3)]%nat |}.

(** The cells of an array of shape (n0, n1, n2), in the order in which the
    loops of [remove_image_edges] visit them. *)
Definition cells (n0 n1 n2 : nat) : list (nat * nat * nat) :=
  flat_map (fun layer =>
    flat_map (fun row => map (fun column => (layer, row, column)) (seq 0 n2))
      (seq 0 n1)) (seq 0 n0).

(** Whether the round of the loop at cell [c] writes the sample of the buffer
    at ([I], [J], [K]). *)
Definition writes (radius : Z) (ax0 ax1 ax2 : nat * nat) (I J K : nat)
  (c : nat * nat * nat) : bool :=
  let '(layer, row, column) := c in
  outside_circle radius row column
  && bool_decide ((fst ax0 + layer)%nat = I /\ (fst ax1 + row)%nat = J
                  /\ (fst ax2 + column)%nat = K).

End DicomSpec.

Module UniformitySpec.
Import Py Uniformity.
Local Open Scope float_scope.

(** A pixel is excluded when its alpha is zero. *)
Definition visible (p : rgba) : bool := (0 <? byte_val (alpha p))%Z.

(** The brightness of the pixels of a window that are not excluded. *)
Definition brightness (pixels : list rgba) : list float :=
  map luminance (List.filter visible pixels).

(** The ratio that one round of the scan computes on the values of a slice
    that are numbers: defined when there are at least two of them and the sum
    of the extrema is not zero. *)
Definition extrema_ratio_of (values : list float) : option float :=
  match values with
  | x :: y :: l =>
      let max_brightness := nanmax x (y :: l) in
      let min_brightness := nanmin x (y :: l) in
      if max_brightness + min_brightness =? 0 then None
      else Some (extrema_ratio max_brightness min_brightness)
  | _ => None
  end.

(** The extrema ratio of a window as the specification writes it,
    [|max - min| / ((max + min) / 2) * 100] over the pixels that are not
    excluded: defined when there are at least two of them and the sum of the
    extrema is not zero. *)
Definition window_ratio (pixels : list rgba) : option float :=
  match brightness pixels with
  | x :: y :: l =>
      let max_brightness := nanmax x (y :: l) in
      let min_brightness := nanmin x (y :: l) in
      if max_brightness + min_brightness =? 0 then None
      else Some (abs (max_brightness - min_brightness)
                 / ((max_brightness + min_brightness) / 2) * 100)
  | _ => None
  end.

(** The horizontal window of five pixels that starts at row [y], column [x],
    and the vertical one. *)
Definition h_window (data : list (list rgba)) (y x : nat) : list rgba :=
  slice x (x + 5) (default [] (data !! y)).

Definition v_window (data : list (list rgba)) (y x : nat) : list rgba :=
  omap (fun row : list rgba => row !! x) (slice y (y + 5) data).

Definition pixel_at (data : list (list rgba)) (y x : nat) : option rgba :=
  match data !! y with
  | Some row => row !! x
  | None => None
  end.

(** The grayscale of one pixel after masking. *)
Definition gray (p : rgba) : float :=
  if (0 <? byte_val (alpha p))%Z then luminance p else nan.

(** The running maximum is a number; no slice seen so far has a ratio above
    it; and it is the literal 0 or the ratio of a slice seen. *)
Definition running_maximum (slices : list (list float)) (r : number) : Prop :=
  is_nan (float_of_number r) = false
  /\ (forall s q, In s slices -> extrema_ratio_of (valid s) = Some q ->
        (float_of_number r <? q) = false)
  /\ (r = PyInt 0
      \/ exists s q, In s slices /\ extrema_ratio_of (valid s) = Some q
                     /\ r = Float64 q).

Definition channel (b : byte) : float :=
  of_uint63 (Uint63.of_Z (Z.of_N (Byte.to_N b))).

#[local] Set Warnings "-inexact-float".
Definition pixel_brightness (p : rgba) : float :=
  0.299 * channel (red p) + 0.587 * channel (green p)
  + 0.114 * channel (blue p).

Definition excluded (p : rgba) : bool := Byte.eqb (alpha p) x00.

(** The pixels at the five positions that start at row [y], column [x] and
    run along the row, and along the column. *)
Definition row_run (data : list (list rgba)) (y x : nat) : list rgba :=
  omap (fun k => pixel_at data y (x + k)) (seq 0 5).

Definition column_run (data : list (list rgba)) (y x : nat) : list rgba :=
  omap (fun k => pixel_at data (y + k) x) (seq 0 5).

Definition is_maximum (M : float) (values : list float) : Prop :=
  In M values /\ forall v, In v values -> (M <? v) = false.

Definition is_minimum (m : float) (values : list float) : Prop :=
  In m values /\ forall v, In v values -> (v <? m) = false.

(** [q] is the extrema ratio of a window: at least two of its pixels are not
    excluded, and [q] is [|max - min| / ((max + min) / 2) * 100] for the
    maximum and the minimum of their brightness, whose sum is not zero. *)
Definition ratio_of_window (pixels : list rgba) (q : float) : Prop :=
  let values :=
    map pixel_brightness (List.filter (fun p => negb (excluded p)) pixels) in
  (2 <= length values)%nat
  /\ exists M m,
       is_maximum M values /\ is_minimum m values
       /\ (M + m =? 0) = false
       /\ q = abs (M - m) / ((M + m) / 2) * 100.

(** The value of a number that a method returns. *)
Definition as_float (r : number) : float :=
  match r with
  | PyInt z => of_uint63 (Uint63.of_Z z)
  | Float64 f => f
  end.

(** A pixel of one gray level, inside or outside the field of view. *)
Definition pixel (level a : byte) : rgba :=
  {| red := level; green := level; blue := level; alpha := a |}.

(** A layer with its masked image. *)
Definition layer_of (data : list (list rgba)) : UniformityLayer :=
  {| bin_data := []; circ_rad := 1; cropped_data := Some data |}.

(** One row of six pixels, the fourth outside the field of view. *)
Definition six_pixel_row : list (list rgba) :=
  [[pixel x64 xff; pixel xc8 xff; pixel x00 xff; pixel x00 x00;
    pixel x00 xff; pixel x0a xff]].

(** A layer whose image is one black pixel inside the field of view. *)
Definition black_layer : UniformityLayer := layer_of [[pixel x00 xff]].

End UniformitySpec.

(** The vocabulary of the further facts about the reader: elements as they
    lie in the stream, and the VRs by how [decode_value] treats them. *)

Module ReaderSpec.
Import Py Dicom.

(** The number of bytes that [struct.unpack] wants for the VRs that it
    reads. *)
Definition fixed_width (vr : string) : option nat :=
  if String.eqb vr "FL" then Some 4%nat
  else if String.eqb vr "FD" then Some 8%nat
  else if String.eqb vr "SL" then Some 4%nat
  else if String.eqb vr "SS" then Some 2%nat
  else if String.eqb vr "SV" then Some 8%nat
  else None.

(** The VRs under which [decode_value] refuses the empty input. *)
Definition refuses_empty (vr : string) : bool :=
  existsb (String.eqb vr) ["FL"; "FD"; "IS"; "SL"; "SS"; "SV"].

(** One data element as it lies in the stream: the four bytes of the tag, the
    two of the VR, the length field and the bytes of the value. *)
Record element : Type := {
  el_tag : list byte;
  el_vr : list byte;
  el_len : list byte;
  el_raw : list byte
}.

Definition wire (e : element) : list byte :=
  (el_tag e ++ el_vr e ++ el_len e ++ el_raw e)%list.

(** The length that the length field of an element holds, when the field has
    the form that the VR asks for: two bytes, or two reserved bytes and
    four. *)
Definition length_field (vr : string) (field : list byte) : option Z :=
  if str_in vr short_length_vrs then
    if (length field =? 2)%nat then Some (int_from_bytes_little field)
    else None
  else
    if (length field =? 6)%nat then Some (int_from_bytes_little (drop 2 field))
    else None.

(** The tag and the entry [[vr, length, value]] of an element whose fields
    have their lengths and whose length field holds the length of its
    value. *)
Definition entry_of (depth : nat) (e : element)
  : option (string * list pyval) :=
  match decode_ascii (el_vr e) with
  | Ok vr =>
      if (length (el_tag e) =? 4)%nat && (length (el_vr e) =? 2)%nat
         && bool_decide (length_field vr (el_len e)
                         = Some (Z.of_nat (length (el_raw e))))
      then
        match decode_value depth vr (el_raw e) with
        | Ok value =>
            Some (rearrange_tag (hex (el_tag e)),
                  [VStr vr; VInt (Z.of_nat (length (el_raw e))); value])
        | Raise _ => None
        end
      else None
  | Raise _ => None
  end.

(** The dictionary after the elements [es], the later entry of a tag
    replacing the earlier. *)
Definition entries (depth : nat) (es : list element)
  (parsed : gmap string (list pyval)) : gmap string (list pyval) :=
  foldl (fun m e => match entry_of depth e with
                    | Some (tag, entry) => <[tag := entry]> m
                    | None => m
                    end) parsed es.

(** The element (0028,0010) with VR US and value 64, and the element
    (0010,0010) with VR OB, the long form of the length and one byte. *)
Definition rows_element : element :=
  {| el_tag := [x28; x00; x10; x00]; el_vr := [x55; x53];
     el_len := [x02; x00]; el_raw := [x40; x00] |}.
Definition blob_element : element :=
  {| el_tag := [x10; x00; x10; x00]; el_vr := [x4f; x42];
     el_len := [x00; x00; x01; x00; x00; x00]; el_raw := [x07] |}.

End ReaderSpec.

(** The vocabulary of the further facts about the uniformity engine. *)

Module EngineSpec.
Import Py Uniformity UniformitySpec.
Local Open Scope float_scope.

(** What [_calculate_uniformity] can return: the [int] 0 that it starts from,
    or a [float64] above zero. *)
Definition zero_or_positive (r : number) : Prop :=
  r = PyInt 0 \/ exists q, r = Float64 q /\ (0 <? q) = true.

(** Two pixels that the methods cannot tell apart: both excluded, or both
    inside the field of view with the same colour. *)
Definition same_visible (p p' : rgba) : Prop :=
  visible p = visible p'
  /\ (visible p = true ->
      red p = red p' /\ green p = green p' /\ blue p = blue p').

(** A 5 x 5 image of one gray level, a corner pixel excluded. *)
Definition gray_image (level : byte) : list (list rgba) :=
  (pixel x00 x00 :: repeat (pixel level xff) 4)
  :: repeat (repeat (pixel level xff) 5) 4.

End EngineSpec.

(** * Facts about lists

    Slices, lookups and left folds, as the proofs below use them. *)

Module ListFacts.
Import Py.

Lemma lookup_map {A B} (f : A -> B) (l : list A) (i : nat) :
  map f l !! i = f <$> l !! i.
Proof. exact (list_lookup_fmap f l i). Qed.

Lemma lookup_slice {A} (l : list A) (i j k : nat) :
  (k < j - i)%nat -> slice i j l !! k = l !! (i + k)%nat.
Proof.
  intros H. unfold slice. rewrite lookup_take_lt by exact H.
  apply lookup_drop.
Qed.

Lemma length_slice {A} (l : list A) (i j : nat) :
  (j <= length l)%nat -> length (slice i j l) = (j - i)%nat.
Proof. intros H. unfold slice. rewrite length_take, length_drop. lia. Qed.

Lemma slice_map {A B} (f : A -> B) (i j : nat) (l : list A) :
  slice i j (map f l) = map f (slice i j l).
Proof. unfold slice. now rewrite skipn_map, firstn_map. Qed.

Lemma slice_one {A} (x : nat) (row : list A) :
  slice x (x + 1) row = match row !! x with Some p => [p] | None => [] end.
Proof.
  unfold slice. replace (x + 1 - x)%nat with 1%nat by lia.
  replace (row !! x) with (drop x row !! 0%nat)
    by (rewrite lookup_drop; f_equal; lia).
  now destruct (drop x row).
Qed.

Lemma omap_lookup_all {A B} (f : A -> option B) (l : list A) :
  (forall a, In a l -> is_Some (f a)) ->
  forall k, omap f l !! k = l !! k ≫= f.
Proof.
  induction l as [|a l IH]; intros H k; [reflexivity|].
  destruct (H a (or_introl eq_refl)) as [b Hb]. cbn [omap list_omap].
  rewrite Hb. destruct k as [|k]; cbn.
  - now rewrite Hb.
  - apply IH. intros a' Ha'. apply H. now right.
Qed.

Lemma length_omap_all {A B} (f : A -> option B) (l : list A) :
  (forall a, In a l -> is_Some (f a)) -> length (omap f l) = length l.
Proof.
  induction l as [|a l IH]; intros H; [reflexivity|].
  destruct (H a (or_introl eq_refl)) as [b Hb]. cbn [omap list_omap].
  rewrite Hb. cbn [length]. f_equal. apply IH. intros a' Ha'. apply H.
  now right.
Qed.

Lemma foldl_invariant {A B} (P : A -> Prop) (f : A -> B -> A) (l : list B) :
  forall a, P a -> (forall a x, P a -> P (f a x)) -> P (foldl f a l).
Proof.
  induction l as [|x l IH]; intros a Ha Hf; simpl; [exact Ha|].
  apply IH; [apply Hf, Ha | exact Hf].
Qed.

Lemma foldl_pointwise {A B} (f g : A -> B -> A) (l : list B) :
  (forall a x, f a x = g a x) -> forall a, foldl f a l = foldl g a l.
Proof.
  intros H. induction l as [|x l IH]; intros a; simpl; [reflexivity|].
  now rewrite H, IH.
Qed.

Lemma foldl_map {A B C} (f : A -> C -> A) (g : B -> C) (l : list B) :
  forall a, foldl f a (map g l) = foldl (fun a x => f a (g x)) a l.
Proof.
  induction l as [|x l IH]; intros a; simpl; [reflexivity|]. apply IH.
Qed.

Lemma foldl_flat_map {A B C} (f : A -> C -> A) (g : B -> list C)
  (l : list B) : forall a,
  foldl f a (flat_map g l) = foldl (fun a x => foldl f a (g x)) a l.
Proof.
  induction l as [|x l IH]; intros a; simpl; [reflexivity|].
  now rewrite foldl_app, IH.
Qed.

End ListFacts.

(** * Facts about binary64 floats

    The comparisons of [PrimFloat] are specified on [spec_float]; the order
    facts that the uniformity engine needs are read off that specification. *)

Module FloatFacts.
Import FloatKeys.

Ltac key_yes :=
  split; [intros _; eexists _, _;
          split; [reflexivity | split; [reflexivity | simpl; lia]]
         | reflexivity].
Ltac key_no :=
  split; [discriminate
         | intros (a & b & Ha & Hb & Hlt);
           try discriminate;
           injection Ha as <-; injection Hb as <-; simpl in Hlt; lia].

Lemma SFltb_key f g :
  SFltb f g = true <->
  exists a b, sf_key f = Some a /\ sf_key g = Some b /\ key_lt a b.
Proof.
  unfold SFltb.
  destruct f as [sf|sf| |sf mf ef], g as [sg|sg| |sg mg eg]; simpl;
    repeat match goal with s : bool |- _ => destruct s end; simpl;
    try (key_yes || key_no);
    change (PosDef.Pos.compare_cont Eq mf mg) with (Pos.compare mf mg);
    destruct (Z.compare_spec ef eg), (Pos.compare_spec mf mg); simpl;
    key_yes || key_no.
Qed.

Lemma ltb_key x y :
  (x <? y)%float = true <->
  exists a b, sf_key (Prim2SF x) = Some a /\ sf_key (Prim2SF y) = Some b
              /\ key_lt a b.
Proof. rewrite FloatAxioms.ltb_spec. apply SFltb_key. Qed.

Lemma is_nan_key x : is_nan x = false <-> exists a, sf_key (Prim2SF x) = Some a.
Proof.
  unfold is_nan. rewrite FloatAxioms.eqb_spec. unfold SFeqb.
  destruct (Prim2SF x) as [s|s| |s m e]; simpl.
  - split; eauto.
  - destruct s; split; eauto.
  - split; [discriminate | intros [a Ha]; discriminate].
  - change (PosDef.Pos.compare_cont Eq m m) with (Pos.compare m m).
    rewrite Z.compare_refl, Pos.compare_refl. destruct s; split; eauto.
Qed.

Lemma ltb_irrefl x : (x <? x)%float = false.
Proof.
  destruct (x <? x)%float eqn:E; [|reflexivity].
  apply ltb_key in E as (a & b & Ha & Hb & Hlt).
  rewrite Ha in Hb. injection Hb as <-.
  destruct a as [[a1 a2] a3]. simpl in Hlt. lia.
Qed.

Lemma ltb_trans x y z :
  (x <? y)%float = true -> (y <? z)%float = true -> (x <? z)%float = true.
Proof.
  rewrite !ltb_key.
  intros (a & b & Ha & Hb & Hab) (b' & c & Hb' & Hc & Hbc).
  rewrite Hb in Hb'. injection Hb' as <-.
  exists a, c. repeat split; try assumption.
  destruct a as [[a1 a2] a3], b as [[b1 b2] b3], c as [[c1 c2] c3].
  simpl in *. lia.
Qed.

Lemma ltb_not_nan_r x y : (x <? y)%float = true -> is_nan y = false.
Proof.
  rewrite ltb_key, is_nan_key. intros (a & b & _ & Hb & _). eauto.
Qed.

(** Among numbers, what is below neither of two floats ordered that way is
    told by the middle one. *)
Lemma ltb_false_trans x y z :
  is_nan y = false ->
  (x <? y)%float = false -> (y <? z)%float = false -> (x <? z)%float = false.
Proof.
  intros Hy Hxy Hyz.
  destruct (x <? z)%float eqn:E; [|reflexivity].
  apply is_nan_key in Hy as [b Hb].
  apply ltb_key in E as (a & c & Ha & Hc & Hac).
  destruct a as [[a1 a2] a3], b as [[b1 b2] b3], c as [[c1 c2] c3].
  assert (Hd : key_lt (a1, a2, a3) (b1, b2, b3)
               \/ key_lt (b1, b2, b3) (c1, c2, c3)) by (simpl in *; lia).
  destruct Hd as [Hd | Hd].
  - assert ((x <? y)%float = true) by (apply ltb_key; eauto 6). congruence.
  - assert ((y <? z)%float = true) by (apply ltb_key; eauto 6). congruence.
Qed.

(** ** Floats that are numbers and not negative *)

Lemma shr_1_nonneg mrs : 0 <= shr_m mrs -> 0 <= shr_m (shr_1 mrs).
Proof.
  destruct mrs as [m r s]. simpl.
  destruct m as [|p|p]; simpl; try lia; destruct p; simpl; lia.
Qed.

Lemma iter_shr_1_nonneg p : forall mrs,
  0 <= shr_m mrs -> 0 <= shr_m (SpecFloat.iter_pos shr_1 p mrs).
Proof.
  induction p as [p IH|p IH|]; intros mrs H; simpl.
  - apply IH, IH, shr_1_nonneg, H.
  - apply IH, IH, H.
  - apply shr_1_nonneg, H.
Qed.

Lemma shr_fexp_nonneg m e l :
  0 <= m -> 0 <= shr_m (fst (shr_fexp prec emax m e l)).
Proof.
  intros H. unfold shr_fexp, shr.
  assert (H0 : 0 <= shr_m (shr_record_of_loc m l))
    by (destruct l as [|[]]; simpl; exact H).
  destruct (fexp prec emax (Zdigits2 m + e) - e); simpl; try exact H0.
  apply iter_shr_1_nonneg, H0.
Qed.

Lemma round_nearest_even_nonneg m l : 0 <= m -> 0 <= round_nearest_even m l.
Proof.
  intros H. destruct l as [|[]]; simpl; try lia.
  destruct (Z.even m); lia.
Qed.

Lemma binary_round_aux_nonneg m e l :
  0 <= m -> sf_nonneg (binary_round_aux prec emax false m e l) = true.
Proof.
  intros H. unfold binary_round_aux.
  pose proof (shr_fexp_nonneg m e l H) as H1.
  destruct (shr_fexp prec emax m e l) as [mrs' e']. simpl in H1.
  pose proof (shr_fexp_nonneg _ e' loc_Exact
                (round_nearest_even_nonneg _ (loc_of_shr_record mrs') H1)) as H2.
  destruct (shr_fexp prec emax _ e' loc_Exact) as [mrs'' e'']. simpl in H2.
  destruct (shr_m mrs'') as [|p|p]; try reflexivity; [|lia].
  destruct (e'' <=? emax - prec); reflexivity.
Qed.

Lemma binary_round_nonneg m e :
  sf_nonneg (binary_round prec emax false m e) = true.
Proof.
  unfold binary_round.
  destruct (shl_align m e _) as [mz ez].
  apply binary_round_aux_nonneg. lia.
Qed.

Lemma SFmul_nonneg x y :
  sf_nonneg x = true -> sf_nonneg y = true ->
  (exists m e, x = S754_finite false m e) ->
  sf_nonneg (SF64mul x y) = true.
Proof.
  intros _ Hy (m & e & ->).
  destruct y as [s|s| |s my ey]; simpl in *; try discriminate;
    destruct s; try discriminate; try reflexivity.
  apply binary_round_aux_nonneg. lia.
Qed.

Lemma SFadd_nonneg x y :
  sf_nonneg x = true -> sf_nonneg y = true ->
  sf_nonneg (SF64add x y) = true.
Proof.
  intros Hx Hy.
  destruct x as [sx|sx| |sx mx ex], y as [sy|sy| |sy my ey]; simpl in *;
    try discriminate;
    repeat match goal with s : bool |- _ => destruct s end;
    try discriminate; try reflexivity.
  apply binary_round_nonneg.
Qed.

Lemma of_uint63_nonneg n : sf_nonneg (Prim2SF (of_uint63 n)) = true.
Proof.
  rewrite FloatAxioms.of_uint63_spec.
  pose proof (Uint63.to_Z_bounded n) as H.
  destruct (Uint63.to_Z n) as [|p|p]; simpl; try reflexivity; [|lia].
  apply binary_round_nonneg.
Qed.

Lemma nonneg_not_nan x : sf_nonneg (Prim2SF x) = true -> is_nan x = false.
Proof.
  unfold is_nan. rewrite FloatAxioms.eqb_spec. unfold SFeqb.
  destruct (Prim2SF x) as [s|s| |s m e]; simpl; try discriminate;
    destruct s; try discriminate; intros _; try reflexivity.
  change (PosDef.Pos.compare_cont Eq m m) with (Pos.compare m m).
  now rewrite Z.compare_refl, Pos.compare_refl.
Qed.

(** ** The absolute value and non-negative factors *)

Lemma SFabs_binary_round_aux s m e l :
  SFabs (binary_round_aux prec emax s m e l)
  = binary_round_aux prec emax false m e l.
Proof.
  unfold binary_round_aux.
  destruct (shr_fexp prec emax m e l) as [mrs' e'].
  destruct (shr_fexp prec emax _ e' loc_Exact) as [mrs'' e''].
  destruct (shr_m mrs'') as [|p|p]; try reflexivity.
  destruct (e'' <=? emax - prec); reflexivity.
Qed.

Lemma SFabs_div A B :
  sf_nonneg B = true -> SFabs (SF64div A B) = SF64div (SFabs A) B.
Proof.
  intros HB.
  destruct A as [sa|sa| |sa ma ea], B as [sb|sb| |sb mb eb]; simpl in *;
    try discriminate; destruct sb; try discriminate; try reflexivity.
  destruct (SFdiv_core_binary prec emax (Z.pos ma) ea (Z.pos mb) eb)
    as [[mz ez] lz].
  apply SFabs_binary_round_aux.
Qed.

Lemma SFabs_mul X C :
  sf_nonneg C = true -> SFabs (SF64mul X C) = SF64mul (SFabs X) C.
Proof.
  intros HC.
  destruct X as [sx|sx| |sx mx ex], C as [sc|sc| |sc mc ec]; simpl in *;
    try discriminate; destruct sc; try discriminate; try reflexivity.
  apply SFabs_binary_round_aux.
Qed.

(** The absolute value of a quotient scaled by a factor is the quotient of
    the absolute value, when the divisor and the factor are not negative. *)
Lemma abs_div_mul (a b c : float) :
  sf_nonneg (Prim2SF b) = true -> sf_nonneg (Prim2SF c) = true ->
  abs (a / b * c)%float = (abs a / b * c)%float.
Proof.
  intros Hb Hc. apply Prim2SF_inj.
  rewrite FloatAxioms.abs_spec, !FloatAxioms.mul_spec, !FloatAxioms.div_spec,
    FloatAxioms.abs_spec.
  now rewrite SFabs_mul, SFabs_div.
Qed.

Lemma SFdiv_nonneg A B :
  sf_nonneg A = true -> (exists m e, B = S754_finite false m e) ->
  sf_nonneg (SF64div A B) = true.
Proof.
  intros HA (mb & eb & ->).
  destruct A as [sa|sa| |sa ma ea]; simpl in *; try discriminate;
    destruct sa; try discriminate; try reflexivity.
  unfold SFdiv_core_binary.
  set (e' := Z.min _ _). set (s := ea - eb - e').
  set (m' := match s with Z.pos _ => Z.shiftl (Z.pos ma) s | 0 => Z.pos ma
             | Z.neg _ => 0 end).
  assert (Hm : 0 <= m').
  { unfold m'. destruct s; try lia. apply Z.shiftl_nonneg. lia. }
  pose proof (Z_div_mod m' (Z.pos mb) ltac:(lia)) as Hdiv.
  destruct (Z.div_eucl m' (Z.pos mb)) as [q r].
  apply binary_round_aux_nonneg. nia.
Qed.

End FloatFacts.

(** * Facts about the DICOM reader and the transforms *)

Module DicomFacts.
Import Py Dicom DicomSpec ListFacts.

(** ** [decode_value] *)

Lemma strip2_length {A} (l : list A) : length (strip2 l) = (length l - 2)%nat.
Proof. unfold strip2. rewrite length_take. lia. Qed.

Lemma strips_length k : forall value,
  length (strips k value) = (length value - 2 * k)%nat.
Proof.
  induction k as [|k IH]; intros value; simpl; [lia|].
  rewrite IH, strip2_length. lia.
Qed.

Lemma strips_exhausted k value :
  (length value <= 2 * k)%nat -> strips k value = [].
Proof.
  intros H. apply length_zero_iff_nil. rewrite strips_length. lia.
Qed.

(** The first attempt that succeeds is the answer, when the interpreter allows
    that many frames. *)
Lemma decode_value_first_success vr k : forall depth value v,
  (k < depth)%nat ->
  (forall j, (j < k)%nat ->
     is_ok (decode_value_try vr (strips j value)) = false) ->
  decode_value_try vr (strips k value) = Ok v ->
  decode_value depth vr value = Ok v.
Proof.
  induction k as [|k IH]; intros depth value v Hd Hfail Hok;
    destruct depth as [|depth]; try lia; simpl in *.
  - now rewrite Hok.
  - pose proof (Hfail 0%nat ltac:(lia)) as H0. simpl in H0.
    destruct (decode_value_try vr value); [discriminate|].
    apply IH; [lia| |exact Hok].
    intros j Hj. apply (Hfail (S j)). lia.
Qed.

(** On the empty input a failing attempt is repeated on the empty input, frame
    after frame, until the interpreter stops it. *)
Lemma decode_value_empty_fails vr depth :
  is_ok (decode_value_try vr []) = false ->
  decode_value depth vr [] = Raise RecursionError.
Proof.
  intros H. induction depth as [|depth IH]; simpl; [reflexivity|].
  destruct (decode_value_try vr []); [discriminate|]. exact IH.
Qed.

(** When every attempt on a non-empty input fails, the answer is what the VR
    makes of the empty input. *)
Lemma decode_value_until_empty vr k : forall depth value v0,
  (k < depth)%nat ->
  strips k value = [] ->
  (forall j, strips j value <> [] ->
     is_ok (decode_value_try vr (strips j value)) = false) ->
  decode_value_try vr [] = Ok v0 ->
  decode_value depth vr value = Ok v0.
Proof.
  induction k as [|k IH]; intros depth value v0 Hd Hnil Hfail Hok;
    destruct depth as [|depth]; try lia; simpl in *.
  - subst value. now rewrite Hok.
  - destruct value as [|b value].
    + now rewrite Hok.
    + pose proof (Hfail 0%nat ltac:(discriminate)) as H0. simpl in H0.
      destruct (decode_value_try vr (b :: value)); [discriminate|].
      apply (IH depth); [lia | exact Hnil | | exact Hok].
      intros j Hj. apply (Hfail (S j)). exact Hj.
Qed.

(** When no attempt that the interpreter allows succeeds, the interpreter ends
    the recursion. *)
Lemma decode_value_all_fail vr : forall depth value,
  (forall j, (j < depth)%nat ->
     is_ok (decode_value_try vr (strips j value)) = false) ->
  decode_value depth vr value = Raise RecursionError.
Proof.
  induction depth as [|depth IH]; intros value Hall; cbn [decode_value].
  - reflexivity.
  - pose proof (Hall 0%nat ltac:(lia)) as H0. cbn [strips] in H0.
    destruct (decode_value_try vr value); [discriminate|].
    apply IH. intros j Hj. apply (Hall (S j)). lia.
Qed.

(** C1, as the code has it.  [depth] is the number of calls that the
    interpreter's recursion limit still allows.  [decode_value] answers with
    the first attempt that succeeds among [value], [value[:-2]],
    [value[:-4]], ..., when that attempt is within the limit; when every
    attempt on a non-empty input fails and the limit allows a call for every
    two bytes and one more, it answers with what the VR makes of the empty
    input, if it makes anything of it; and when no attempt within the limit
    succeeds, it raises [RecursionError]. *)
Theorem decode_value_retry (vr : string) (value : list byte) (depth : nat) :
  (forall k v,
     (k < depth)%nat ->
     (forall j, (j < k)%nat ->
        is_ok (decode_value_try vr (strips j value)) = false) ->
     decode_value_try vr (strips k value) = Ok v ->
     decode_value depth vr value = Ok v)
  /\
  (forall v0,
     (length value + 2 <= 2 * depth)%nat ->
     (forall j, strips j value <> [] ->
        is_ok (decode_value_try vr (strips j value)) = false) ->
     decode_value_try vr [] = Ok v0 ->
     decode_value depth vr value = Ok v0)
  /\
  ((forall j, (j < depth)%nat ->
      is_ok (decode_value_try vr (strips j value)) = false) ->
   decode_value depth vr value = Raise RecursionError).
Proof.
  split; [|split].
  - intros k v. apply decode_value_first_success.
  - intros v0 Hd Hfail Hok.
    apply (decode_value_until_empty vr (Nat.div2 (S (length value))));
      try assumption.
    + pose proof (Nat.div2_odd (S (length value))) as E.
      destruct (Nat.odd (S (length value))); simpl Nat.b2n in E; lia.
    + apply strips_exhausted.
      pose proof (Nat.div2_odd (S (length value))) as E.
      destruct (Nat.odd (S (length value))); simpl Nat.b2n in E; lia.
  - apply decode_value_all_fail.
Qed.

Lemma decode_value_retry_witness :
  decode_value 1000 "IS" [x34; x32; xff; xff] = Ok (VInt 42)
  /\ decode_value 1000 "LO" [xff; xff] = Ok (VStr EmptyString)
  /\ decode_value 2 "LO" [xff; xff; xff; xff; xff; xff]
     = Raise RecursionError.
Proof.
  split; [|split].
  - apply (proj1 (decode_value_retry "IS" [x34; x32; xff; xff] 1000) 1%nat).
    + lia.
    + intros j Hj. assert (j = 0%nat) as -> by lia. reflexivity.
    + reflexivity.
  - apply (proj1 (proj2 (decode_value_retry "LO" [xff; xff] 1000))).
    + simpl. lia.
    + intros [|j] Hj; [reflexivity|].
      exfalso. apply Hj. apply strips_exhausted. simpl. lia.
    + reflexivity.
  - apply (proj2 (proj2 (decode_value_retry "LO"
                           [xff; xff; xff; xff; xff; xff] 2))).
    intros [|[|j]] Hj; [reflexivity|reflexivity|lia].
Defined.

(** C1 as the specification words it does not hold: two bytes that are not
    ASCII fail to decode as text, stripping exhausts the input, and the call
    succeeds on the empty value. *)
Lemma decode_value_succeeds_on_empty :
  decode_value_try "LO" [xff; xff] = Raise UnicodeDecodeError
  /\ strip2 [xff; xff] = []
  /\ decode_value 1000 "LO" [xff; xff] = Ok (VStr EmptyString).
Proof. repeat split. Qed.

(** ** [parse_binary] *)

(** The loop never runs out of rounds when it is given more of them than there
    are bytes: every round that reads an element drops at least four. *)
Lemma read_header_shorter data tag vr len raw rest :
  read_header data = Ok (tag, vr, len, raw, rest) ->
  (length rest <= length data - 4)%nat.
Proof.
  unfold read_header, bind.
  destruct (decode_ascii (take 2 (drop 4 data))) as [vr'|e]; [|discriminate].
  destruct (str_in vr' short_length_vrs); cbv beta iota zeta; intros H;
    injection H as <- <- <- <- <-; rewrite !length_drop; lia.
Qed.

Lemma read_element_shorter depth data tag vr len value rest :
  read_element depth data = Ok (tag, vr, len, value, rest) ->
  (length rest <= length data - 4)%nat.
Proof.
  unfold read_element.
  destruct (read_header data) as [[[[[tag' vr'] len'] raw] rest']|e] eqn:E;
    simpl; [|discriminate].
  destruct (decode_value depth vr' raw); simpl; [|discriminate].
  intros H. injection H as <- <- <- <- <-.
  eapply read_header_shorter, E.
Qed.

Lemma parse_loop_total depth fuel : forall data parsed,
  (length data < fuel)%nat ->
  exists r, parse_loop fuel depth data parsed = Some r.
Proof.
  induction fuel as [|fuel IH]; intros data parsed Hlen; [lia|]. simpl.
  destruct (0 <? length data)%nat eqn:E0; [|eauto].
  apply Nat.ltb_lt in E0.
  destruct (read_element depth data)
    as [[[[[tag vr] len] value] rest]|e] eqn:E; [|eauto].
  destruct (String.eqb tag pixel_data_tag); [eauto|].
  apply IH. apply read_element_shorter in E. lia.
Qed.

(** [parse_binary] returns or raises: it never loops. *)
Lemma parse_binary_total depth elements data :
  exists r, parse_binary depth elements data = Some r.
Proof.
  unfold parse_binary.
  destruct (parse_loop_total depth (S (length (drop 4 (drop 128 data))))
              (drop 4 (drop 128 data)) ∅ ltac:(lia)) as [r Hr].
  rewrite Hr. destruct r as [[parsed image_data]|e]; eauto.
Qed.

(** The loop adds no entry for the pixel-data tag. *)
Lemma parse_loop_no_pixel_entry depth fuel : forall data parsed parsed' image,
  parsed !! pixel_data_tag = None ->
  parse_loop fuel depth data parsed = Some (Ok (parsed', image)) ->
  parsed' !! pixel_data_tag = None.
Proof.
  induction fuel as [|fuel IH]; intros data parsed parsed' image Hp;
    simpl; [discriminate|].
  destruct (0 <? length data)%nat;
    [|intros H; injection H as <- <-; exact Hp].
  destruct (read_element depth data)
    as [[[[[tag vr] len] value] rest]|e]; [|discriminate].
  destruct (String.eqb tag pixel_data_tag) eqn:Et.
  - intros H; injection H as <- <-; exact Hp.
  - apply IH. apply String.eqb_neq in Et.
    rewrite lookup_insert_ne; [exact Hp | exact Et].
Qed.

Lemma annotate_lookup elements parsed key :
  annotate elements parsed !! key =
  (fun entry => (entry ++ [VStr (match elements !! key with
                                 | Some name => name
                                 | None => "UNKOWN"
                                 end)])%list) <$> parsed !! key.
Proof.
  unfold annotate. rewrite map_lookup_imap.
  destruct (parsed !! key); reflexivity.
Qed.

(** The test [vr in "AE AS ..."] is a substring test; none of the VRs that
    the [match] converts is caught by it, and the VRs of pixel data reach the
    default case. *)
Lemma converted_vrs_are_not_text :
  forallb (fun vr => negb (str_in vr text_vrs))
    ["AT"; "FL"; "FD"; "IS"; "SL"; "SS"; "SV"; "UL"; "US"] = true.
Proof. reflexivity. Qed.

Lemma pixel_vrs_are_opaque : opaque_vr "OW" = true /\ opaque_vr "OB" = true.
Proof. split; reflexivity. Qed.

(** The bytes e0 7f 10 00 of a stream are the tag 7fe0,0010. *)
Lemma rearrange_pixel_tag :
  rearrange_tag (hex [xe0; x7f; x10; x00]) = pixel_data_tag.
Proof. reflexivity. Qed.

Lemma decode_value_opaque depth vr raw :
  opaque_vr vr = true -> decode_value (S depth) vr raw = Ok (VBytes raw).
Proof.
  unfold opaque_vr. cbn [forallb]. rewrite !andb_true_iff, !negb_true_iff.
  intros (Ht & H1 & H2 & H3 & H4 & H5 & H6 & H7 & H8 & H9 & _).
  cbn [decode_value]. unfold decode_value_try.
  now rewrite Ht, H1, H2, H3, H4, H5, H6, H7, H8, H9.
Qed.

(** X27.  At the pixel-data element the loop stops with the dictionary as it
    stands and with the value that [decode_value] made of the element,
    whatever bytes follow; that value is the raw bytes when the VR is one that
    [decode_value] leaves alone, as the VRs OB and OW of pixel data are; and
    the dictionary that [parse_binary] returns has no entry for the tag. *)
Theorem pixel_data_ends_parse :
  (forall fuel depth data parsed vr len raw rest value,
     data <> [] ->
     read_header data = Ok (pixel_data_tag, vr, len, raw, rest) ->
     decode_value depth vr raw = Ok value ->
     parse_loop (S fuel) depth data parsed = Some (Ok (parsed, value)))
  /\
  (forall fuel depth data parsed vr len raw rest,
     data <> [] ->
     read_header data = Ok (pixel_data_tag, vr, len, raw, rest) ->
     opaque_vr vr = true ->
     parse_loop (S fuel) (S depth) data parsed
     = Some (Ok (parsed, VBytes raw)))
  /\
  (forall depth elements data parsed image_data,
     parse_binary depth elements data = Some (Ok (parsed, image_data)) ->
     parsed !! pixel_data_tag = None).
Proof.
  assert (Hstop : forall fuel depth data parsed vr len raw rest value,
     data <> [] ->
     read_header data = Ok (pixel_data_tag, vr, len, raw, rest) ->
     decode_value depth vr raw = Ok value ->
     parse_loop (S fuel) depth data parsed = Some (Ok (parsed, value))).
  { intros fuel depth data parsed vr len raw rest value Hne Hh Hv. simpl.
    destruct data as [|b data]; [congruence|]. simpl (0 <? _)%nat. cbv iota.
    unfold read_element. rewrite Hh. simpl. rewrite Hv. simpl.
    reflexivity. }
  split; [exact Hstop|]. split.
  - intros fuel depth data parsed vr len raw rest Hne Hh Hvr.
    eapply Hstop; eauto using decode_value_opaque.
  - intros depth elements data parsed image_data. unfold parse_binary.
    destruct (parse_loop _ depth _ ∅) as [[[parsed0 image0]|e]|] eqn:E;
      try discriminate.
    intros H; injection H as <- <-.
    rewrite annotate_lookup.
    erewrite parse_loop_no_pixel_entry; [reflexivity| |exact E].
    apply lookup_empty.
Qed.

Lemma pixel_data_ends_parse_witness :
  parse_loop 1 1 (drop 132 pixel_stream_ow) ∅ = Some (Ok (∅, VBytes [x01; x00]))
  /\ parse_loop 1 1 (drop 132 pixel_stream_ow) ∅
     = Some (Ok (∅, VBytes [x01; x00]))
  /\ (∅ : gmap string (list pyval)) !! pixel_data_tag = None.
Proof.
  destruct pixel_data_ends_parse as (H1 & H2 & H3).
  split; [|split].
  - apply (H1 0%nat 1%nat (drop 132 pixel_stream_ow) ∅ "OW" 2 [x01; x00] [x99]);
      [discriminate | reflexivity | reflexivity].
  - apply (H2 0%nat 0%nat (drop 132 pixel_stream_ow) ∅ "OW" 2 [x01; x00] [x99]);
      [discriminate | reflexivity | reflexivity].
  - apply (H3 1%nat ∅ pixel_stream_ow ∅ (VBytes [x01; x00])).
    vm_compute. reflexivity.
Defined.

(** C5 on the code: [parse_binary] decodes the value of every element before
    it looks at the tag, the pixel data included.  On a stream whose pixel-data
    element has VR US and the two bytes 01 00, the header is read with those
    two bytes as the value, and what [parse_binary] returns as image data is
    the integer 1 that [decode_value] makes of them, not the raw bytes. *)
Theorem pixel_data_is_decoded :
  read_header (drop 132 pixel_stream_us)
  = Ok (pixel_data_tag, "US", 2, [x01; x00], [])
  /\ parse_binary 1000 ∅ pixel_stream_us = Some (Ok (∅, VInt 1))
  /\ VInt 1 <> VBytes [x01; x00].
Proof. split; [reflexivity|]. split; [vm_compute; reflexivity | discriminate]. Qed.

(** ** The names *)

(** The entry of a tag that the dictionary has is given its name there. *)
Lemma annotate_known elements parsed key entry name :
  parsed !! key = Some entry ->
  elements !! key = Some name ->
  annotate elements parsed !! key = Some (entry ++ [VStr name])%list.
Proof. intros Hp He. now rewrite annotate_lookup, Hp, He. Qed.

(** The entry of a tag that the dictionary lacks is given the label that the
    source spells. *)
Lemma annotate_unknown elements parsed key entry :
  parsed !! key = Some entry ->
  elements !! key = None ->
  annotate elements parsed !! key = Some (entry ++ [VStr "UNKOWN"])%list.
Proof. intros Hp He. now rewrite annotate_lookup, Hp, He. Qed.

(** C9 on the code: with an empty dictionary the element 0028,0010 is
    labelled ["UNKOWN"], which is not the label ["UNKNOWN"]. *)
Theorem unknown_tag_label :
  (parse_binary 1000 ∅ rows_stream
   ≫= fun r => match r with
               | Ok (parsed, _) => parsed !! "00280010"
               | Raise _ => None
               end)
  = Some [VStr "US"; VInt 2; VInt 64; VStr "UNKOWN"]
  /\ "UNKOWN" <> "UNKNOWN".
Proof. split; [vm_compute; reflexivity | discriminate]. Qed.

(** ** [decode_image_data] *)



(** The sample at flat index [i] of the comprehension. *)
Lemma samples_bytes b step :
  0 < step ->
  samples (VBytes b) step
  = Ok (map (fun i => int_from_bytes_little (slice i (i + Z.to_nat step) b))
            (py_range_step (length b) (Z.to_nat step))).
Proof.
  intros H. unfold samples. simpl.
  destruct (Z.eqb_spec step 0); [lia|].
  destruct (Z.ltb_spec step 0); [lia|]. reflexivity.
Qed.


Lemma byte_val_range x : 0 <= byte_val x < 256.
Proof.
  unfold byte_val. pose proof (Byte.to_N_bounded x). lia.
Qed.

Lemma int_from_bytes_little_range (b : list byte) :
  0 <= int_from_bytes_little b < 256 ^ Z.of_nat (length b).
Proof.
  induction b as [|x b IH]; cbn [int_from_bytes_little length].
  - cbn. lia.
  - pose proof (byte_val_range x).
    rewrite Nat2Z.inj_succ, Z.pow_succ_r by lia. lia.
Qed.



Lemma as_dim_int v z : as_dim v = Ok z -> v = VInt z.
Proof.
  destruct v as [|z'| | | |]; cbn [as_dim]; try discriminate.
  destruct ((- 2 ^ 63 <=? z') && (z' <? 2 ^ 63)); [|discriminate].
  now intros [= ->].
Qed.

(** A dimension that is an [int] is refused with [ValueError] only. *)
Lemma as_dim_raises z e : as_dim (VInt z) = Raise e -> e = ValueError.
Proof.
  cbn [as_dim]. destruct ((- 2 ^ 63 <=? z) && (z <? 2 ^ 63));
    [discriminate|]. now intros [= <-].
Qed.

Lemma length_np_array (items : list Z) :
  length (snd (np_array items)) = length items.
Proof.
  unfold np_array. destruct (array_dtype items); cbn [snd];
    try reflexivity. apply length_map.
Qed.

(** Items that fit [int64] make an [int64] array, when there are any, and
    are stored as they are. *)
Lemma array_dtype_int64 (items : list Z) :
  Forall (fun z => - 2 ^ 63 <= z < 2 ^ 63) items ->
  items = [] \/ array_dtype items = int64.
Proof.
  intros H.
  assert (Hd : forall z, - 2 ^ 63 <= z < 2 ^ 63 -> item_dtype z = int64).
  { intros z Hz. unfold item_dtype.
    destruct (Z.leb_spec (- 2 ^ 63) z); [|lia].
    destruct (Z.ltb_spec z (2 ^ 63)); [reflexivity|lia]. }
  destruct H as [|z l Hz Hl]; [now left|right].
  unfold array_dtype. rewrite (Hd z Hz).
  induction Hl as [|y l Hy _ IH]; [reflexivity|].
  cbn [fold_left]. now rewrite (Hd y Hy).
Qed.





(** Fewer than 8 bits make the stride 0, which [range] refuses. *)
Lemma seven_bits_refused :
  decode_image_data (metadata 7 2 1 1) (VBytes [x05; x06]) = Raise ValueError.
Proof. vm_compute. reflexivity. Qed.

(** From 64 bits on a sample need not fit [int64]: of the samples 1 and
    2^64 - 1 numpy makes a [float64] array, in which the second is 2^64. *)
Lemma mixed_samples_are_rounded :
  decode_image_data (metadata 64 2 1 1)
    (VBytes [x01; x00; x00; x00; x00; x00; x00; x00;
             xff; xff; xff; xff; xff; xff; xff; xff])
  = Ok (float64, [[[1]]; [[2 ^ 64]]]).
Proof. vm_compute. reflexivity. Qed.

(** ** The transforms: [crop] *)

Lemma lookup_window {A} (ax : nat * nat) (l : list A) (i : nat) :
  (i < snd ax)%nat -> window ax l !! i = l !! (fst ax + i)%nat.
Proof.
  intros H. unfold window. rewrite lookup_take_lt by exact H.
  apply lookup_drop.
Qed.

(** A sample of the contents of an array object is the sample of its buffer
    at the shifted position. *)
Lemma sample_at_contents h a ax0 ax1 ax2 i j k :
  axes a = [ax0; ax1; ax2] ->
  (i < snd ax0)%nat -> (j < snd ax1)%nat -> (k < snd ax2)%nat ->
  sample_at (contents h a) i j k
  = sample_at (h !!! buffer a) (fst ax0 + i) (fst ax1 + j) (fst ax2 + k).
Proof.
  intros Hax Hi Hj Hk. unfold contents, sample_at. rewrite Hax.
  rewrite lookup_map, lookup_window by exact Hi.
  destruct ((h !!! buffer a) !! (fst ax0 + i)%nat) as [plane|];
    cbn [fmap option_fmap option_map]; [|reflexivity].
  rewrite lookup_map, lookup_window by exact Hj.
  destruct (plane !! (fst ax1 + j)%nat) as [row|];
    cbn [fmap option_fmap option_map]; [|reflexivity].
  apply lookup_window, Hk.
Qed.

Lemma adjust_index_range n i : 0 <= n -> 0 <= adjust_index n i <= n.
Proof. intros H. unfold adjust_index. destruct (Z.ltb_spec i 0); lia. Qed.

(** A window that lies within the axis is taken as it is. *)
Lemma sub_axis_inside start stop ax :
  0 <= start -> start <= stop -> stop <= Z.of_nat (snd ax) ->
  sub_axis start stop ax
  = ((fst ax + Z.to_nat start)%nat, Z.to_nat (stop - start)).
Proof.
  intros H0 H1 H2. unfold sub_axis, adjust_index.
  destruct (Z.ltb_spec start 0), (Z.ltb_spec stop 0); try lia.
  now rewrite !Z.min_l by lia.
Qed.

(** No window is longer than the axis it is cut from. *)
Lemma sub_axis_le start stop ax : (snd (sub_axis start stop ax) <= snd ax)%nat.
Proof.
  unfold sub_axis. cbn [snd].
  pose proof (adjust_index_range (Z.of_nat (snd ax)) start ltac:(lia)).
  pose proof (adjust_index_range (Z.of_nat (snd ax)) stop ltac:(lia)).
  lia.
Qed.

Lemma adjust_index_slice_bound n i : adjust_index n i = slice_bound n i.
Proof.
  unfold adjust_index, slice_bound.
  destruct (Z.ltb_spec i 0).
  - destruct (Z.ltb_spec (i + n) 0); [lia|].
    destruct (Z.ltb_spec n (i + n)); lia.
  - destruct (Z.ltb_spec i 0); [lia|].
    destruct (Z.ltb_spec n i); lia.
Qed.

Lemma slice_bound_range n b : 0 <= n -> 0 <= slice_bound n b <= n.
Proof.
  intros H. rewrite <- adjust_index_slice_bound. now apply adjust_index_range.
Qed.

(** X28.  [crop] checks no bound, rejects no size and writes nothing: on a
    3-D array of shape (n0, n1, n2) it returns the view
    [array[start:end, start:end, start:end]], with [start] the half of [n0]
    less the half of the crop size and [end] the crop size further, as
    Python reads the two bounds on each axis: the view has, per axis, the
    items from the lower bound up to the upper one, none when the upper bound
    is not above the lower. *)
Theorem crop_is_slice (h : gmap nat volume) (array : ndarray)
  (crop_size : Z) (n0 n1 n2 : nat) :
  shape array = [n0; n1; n2] ->
  let start := Z.of_nat n0 / 2 - crop_size / 2 in
  let stop := start + crop_size in
  let lo (n : nat) := Z.to_nat (slice_bound (Z.of_nat n) start) in
  let extent (n : nat) :=
    Z.to_nat (slice_bound (Z.of_nat n) stop
              - slice_bound (Z.of_nat n) start) in
  exists view,
    crop h array crop_size = Ok (h, view)
    /\ shape view = [extent n0; extent n1; extent n2]
    /\ forall i j k,
         (i < extent n0)%nat -> (j < extent n1)%nat -> (k < extent n2)%nat ->
         sample_at (contents h view) i j k
         = sample_at (contents h array) (lo n0 + i) (lo n1 + j) (lo n2 + k).
Proof.
  intros Hs start stop lo extent. unfold shape in Hs.
  destruct (axes array) as [|ax0 [|ax1 [|ax2 [|ax3 l]]]] eqn:Hax;
    try discriminate.
  injection Hs as <- <- <-.
  unfold crop. rewrite Hax. fold start. fold stop.
  assert (E : forall ax, sub_axis start stop ax
                         = ((fst ax + lo (snd ax))%nat, extent (snd ax))).
  { intros ax. unfold sub_axis, lo, extent.
    now rewrite !adjust_index_slice_bound. }
  rewrite !E. eexists. split; [reflexivity|]. split; [reflexivity|].
  intros i j k Hi Hj Hk.
  assert (B : forall n, (lo n + extent n <= n)%nat).
  { intros n. unfold lo, extent.
    pose proof (slice_bound_range (Z.of_nat n) start ltac:(lia)).
    pose proof (slice_bound_range (Z.of_nat n) stop ltac:(lia)). lia. }
  pose proof (B (snd ax0)). pose proof (B (snd ax1)). pose proof (B (snd ax2)).
  erewrite sample_at_contents by (try reflexivity; assumption).
  erewrite (sample_at_contents h array) by (try exact Hax; lia).
  cbn [fst snd buffer]. f_equal; lia.
Qed.

Lemma crop_is_slice_witness :
  exists view,
    crop store4 cube4 10 = Ok (store4, view)
    /\ shape view = [3; 3; 3]%nat
    /\ forall i j k,
         (i < 3)%nat -> (j < 3)%nat -> (k < 3)%nat ->
         sample_at (contents store4 view) i j k
         = sample_at (contents store4 cube4) (1 + i) (1 + j) (1 + k).
Proof.
  apply (crop_is_slice store4 cube4 10 4 4 4). reflexivity.
Defined.

(** C7 on the code: [crop] has no bounds check.  A crop size of 10 on a
    4 x 4 x 4 volume puts [start] at -3 and [end] at 7, outside the array; the
    call does not raise: the negative bound wraps around to index 1, the upper
    bound is clamped to 4, and what is returned is the view of the
    3 x 3 x 3 block at index 1, neither an error nor a 10 x 10 x 10 crop. *)
Theorem oversize_crop_is_truncated :
  4 / 2 - 10 / 2 = -3
  /\ 4 < 4 / 2 - 10 / 2 + 10
  /\ crop store4 cube4 10
     = Ok (store4, {| buffer := 0; axes := [(1, 3); (1, 3); (1, 3)]%nat |})
  /\ contents store4 {| buffer := 0; axes := [(1, 3); (1, 3); (1, 3)]%nat |}
     = replicate 3 [[6; 7; 8]; [10; 11; 12]; [14; 15; 16]].
Proof. repeat split. Qed.

(** ** The transforms: [apply_convolution] *)

Lemma convolve2d_plane n1 n2 plane kernel kh kw :
  kernel_shape kernel = Ok (kh, kw) ->
  kernel_weights kernel = Ok tt ->
  convolve2d n1 n2 plane kernel
  = Ok (convolve_plane n1 n2 kernel kh kw plane).
Proof. intros H Hw. unfold convolve2d. rewrite H, Hw. reflexivity. Qed.

(** Weights that fit [int64] are numbers to numpy. *)
Lemma kernel_weights_int64 (kernel : list (list Z)) :
  Forall (Forall (fun w => - 2 ^ 63 <= w < 2 ^ 63)) kernel ->
  kernel_weights kernel = Ok tt.
Proof.
  intros H. unfold kernel_weights.
  assert (Forall (fun w => - 2 ^ 63 <= w < 2 ^ 63) (concat kernel)) as Hc.
  { induction H as [|row kernel Hrow _ IH]; cbn [concat]; [constructor|].
    apply Forall_app. auto. }
  destruct (array_dtype_int64 _ Hc) as [-> | ->]; reflexivity.
Qed.

(** A buffer other than the one written keeps the contents of every array
    object on it. *)
Lemma contents_insert_ne h a l v :
  l <> buffer a -> contents (<[l := v]> h) a = contents h a.
Proof.
  intros H. unfold contents. now rewrite lookup_total_insert_ne by exact H.
Qed.

(** The loop of [apply_convolution], [t] planes done. *)
Lemma convolution_loop h array kernel kh kw n0 n1 n2 l t :
  kernel_shape kernel = Ok (kh, kw) ->
  kernel_weights kernel = Ok tt ->
  l <> buffer array ->
  (t <= n0)%nat ->
  let new_array := {| buffer := l; axes := [(0, n0); (0, n1); (0, n2)]%nat |} in
  let out i := convolve_plane n1 n2 kernel kh kw (plane_of h array i) in
  foldl (fun acc i =>
           let* hi := acc in
           let* out := convolve2d n1 n2 (plane_of hi array i) kernel in
           Ok (set_plane hi new_array i out))
        (Ok (<[l := zeros n0 n1 n2]> h)) (seq 0 t)
  = Ok (<[l := (map out (seq 0 t)
                ++ replicate (n0 - t) (replicate n1 (replicate n2 0)))%list]> h).
Proof.
  intros Hk Hw Hl Ht new_array out. induction t as [|t IH].
  - simpl. now rewrite Nat.sub_0_r.
  - rewrite seq_S, foldl_snoc, IH by lia. cbn [bind Nat.add].
    unfold plane_of at 1. rewrite contents_insert_ne by exact Hl.
    fold (plane_of h array t).
    rewrite (convolve2d_plane _ _ _ _ _ _ Hk Hw). cbn [bind].
    f_equal. unfold set_plane. cbn [buffer new_array].
    rewrite alter_insert_eq. f_equal.
    replace (n0 - t)%nat with (S (n0 - S t)) by lia. cbn [replicate].
    rewrite map_app. cbn [map]. rewrite <- app_assoc. cbn [app].
    rewrite insert_app_r_alt by (rewrite length_map, length_seq; lia).
    rewrite length_map, length_seq, Nat.sub_diag. reflexivity.
Qed.

(** What [apply_convolution] returns on an array that lives in the store. *)
Lemma apply_convolution_result h array kernel kh kw n0 n1 n2 :
  kernel_shape kernel = Ok (kh, kw) ->
  kernel_weights kernel = Ok tt ->
  shape array = [n0; n1; n2] ->
  is_Some (h !! buffer array) ->
  apply_convolution h array kernel
  = Ok (<[fresh (dom h) :=
            map (fun i => convolve_plane n1 n2 kernel kh kw
                            (plane_of h array i)) (seq 0 n0)]> h,
        {| buffer := fresh (dom h);
           axes := [(0, n0); (0, n1); (0, n2)]%nat |}).
Proof.
  intros Hk Hw Hs Hb. unfold apply_convolution. rewrite Hs.
  unfold zeros_like.
  assert (Hl : fresh (dom h) <> buffer array).
  { intros E. apply (is_fresh (dom h)). rewrite E. now apply elem_of_dom. }
  rewrite (convolution_loop h array kernel kh kw n0 n1 n2 _ n0 Hk Hw Hl)
    by lia.
  cbn [bind]. rewrite Nat.sub_diag. cbn [replicate]. now rewrite app_nil_r.
Qed.

Lemma length_convolve_plane n1 n2 kernel kh kw plane :
  length (convolve_plane n1 n2 kernel kh kw plane) = n1.
Proof. unfold convolve_plane. now rewrite length_map, length_seq. Qed.

Lemma sample_at_convolve_plane n1 n2 kernel kh kw plane m n :
  (m < n1)%nat -> (n < n2)%nat ->
  (convolve_plane n1 n2 kernel kh kw plane !! m) ≫= (fun row => row !! n)
  = Some (convolve_at plane kernel kh kw m n).
Proof.
  intros Hm Hn. unfold convolve_plane.
  rewrite lookup_map, lookup_seq_lt by exact Hm. cbn.
  now rewrite lookup_map, lookup_seq_lt by exact Hn.
Qed.

Lemma at2_filled a r c : at2 a r c = filled a r c.
Proof.
  unfold at2, filled.
  destruct (Z.leb_spec 0 r), (Z.ltb_spec r 0); try lia;
    destruct (Z.leb_spec 0 c), (Z.ltb_spec c 0); try lia;
    cbn [andb orb]; try reflexivity.
  destruct (a !! Z.to_nat r) as [row|]; cbn; [|reflexivity].
  now destruct (row !! Z.to_nat c).
Qed.

Lemma wrap64_int64_of z : wrap64 z = int64_of z.
Proof.
  unfold wrap64, to_signed, int64_of.
  change (2 ^ (64 - 1)) with (2 ^ 63).
  pose proof (Z.mod_pos_bound z (2 ^ 64) ltac:(lia)) as Hr.
  rewrite <- (Zplus_mod_idemp_l z).
  destruct (Z.ltb_spec (z mod 2 ^ 64) (2 ^ 63)).
  - rewrite (Z.mod_small (z mod 2 ^ 64 + 2 ^ 63)) by lia. lia.
  - assert ((z mod 2 ^ 64 + 2 ^ 63) mod 2 ^ 64
            = z mod 2 ^ 64 + 2 ^ 63 - 2 ^ 64) as ->
      by (symmetry; apply (Z.mod_unique _ _ 1); lia).
    lia.
Qed.

Lemma sum_imap {A} (l : list A) : forall (f : nat -> A -> Z),
  foldr Z.add 0 (imap f l)
  = Zsum (map (fun i => match l !! i with Some x => f i x | None => 0 end)
              (seq 0 (length l))).
Proof.
  induction l as [|x l IH]; intros f; [reflexivity|].
  rewrite imap_cons. cbn [foldr length seq map Zsum fold_right lookup].
  f_equal. rewrite IH, <- seq_shift, map_map. reflexivity.
Qed.

Lemma Zsum_flat_map {A} (g : A -> list Z) (l : list A) :
  Zsum (flat_map g l) = Zsum (map (fun a => Zsum (g a)) l).
Proof.
  induction l as [|a l IH]; [reflexivity|]. cbn [flat_map map].
  unfold Zsum in *. rewrite fold_right_app. cbn [fold_right].
  rewrite <- IH. clear IH. induction (g a) as [|z t IHt]; cbn; [reflexivity|].
  rewrite IHt. lia.
Qed.

Lemma kernel_shape_rectangular (kernel : list (list Z)) (kh kw : nat) :
  length kernel = kh -> (0 < kh)%nat ->
  Forall (fun row => length row = kw) kernel ->
  kernel_shape kernel = Ok (kh, kw).
Proof.
  intros Hh Hpos Hrows. unfold kernel_shape.
  destruct kernel as [|row rows]; [cbn in Hh; lia|].
  apply Forall_cons in Hrows as [Hrow Hrows].
  replace (forallb (fun r => (length r =? length row)%nat) rows) with true.
  - now rewrite Hh, Hrow.
  - symmetry. apply forallb_forall. intros r Hr. apply Nat.eqb_eq.
    rewrite Forall_forall in Hrows. rewrite Hrow. apply Hrows.
    now apply list_elem_of_In.
Qed.

(** The sample that [convolve2d] computes is the convolution. *)
Lemma convolve_at_weighted_sum plane kernel kh kw m n :
  length kernel = kh ->
  Forall (fun row => length row = kw) kernel ->
  convolve_at plane kernel kh kw m n
  = int64_of (weighted_sum plane kernel kh kw m n).
Proof.
  intros Hh Hrows. unfold convolve_at, weighted_sum.
  rewrite wrap64_int64_of. f_equal.
  rewrite Zsum_flat_map, sum_imap, Hh. f_equal.
  apply map_ext_in. intros j Hj. apply in_seq in Hj.
  destruct (kernel !! j) as [row|] eqn:Ej.
  - rewrite sum_imap.
    rewrite (Forall_lookup_1 _ _ _ _ Hrows Ej). f_equal.
    apply map_ext_in. intros k Hk.
    rewrite at2_filled. unfold at2.
    destruct (Z.leb_spec 0 (Z.of_nat j)); [|lia].
    destruct (Z.leb_spec 0 (Z.of_nat k)); [|lia].
    cbn [andb]. rewrite !Nat2Z.id, Ej. cbn.
    destruct (row !! k); cbn; lia.
  - apply lookup_ge_None in Ej. lia.
Qed.

Lemma filled_sample (vol : list (list (list Z))) (i r c : nat) (v : Z) :
  sample_at vol i r c = Some v ->
  filled (default [] (vol !! i)) (Z.of_nat r) (Z.of_nat c) = v.
Proof.
  unfold sample_at, filled.
  destruct (Z.ltb_spec (Z.of_nat r) 0); [lia|].
  destruct (Z.ltb_spec (Z.of_nat c) 0); [lia|].
  cbn [orb]. rewrite !Nat2Z.id.
  destruct (vol !! i) as [plane|]; cbn [default from_option id];
    [|discriminate].
  destruct (plane !! r) as [row|]; [|discriminate].
  now intros ->.
Qed.

Lemma filled_before plane r c : r < 0 \/ c < 0 -> filled plane r c = 0.
Proof.
  intros H. unfold filled.
  destruct (Z.ltb_spec r 0), (Z.ltb_spec c 0); cbn [orb]; try reflexivity.
  lia.
Qed.

(** The NEMA kernel on a plane that holds [v] everywhere: 16 times [v] where
    the eight neighbours are inside the plane, 9 times [v] at the first
    corner, where five of the nine samples are the fill, and 12 times [v] on
    the first row between the corners. *)
Lemma nema_uniform (vol : list (list (list Z))) (i n1 n2 : nat) (v : Z) :
  (forall r c, (r < n1)%nat -> (c < n2)%nat -> sample_at vol i r c = Some v) ->
  (forall m n, (1 <= m)%nat -> (m + 1 < n1)%nat ->
     (1 <= n)%nat -> (n + 1 < n2)%nat ->
     weighted_sum (default [] (vol !! i)) nema_kernel 3 3 m n = 16 * v)
  /\ ((2 <= n1)%nat -> (2 <= n2)%nat ->
      weighted_sum (default [] (vol !! i)) nema_kernel 3 3 0 0 = 9 * v)
  /\ (forall n, (2 <= n1)%nat -> (1 <= n)%nat -> (n + 1 < n2)%nat ->
      weighted_sum (default [] (vol !! i)) nema_kernel 3 3 0 n = 12 * v).
Proof.
  intros Hu.
  assert (Hin : forall r c : Z, 0 <= r < Z.of_nat n1 -> 0 <= c < Z.of_nat n2 ->
            filled (default [] (vol !! i)) r c = v).
  { intros r c Hr Hc.
    rewrite <- (Z2Nat.id r), <- (Z2Nat.id c) by lia.
    apply filled_sample, Hu; lia. }
  split; [|split].
  - intros m n Hm1 Hm2 Hn1 Hn2. unfold weighted_sum, nema_kernel.
    cbn [imap foldr compose]. change ((Z.of_nat 3 - 1) / 2) with 1.
    rewrite !Hin by (cbn; lia). lia.
  - intros H1 H2. unfold weighted_sum, nema_kernel.
    cbn [imap foldr compose]. change ((Z.of_nat 3 - 1) / 2) with 1.
    change (Z.of_nat 0 + 1 - Z.of_nat 0) with 1.
    change (Z.of_nat 0 + 1 - Z.of_nat 1) with 0.
    change (Z.of_nat 0 + 1 - Z.of_nat 2) with (-1).
    rewrite !(Hin 1 1), !(Hin 1 0), !(Hin 0 1), !(Hin 0 0) by lia.
    rewrite !(filled_before _ (-1)), !(filled_before _ _ (-1)) by lia. lia.
  - intros n H1 Hn1 Hn2. unfold weighted_sum, nema_kernel.
    cbn [imap foldr compose]. change ((Z.of_nat 3 - 1) / 2) with 1.
    change (Z.of_nat 0 + 1 - Z.of_nat 0) with 1.
    change (Z.of_nat 0 + 1 - Z.of_nat 1) with 0.
    change (Z.of_nat 0 + 1 - Z.of_nat 2) with (-1).
    rewrite !(Hin 1), !(Hin 0) by (cbn; lia).
    rewrite !(filled_before _ (-1)) by lia. lia.
Qed.

(** C4, as the code has it.  The kernel is used as the caller gave it, not
    divided by its sum.  For a rectangular kernel of at least one weight whose
    weights fit [int64], and a volume of [int64] samples, every plane of the
    result is the same-size, zero-filled convolution of the plane of the input
    at that index, in [int64] arithmetic; so with the NEMA kernel a sample of
    a uniform plane comes out as 16 times the value where its eight
    neighbours are inside the plane, and as 9 and 12 times the value at the
    first corner and on the first row. *)
Theorem apply_convolution_unnormalised (h : gmap nat volume)
  (array : ndarray) (kernel : list (list Z)) (kh kw n0 n1 n2 : nat) :
  length kernel = kh -> (0 < kh)%nat ->
  Forall (fun row => length row = kw) kernel -> (0 < kw)%nat ->
  Forall (Forall (fun w => - 2 ^ 63 <= w < 2 ^ 63)) kernel ->
  shape array = [n0; n1; n2] ->
  is_Some (h !! buffer array) ->
  (forall i r c v,
     sample_at (contents h array) i r c = Some v -> - 2 ^ 63 <= v < 2 ^ 63) ->
  exists h' new_array,
    apply_convolution h array kernel = Ok (h', new_array)
    /\ shape new_array = shape array
    /\ (forall i m n, (i < n0)%nat -> (m < n1)%nat -> (n < n2)%nat ->
          sample_at (contents h' new_array) i m n
          = Some (int64_of
                    (weighted_sum (default [] (contents h array !! i))
                       kernel kh kw m n)))
    /\ (forall i v,
          kernel = nema_kernel ->
          (i < n0)%nat ->
          (forall r c, (r < n1)%nat -> (c < n2)%nat ->
             sample_at (contents h array) i r c = Some v) ->
          (forall m n, (1 <= m)%nat -> (m + 1 < n1)%nat ->
             (1 <= n)%nat -> (n + 1 < n2)%nat ->
             sample_at (contents h' new_array) i m n
             = Some (int64_of (16 * v)))
          /\ ((2 <= n1)%nat -> (2 <= n2)%nat ->
              sample_at (contents h' new_array) i 0 0
              = Some (int64_of (9 * v)))
          /\ (forall n, (2 <= n1)%nat -> (1 <= n)%nat -> (n + 1 < n2)%nat ->
              sample_at (contents h' new_array) i 0 n
              = Some (int64_of (12 * v)))).
Proof.
  intros Hh Hhpos Hrows Hwpos Hint Hs Hb _.
  pose proof (kernel_shape_rectangular kernel kh kw Hh Hhpos Hrows) as Hk.
  pose proof (kernel_weights_int64 kernel Hint) as Hw.
  rewrite (apply_convolution_result h array kernel kh kw n0 n1 n2 Hk Hw Hs Hb).
  eexists _, _. split; [reflexivity|]. split; [now rewrite Hs|].
  assert (Hsample : forall i m n,
            (i < n0)%nat -> (m < n1)%nat -> (n < n2)%nat ->
            sample_at
              (contents
                 (<[fresh (dom h) :=
                      map (fun i => convolve_plane n1 n2 kernel kh kw
                                      (plane_of h array i)) (seq 0 n0)]> h)
                 {| buffer := fresh (dom h);
                    axes := [(0, n0); (0, n1); (0, n2)]%nat |}) i m n
            = Some (int64_of
                      (weighted_sum (default [] (contents h array !! i))
                         kernel kh kw m n))).
  { intros i m n Hi Hm Hn.
    erewrite sample_at_contents by (try reflexivity; assumption).
    cbn [buffer fst Nat.add]. rewrite lookup_total_insert_eq.
    unfold sample_at. rewrite lookup_map, lookup_seq_lt by exact Hi.
    cbn [fmap option_fmap option_map Nat.add].
    pose proof (sample_at_convolve_plane n1 n2 kernel kh kw
                  (plane_of h array i) m n Hm Hn) as E.
    rewrite (convolve_at_weighted_sum _ _ _ _ _ _ Hh Hrows) in E.
    destruct (convolve_plane n1 n2 kernel kh kw (plane_of h array i) !! m);
      exact E. }
  split; [exact Hsample|].
  intros i v -> Hi Hu.
  assert (kh = 3%nat) as -> by (now rewrite <- Hh).
  assert (kw = 3%nat) as ->
    by (apply Forall_cons in Hrows as [Hrow _]; now rewrite <- Hrow).
  destruct (nema_uniform (contents h array) i n1 n2 v Hu) as (H16 & H9 & H12).
  split; [|split].
  - intros m n Hm1 Hm2 Hn1 Hn2. rewrite Hsample by lia.
    now rewrite H16 by assumption.
  - intros H1 H2. rewrite Hsample by lia. now rewrite H9 by assumption.
  - intros n H1 Hn1 Hn2. rewrite Hsample by lia.
    now rewrite H12 by assumption.
Qed.

Lemma apply_convolution_unnormalised_witness :
  exists h' new_array,
    apply_convolution ones_store ones_array nema_kernel = Ok (h', new_array)
    /\ shape new_array = shape ones_array
    /\ (forall i m n, (i < 1)%nat -> (m < 3)%nat -> (n < 3)%nat ->
          sample_at (contents h' new_array) i m n
          = Some (int64_of
                    (weighted_sum
                       (default [] (contents ones_store ones_array !! i))
                       nema_kernel 3 3 m n)))
    /\ (forall i v,
          nema_kernel = nema_kernel ->
          (i < 1)%nat ->
          (forall r c, (r < 3)%nat -> (c < 3)%nat ->
             sample_at (contents ones_store ones_array) i r c = Some v) ->
          (forall m n, (1 <= m)%nat -> (m + 1 < 3)%nat ->
             (1 <= n)%nat -> (n + 1 < 3)%nat ->
             sample_at (contents h' new_array) i m n
             = Some (int64_of (16 * v)))
          /\ ((2 <= 3)%nat -> (2 <= 3)%nat ->
              sample_at (contents h' new_array) i 0 0
              = Some (int64_of (9 * v)))
          /\ (forall n, (2 <= 3)%nat -> (1 <= n)%nat -> (n + 1 < 3)%nat ->
              sample_at (contents h' new_array) i 0 n
              = Some (int64_of (12 * v)))).
Proof.
  apply (apply_convolution_unnormalised ones_store ones_array nema_kernel
           3 3 1 3 3).
  - reflexivity.
  - lia.
  - repeat constructor.
  - lia.
  - repeat constructor; lia.
  - reflexivity.
  - exists [[[1; 1; 1]; [1; 1; 1]; [1; 1; 1]]]. reflexivity.
  - intros [|i] r c v H; [|destruct r, c; discriminate H].
    destruct r as [|[|[|r]]], c as [|[|[|c]]]; vm_compute in H;
      try discriminate H; injection H as <-; lia.
Defined.

(** C4 as the specification words it does not hold: the NEMA kernel on a
    uniform plane of ones gives 16 at the centre, not 1. *)
Lemma uniform_plane_is_scaled :
  match apply_convolution ones_store ones_array nema_kernel with
  | Ok (h', new_array) =>
      contents h' new_array = [[[9; 12; 9]; [12; 16; 12]; [9; 12; 9]]]
  | Raise _ => False
  end.
Proof. vm_compute. reflexivity. Qed.

(** A weight that is no number to numpy: 2^64 makes the kernel an array of
    objects, and the first call of [convolve2d] refuses it. *)
Lemma object_kernel_refused :
  apply_convolution ones_store ones_array [[2 ^ 64]] = Raise ValueError.
Proof. vm_compute. reflexivity. Qed.

(** ** The transforms and the store *)

(** A write through an array object changes the one sample it addresses, if
    the buffer has it. *)
Lemma sample_at_alter (vol : list (list (list Z))) (i j k : nat) (v : Z)
  (I J K : nat) :
  sample_at (alter (alter (<[k := v]>) j) i vol) I J K
  = if decide (i = I /\ j = J /\ k = K)
    then (fun _ => v) <$> sample_at vol I J K
    else sample_at vol I J K.
Proof.
  unfold sample_at. rewrite list_lookup_alter.
  destruct (decide (i = I)) as [->|Hi].
  - destruct (vol !! I) as [plane|]; cbn [fmap option_fmap option_map].
    + rewrite list_lookup_alter.
      destruct (decide (j = J)) as [->|Hj].
      * destruct (plane !! J) as [row|]; cbn [fmap option_fmap option_map].
        -- rewrite list_insert_alter, list_lookup_alter.
           destruct (decide (k = K)) as [->|Hk].
           ++ rewrite decide_True by auto. reflexivity.
           ++ rewrite decide_False by (intros (_ & _ & ?); auto). reflexivity.
        -- destruct (decide _); reflexivity.
      * rewrite decide_False by (intros (_ & ? & _); auto). reflexivity.
    + destruct (decide _); reflexivity.
  - rewrite decide_False by (intros (? & _ & _); auto). reflexivity.
Qed.

Lemma sample_at_set_item h a ax0 ax1 ax2 i j k v I J K :
  axes a = [ax0; ax1; ax2] ->
  is_Some (h !! buffer a) ->
  sample_at (set_item h a i j k v !!! buffer a) I J K
  = if decide ((fst ax0 + i)%nat = I /\ (fst ax1 + j)%nat = J
               /\ (fst ax2 + k)%nat = K)
    then (fun _ => v) <$> sample_at (h !!! buffer a) I J K
    else sample_at (h !!! buffer a) I J K.
Proof.
  intros Hax [vol Hvol]. unfold set_item. rewrite Hax.
  rewrite lookup_total_alter_eq, Hvol. cbn [fmap option_fmap option_map default].
  rewrite (lookup_total_correct h (buffer a) vol Hvol).
  now rewrite <- sample_at_alter.
Qed.

Lemma set_item_other h a i j k v l :
  l <> buffer a -> set_item h a i j k v !! l = h !! l.
Proof.
  intros H. unfold set_item.
  destruct (axes a) as [|? [|? [|? [|? ?]]]]; try reflexivity.
  now apply lookup_alter_ne.
Qed.

Lemma set_item_is_Some h a i j k v l :
  is_Some (set_item h a i j k v !! l) <-> is_Some (h !! l).
Proof.
  unfold set_item.
  destruct (axes a) as [|? [|? [|? [|? ?]]]]; try reflexivity.
  rewrite lookup_alter. destruct (decide (buffer a = l)) as [->|]; [|reflexivity].
  apply fmap_is_Some.
Qed.

Lemma elem_of_cells n0 n1 n2 i j k :
  In (i, j, k) (cells n0 n1 n2) <-> (i < n0 /\ j < n1 /\ k < n2)%nat.
Proof.
  unfold cells. rewrite in_flat_map. split.
  - intros (layer & Hl & H). apply in_flat_map in H as (row & Hr & H).
    apply in_map_iff in H as (column & E & Hc). injection E as <- <- <-.
    apply in_seq in Hl, Hr, Hc. lia.
  - intros (Hi & Hj & Hk). exists i. split; [apply in_seq; lia|].
    apply in_flat_map. exists j. split; [apply in_seq; lia|].
    apply in_map_iff. exists k. split; [reflexivity | apply in_seq; lia].
Qed.

(** The three loops as one pass over the cells. *)
Lemma remove_image_edges_cells h array n0 n1 n2 :
  shape array = [n0; n1; n2] ->
  remove_image_edges h array
  = Ok (foldl (fun h c =>
                 let '(layer, row, column) := c in
                 if outside_circle (Z.of_nat n0 / 2) row column
                 then set_item h array layer row column 10000
                 else h) h (cells n0 n1 n2),
        array).
Proof.
  intros Hs. unfold remove_image_edges, cells. rewrite Hs. do 2 f_equal.
  rewrite foldl_flat_map. apply foldl_pointwise. intros h1 layer.
  rewrite foldl_flat_map. apply foldl_pointwise. intros h2 row.
  now rewrite foldl_map.
Qed.

(** The pass over the cells: a sample that some round writes holds the
    sentinel, every other sample and every other buffer is as it was. *)
Lemma edges_pass radius a ax0 ax1 ax2 (cs : list (nat * nat * nat)) :
  axes a = [ax0; ax1; ax2] ->
  forall h, is_Some (h !! buffer a) ->
  let h' := foldl (fun h c =>
                     let '(layer, row, column) := c in
                     if outside_circle radius row column
                     then set_item h a layer row column 10000
                     else h) h cs in
  is_Some (h' !! buffer a)
  /\ (forall l, l <> buffer a -> h' !! l = h !! l)
  /\ forall I J K,
       sample_at (h' !!! buffer a) I J K
       = if existsb (writes radius ax0 ax1 ax2 I J K) cs
         then (fun _ => 10000) <$> sample_at (h !!! buffer a) I J K
         else sample_at (h !!! buffer a) I J K.
Proof.
  intros Hax. induction cs as [|[[layer row] column] cs IH]; intros h Hb.
  - simpl. auto.
  - cbn [foldl existsb].
    set (h1 := if outside_circle radius row column
               then set_item h a layer row column 10000 else h).
    assert (Hb1 : is_Some (h1 !! buffer a)).
    { unfold h1. destruct (outside_circle radius row column); [|exact Hb].
      now apply set_item_is_Some. }
    destruct (IH h1 Hb1) as (Hs & Ho & Hw). split; [exact Hs|]. split.
    + intros l Hl. rewrite Ho by exact Hl. unfold h1.
      destruct (outside_circle radius row column); [|reflexivity].
      now apply set_item_other.
    + intros I J K. rewrite Hw. unfold h1, writes.
      destruct (outside_circle radius row column); cbn [andb orb];
        [|reflexivity].
      rewrite (sample_at_set_item h a ax0 ax1 ax2) by assumption.
      destruct (decide _) as [Hd|Hd].
      * rewrite bool_decide_eq_true_2 by exact Hd. cbn [orb].
        destruct (existsb _ cs); [|reflexivity].
        now destruct (sample_at (h !!! buffer a) I J K).
      * rewrite bool_decide_eq_false_2 by exact Hd. reflexivity.
Qed.

Lemma writes_own_cell radius ax0 ax1 ax2 n0 n1 n2 i j k :
  (i < n0)%nat -> (j < n1)%nat -> (k < n2)%nat ->
  existsb (writes radius ax0 ax1 ax2 (fst ax0 + i) (fst ax1 + j) (fst ax2 + k))
    (cells n0 n1 n2)
  = outside_circle radius j k.
Proof.
  intros Hi Hj Hk. apply eq_true_iff_eq. rewrite existsb_exists. split.
  - intros ([[layer row] column] & _ & Hw). unfold writes in Hw.
    apply andb_true_iff in Hw as [Ho Hd].
    apply bool_decide_eq_true in Hd as (E0 & E1 & E2).
    assert (row = j) as <- by lia. assert (column = k) as <- by lia.
    exact Ho.
  - intros Ho. exists (i, j, k). split; [now apply elem_of_cells|].
    unfold writes. rewrite Ho. cbn [andb].
    now apply bool_decide_eq_true.
Qed.

(** C8, as the code has it.  [crop] returns a view of the buffer of its input
    and writes nothing; [apply_convolution] returns an array on a buffer that
    did not exist and leaves every existing buffer as it was; and
    [remove_image_edges] returns its input, having written the sentinel into
    the samples of that array that lie outside the circle and nowhere else. *)
Theorem transforms_and_their_input (h : gmap nat volume) (array : ndarray) :
  is_Some (h !! buffer array) ->
  (forall crop_size h' view,
     crop h array crop_size = Ok (h', view) ->
     h' = h /\ buffer view = buffer array)
  /\
  (forall kernel h' new_array,
     apply_convolution h array kernel = Ok (h', new_array) ->
     (buffer new_array ∉ dom h)
     /\ (forall l, l ∈ dom h -> h' !! l = h !! l)
     /\ contents h' array = contents h array)
  /\
  (forall n0 n1 n2 h' out,
     shape array = [n0; n1; n2] ->
     remove_image_edges h array = Ok (h', out) ->
     out = array
     /\ (forall l, l <> buffer array -> h' !! l = h !! l)
     /\ forall i j k, (i < n0)%nat -> (j < n1)%nat -> (k < n2)%nat ->
          sample_at (contents h' array) i j k
          = if outside_circle (Z.of_nat n0 / 2) j k
            then (fun _ => 10000) <$> sample_at (contents h array) i j k
            else sample_at (contents h array) i j k).
Proof.
  intros Hb. split; [|split].
  - intros crop_size h' view. unfold crop.
    destruct (axes array) as [|? [|? [|? [|? ?]]]]; try discriminate.
    intros H. injection H as <- <-. auto.
  - intros kernel h' new_array. unfold apply_convolution.
    destruct (shape array) as [|n0 [|n1 [|n2 [|? ?]]]]; try discriminate.
    unfold zeros_like.
    set (l := fresh (dom h)).
    assert (Hl : l <> buffer array).
    { intros E. apply (is_fresh (dom h)). fold l. rewrite E.
      now apply elem_of_dom. }
    set (new := {| buffer := l; axes := _ |}).
    set (loop := foldl _ _ _).
    assert (Hloop : match loop with
                    | Ok hi => forall l', l' <> l -> hi !! l' = h !! l'
                    | Raise _ => True
                    end).
    { unfold loop. apply foldl_invariant.
      - intros l' Hl'. now apply lookup_insert_ne.
      - intros [hi|e] i Hi; cbn [bind]; [|exact I].
        destruct (convolve2d n1 n2 (plane_of hi array i) kernel) as [out|e];
          cbn [bind]; [|exact I].
        intros l' Hl'. unfold set_plane. cbn [buffer new].
        rewrite lookup_alter_ne by congruence. now apply Hi. }
    destruct loop as [hi|e]; cbn [bind]; [|discriminate].
    intros H. injection H as <- <-. cbn [buffer new]. split; [|split].
    + apply is_fresh.
    + intros l' Hl'. apply Hloop. intros ->. now apply (is_fresh (dom h)).
    + unfold contents. f_equal.
      unfold lookup_total, map_lookup_total.
      now rewrite Hloop by congruence.
  - intros n0 n1 n2 h' out Hs.
    rewrite (remove_image_edges_cells h array n0 n1 n2 Hs).
    intros H. injection H as <- <-.
    assert (Hax : exists ax0 ax1 ax2,
              axes array = [ax0; ax1; ax2]
              /\ snd ax0 = n0 /\ snd ax1 = n1 /\ snd ax2 = n2).
    { unfold shape in Hs.
      destruct (axes array) as [|ax0 [|ax1 [|ax2 [|? ?]]]]; try discriminate.
      injection Hs as <- <- <-. eauto 7. }
    destruct Hax as (ax0 & ax1 & ax2 & Hax & E0 & E1 & E2).
    destruct (edges_pass (Z.of_nat n0 / 2) array ax0 ax1 ax2
                (cells n0 n1 n2) Hax h Hb) as (_ & Ho & Hw).
    split; [reflexivity|]. split; [exact Ho|].
    intros i j k Hi Hj Hk.
    rewrite !(sample_at_contents _ array ax0 ax1 ax2) by (try exact Hax; lia).
    rewrite Hw.
    now rewrite (writes_own_cell _ ax0 ax1 ax2 n0 n1 n2) by assumption.
Qed.

Lemma transforms_and_their_input_witness :
  (forall crop_size h' view,
     crop store4 cube4 crop_size = Ok (h', view) ->
     h' = store4 /\ buffer view = buffer cube4)
  /\
  (forall kernel h' new_array,
     apply_convolution store4 cube4 kernel = Ok (h', new_array) ->
     (buffer new_array ∉ dom store4)
     /\ (forall l, l ∈ dom store4 -> h' !! l = store4 !! l)
     /\ contents h' cube4 = contents store4 cube4)
  /\
  (forall n0 n1 n2 h' out,
     shape cube4 = [n0; n1; n2] ->
     remove_image_edges store4 cube4 = Ok (h', out) ->
     out = cube4
     /\ (forall l, l <> buffer cube4 -> h' !! l = store4 !! l)
     /\ forall i j k, (i < n0)%nat -> (j < n1)%nat -> (k < n2)%nat ->
          sample_at (contents h' cube4) i j k
          = if outside_circle (Z.of_nat n0 / 2) j k
            then (fun _ => 10000) <$> sample_at (contents store4 cube4) i j k
            else sample_at (contents store4 cube4) i j k).
Proof.
  apply (transforms_and_their_input store4 cube4).
  exists [ramp; ramp; ramp; ramp]. reflexivity.
Defined.

(** C8 as the specification words it does not hold: [remove_image_edges]
    hands back the array it was given, and the volume in the store is no
    longer what it was. *)
Lemma remove_image_edges_overwrites :
  match remove_image_edges store4 cube4 with
  | Ok (h', out) =>
      out = cube4
      /\ contents store4 cube4 !! 0%nat = Some ramp
      /\ contents h' cube4 !! 0%nat
         = Some [[10000; 10000; 3; 10000]; [10000; 6; 7; 8];
                 [9; 10; 11; 12]; [10000; 14; 15; 16]]
  | Raise _ => False
  end.
Proof. vm_compute. repeat split. Qed.

End DicomFacts.

(** * Facts about the uniformity engine *)

Module UniformityFacts.
Import Py Uniformity FloatKeys FloatFacts UniformitySpec ListFacts.
Local Open Scope float_scope.

(** ** Brightness is a number *)

Lemma float_of_Z_nonneg z : sf_nonneg (Prim2SF (float_of_Z z)) = true.
Proof. apply of_uint63_nonneg. Qed.

Lemma scaled_nonneg (c : float) z :
  (exists m e, Prim2SF c = S754_finite false m e) ->
  sf_nonneg (Prim2SF (c * float_of_Z z)) = true.
Proof.
  intros Hc. rewrite FloatAxioms.mul_spec.
  apply SFmul_nonneg; [|apply float_of_Z_nonneg|exact Hc].
  destruct Hc as (m & e & ->). reflexivity.
Qed.

Lemma luminance_nonneg p : sf_nonneg (Prim2SF (luminance p)) = true.
Proof.
  unfold luminance. rewrite !FloatAxioms.add_spec.
  repeat apply SFadd_nonneg; apply scaled_nonneg;
    eexists _, _; vm_compute; reflexivity.
Qed.

Lemma luminance_not_nan p : is_nan (luminance p) = false.
Proof. apply nonneg_not_nan, luminance_nonneg. Qed.

(** ** Windows *)

(** In an image whose rows all have [w] pixels, a horizontal window inside the
    image is the five pixels from column [x] on. *)
Lemma h_window_pixels data w y x :
  Forall (fun row : list rgba => length row = w) data ->
  (y < length data)%nat -> (x + 5 <= w)%nat ->
  length (h_window data y x) = 5%nat
  /\ forall k, (k < 5)%nat ->
       h_window data y x !! k = pixel_at data y (x + k).
Proof.
  intros Hrect Hy Hx. unfold h_window, pixel_at.
  destruct (lookup_lt_is_Some_2 data y Hy) as [row Hrow]. rewrite Hrow.
  cbn [default from_option id].
  assert (Hlen : length row = w).
  { rewrite Forall_forall in Hrect. apply Hrect.
    apply list_elem_of_lookup. eauto. }
  split.
  - rewrite length_slice by lia. lia.
  - intros k Hk. apply lookup_slice. lia.
Qed.

(** And a vertical window inside the image is the five pixels from row [y]
    down. *)
Lemma v_window_pixels data w y x :
  Forall (fun row : list rgba => length row = w) data ->
  (x < w)%nat -> (y + 5 <= length data)%nat ->
  length (v_window data y x) = 5%nat
  /\ forall k, (k < 5)%nat ->
       v_window data y x !! k = pixel_at data (y + k) x.
Proof.
  intros Hrect Hx Hy. unfold v_window, pixel_at.
  assert (Hall : forall row : list rgba,
            In row (slice y (y + 5) data) -> is_Some (row !! x)).
  { intros row Hin. apply lookup_lt_is_Some_2.
    rewrite Forall_forall in Hrect. rewrite (Hrect row); [exact Hx|].
    unfold slice in Hin. apply list_elem_of_In in Hin.
    apply elem_of_take in Hin as (i & Hi & _). rewrite lookup_drop in Hi.
    apply list_elem_of_lookup. eauto. }
  split.
  - rewrite length_omap_all by exact Hall. rewrite length_slice by lia. lia.
  - intros k Hk. rewrite omap_lookup_all by exact Hall.
    rewrite lookup_slice by lia.
    destruct (data !! (y + k)%nat); reflexivity.
Qed.

(** ** The scan *)

Lemma grayscale_rows data : grayscale data = map (map gray) data.
Proof. reflexivity. Qed.

(** What survives the [nan] filter is the brightness of the pixels that are
    not excluded. *)
Lemma valid_gray pixels : valid (map gray pixels) = brightness pixels.
Proof.
  unfold valid, brightness.
  induction pixels as [|p pixels IH]; [reflexivity|].
  cbn [map List.filter].
  replace (gray p) with (if visible p then luminance p else nan)
    by reflexivity.
  destruct (visible p).
  - rewrite luminance_not_nan. cbn [negb map]. now rewrite IH.
  - change (is_nan nan) with true. cbn [negb]. exact IH.
Qed.

(** ** The extrema *)

(** [np.nanmax] of numbers is one of them, and none of them is above it. *)
Lemma nanmax_is_maximum l : forall x,
  (forall v, In v (x :: l) -> is_nan v = false) ->
  In (nanmax x l) (x :: l)
  /\ forall v, In v (x :: l) -> (nanmax x l <? v) = false.
Proof.
  unfold nanmax. induction l as [|y l IH]; intros x Hnum.
  - cbn [foldl]. split; [now left|].
    intros v [<-|[]]. apply ltb_irrefl.
  - cbn [foldl].
    assert (Hnum' : forall v, In v (fmax x y :: l) -> is_nan v = false).
    { intros v [<-|Hv].
      - unfold fmax. destruct (x <? y); apply Hnum; cbn; auto.
      - apply Hnum. cbn. auto. }
    destruct (IH (fmax x y) Hnum') as (Hin & Hmax).
    set (m := foldl fmax (fmax x y) l) in *. split.
    + destruct Hin as [E|Hin]; [|cbn; auto].
      rewrite <- E. unfold fmax. destruct (x <? y); cbn; auto.
    + pose proof (Hmax (fmax x y) (or_introl eq_refl)) as Hm.
      unfold fmax in Hm. intros v [<-|[<-|Hv]].
      * destruct (x <? y) eqn:E; [|exact Hm].
        destruct (m <? x) eqn:E'; [|reflexivity].
        rewrite <- Hm. symmetry. eapply ltb_trans; eassumption.
      * destruct (x <? y) eqn:E; [exact Hm|].
        eapply ltb_false_trans; [|exact Hm|exact E]. apply Hnum. now left.
      * apply Hmax. now right.
Qed.

(** [np.nanmin] of numbers is one of them, and none of them is below it. *)
Lemma nanmin_is_minimum l : forall x,
  (forall v, In v (x :: l) -> is_nan v = false) ->
  In (nanmin x l) (x :: l)
  /\ forall v, In v (x :: l) -> (v <? nanmin x l) = false.
Proof.
  unfold nanmin. induction l as [|y l IH]; intros x Hnum.
  - cbn [foldl]. split; [now left|].
    intros v [<-|[]]. apply ltb_irrefl.
  - cbn [foldl].
    assert (Hnum' : forall v, In v (fmin x y :: l) -> is_nan v = false).
    { intros v [<-|Hv].
      - unfold fmin. destruct (y <? x); apply Hnum; cbn; auto.
      - apply Hnum. cbn. auto. }
    destruct (IH (fmin x y) Hnum') as (Hin & Hmin).
    set (m := foldl fmin (fmin x y) l) in *. split.
    + destruct Hin as [E|Hin]; [|cbn; auto].
      rewrite <- E. unfold fmin. destruct (y <? x); cbn; auto.
    + pose proof (Hmin (fmin x y) (or_introl eq_refl)) as Hm.
      unfold fmin in Hm. intros v [<-|[<-|Hv]].
      * destruct (y <? x) eqn:E; [|exact Hm].
        destruct (x <? m) eqn:E'; [|reflexivity].
        rewrite <- Hm. symmetry. eapply ltb_trans; eassumption.
      * destruct (y <? x) eqn:E; [exact Hm|].
        eapply ltb_false_trans; [|exact E|exact Hm]. apply Hnum. now left.
      * apply Hmin. now right.
Qed.

Lemma brightness_nonneg pixels v :
  In v (brightness pixels) -> sf_nonneg (Prim2SF v) = true.
Proof.
  unfold brightness. intros H. apply in_map_iff in H as (p & <- & _).
  apply luminance_nonneg.
Qed.

(** On the brightness of a window the ratio that the scan computes is the
    ratio that the specification writes. *)
Lemma window_ratio_code pixels :
  window_ratio pixels = extrema_ratio_of (brightness pixels).
Proof.
  unfold window_ratio, extrema_ratio_of.
  destruct (brightness pixels) as [|x [|y l]] eqn:E; try reflexivity.
  assert (Hnum : forall v, In v (x :: y :: l) -> is_nan v = false).
  { intros v Hv. apply nonneg_not_nan, (brightness_nonneg pixels).
    now rewrite E. }
  destruct (nanmax_is_maximum (y :: l) x Hnum) as (Hmax & _).
  destruct (nanmin_is_minimum (y :: l) x Hnum) as (Hmin & _).
  rewrite <- E in Hmax, Hmin.
  apply brightness_nonneg in Hmax, Hmin.
  destruct (_ =? 0); [reflexivity|]. f_equal. unfold extrema_ratio.
  symmetry. apply abs_div_mul; [|reflexivity].
  rewrite FloatAxioms.div_spec. apply SFdiv_nonneg.
  - rewrite FloatAxioms.add_spec. now apply SFadd_nonneg.
  - eexists _, _. vm_compute. reflexivity.
Qed.

Lemma forallb_is_nan_valid s : forallb is_nan s = true -> valid s = [].
Proof.
  unfold valid. induction s as [|x s IH]; [reflexivity|].
  cbn [forallb List.filter]. intros H. apply andb_true_iff in H as [Hx Hs].
  rewrite Hx. cbn [negb]. now apply IH.
Qed.

(** One round of the loop either keeps the running maximum or, on a slice that
    has a ratio, takes the larger of the two. *)
Lemma uniformity_step_ratio acc s :
  uniformity_step acc s
  = match extrema_ratio_of (valid s) with
    | Some q => py_max acc (Float64 q)
    | None => acc
    end.
Proof.
  unfold uniformity_step.
  destruct (forallb is_nan s) eqn:E.
  - now rewrite (forallb_is_nan_valid s E).
  - destruct (valid s) as [|x [|y l]]; try reflexivity.
    unfold extrema_ratio_of.
    destruct (nanmax x (y :: l) + nanmin x (y :: l) =? 0); reflexivity.
Qed.

Lemma calculate_uniformity_maximum slices :
  running_maximum slices (_calculate_uniformity slices).
Proof.
  unfold _calculate_uniformity.
  induction slices as [|s slices IH] using rev_ind.
  - split; [reflexivity|]. split; [intros s q []|now left].
  - rewrite foldl_snoc, uniformity_step_ratio.
    destruct IH as (Hnan & Hbound & Hatt).
    set (r0 := foldl uniformity_step (PyInt 0) slices) in *.
    assert (Hold : forall r,
              is_nan (float_of_number r) = false ->
              (forall s' q', In s' slices ->
                 extrema_ratio_of (valid s') = Some q' ->
                 (float_of_number r <? q') = false) ->
              (forall q, extrema_ratio_of (valid s) = Some q ->
                 (float_of_number r <? q) = false) ->
              (r = r0 \/ exists q, extrema_ratio_of (valid s) = Some q
                                   /\ r = Float64 q) ->
              running_maximum (slices ++ [s]) r).
    { intros r H1 H2 H3 H4. split; [exact H1|]. split.
      - intros s' q' Hin. apply in_app_iff in Hin as [Hin|[<-|[]]]; eauto.
      - destruct H4 as [->|(q & Hq & ->)].
        + destruct Hatt as [->|(s' & q' & Hin & Hq' & ->)]; [now left|].
          right. exists s', q'. rewrite in_app_iff. auto.
        + right. exists s, q. rewrite in_app_iff. cbn. auto. }
    destruct (extrema_ratio_of (valid s)) as [q|] eqn:Eq.
    + unfold py_max. cbn [float_of_number].
      destruct (float_of_number r0 <? q) eqn:Elt.
      * apply Hold.
        -- cbn. eapply ltb_not_nan_r, Elt.
        -- intros s' q' Hin Hq'. cbn.
           destruct (q <? q') eqn:E'; [|reflexivity].
           rewrite <- (Hbound s' q' Hin Hq'). symmetry.
           eapply ltb_trans; eassumption.
        -- intros q' Hq'. injection Hq' as <-. cbn. apply ltb_irrefl.
        -- right. eauto.
      * apply Hold; auto.
        intros q' Hq'. injection Hq' as <-. exact Elt.
    + apply Hold; auto. intros q' Hq'. discriminate.
Qed.

(** The larger of two running maxima is the running maximum of the slices of
    both. *)
Lemma py_max_maximum l1 l2 a b :
  running_maximum l1 a -> running_maximum l2 b ->
  running_maximum (l1 ++ l2) (py_max a b).
Proof.
  intros (Ha & Hba & Haa) (Hb & Hbb & Hab). unfold py_max.
  destruct (float_of_number a <? float_of_number b) eqn:E.
  - split; [exact Hb|]. split.
    + intros s q Hin Hq. apply in_app_iff in Hin as [Hin|Hin]; [|eauto].
      destruct (float_of_number b <? q) eqn:E'; [|reflexivity].
      rewrite <- (Hba s q Hin Hq). symmetry. eapply ltb_trans; eassumption.
    + destruct Hab as [->|(s & q & Hin & Hq & ->)]; [now left|].
      right. exists s, q. rewrite in_app_iff. auto.
  - split; [exact Ha|]. split.
    + intros s q Hin Hq. apply in_app_iff in Hin as [Hin|Hin]; [eauto|].
      eapply ltb_false_trans; [exact Hb | exact E | eauto].
    + destruct Haa as [->|(s & q & Hin & Hq & ->)]; [now left|].
      right. exists s, q. rewrite in_app_iff. auto.
Qed.

(** ** The slices that [differential] scans are the windows *)

Lemma width_grayscale data : width (grayscale data) = width data.
Proof. destruct data as [|row data]; [reflexivity|]. apply length_map. Qed.

Lemma grayscale_row data y :
  default [] (grayscale data !! y) = map gray (default [] (data !! y)).
Proof.
  rewrite grayscale_rows.
  change (map (map gray) data !! y) with ((map gray <$> data) !! y).
  rewrite list_lookup_fmap. now destruct (data !! y).
Qed.

Lemma in_horizontal_slices data s :
  In s (horizontal_slices (grayscale data)) <->
  exists y x, (y < length data)%nat /\ (x + 5 <= width data)%nat
              /\ s = map gray (h_window data y x).
Proof.
  unfold horizontal_slices. rewrite in_flat_map.
  rewrite width_grayscale.
  replace (length (grayscale data)) with (length data)
    by (symmetry; apply length_map).
  split.
  - intros (y & Hy & Hs). apply in_map_iff in Hs as (x & <- & Hx).
    apply in_seq in Hy, Hx. exists y, x.
    split; [lia|]. split; [lia|].
    rewrite grayscale_row. apply slice_map.
  - intros (y & x & Hy & Hx & ->). exists y. split; [apply in_seq; lia|].
    apply in_map_iff. exists x. split; [|apply in_seq; lia].
    rewrite grayscale_row. apply slice_map.
Qed.

Lemma column_of_rows x (rows : list (list rgba)) :
  flat_map (fun row : list float => slice x (x + 1) row)
    (map (map gray) rows)
  = map gray (omap (fun row : list rgba => row !! x) rows).
Proof.
  induction rows as [|row rows IH]; [reflexivity|].
  cbn [map flat_map omap list_omap]. rewrite IH, slice_one.
  change (map gray row !! x) with ((gray <$> row) !! x).
  rewrite list_lookup_fmap. now destruct (row !! x).
Qed.

Lemma in_vertical_slices data s :
  In s (vertical_slices (grayscale data)) <->
  exists y x, (x < width data)%nat /\ (y + 5 <= length data)%nat
              /\ s = map gray (v_window data y x).
Proof.
  unfold vertical_slices. rewrite in_flat_map.
  rewrite width_grayscale.
  replace (length (grayscale data)) with (length data)
    by (symmetry; apply length_map).
  assert (E : forall y x,
            flat_map (fun row : list float => slice x (x + 1) row)
              (slice y (y + 5) (grayscale data))
            = map gray (v_window data y x)).
  { intros y x. rewrite grayscale_rows, slice_map. apply column_of_rows. }
  split.
  - intros (x & Hx & Hs). apply in_map_iff in Hs as (y & <- & Hy).
    apply in_seq in Hy, Hx. exists y, x.
    split; [lia|]. split; [lia|]. apply E.
  - intros (y & x & Hx & Hy & ->). exists x. split; [apply in_seq; lia|].
    apply in_map_iff. exists y. split; [apply E | apply in_seq; lia].
Qed.

(** *** The figure as the specification words it

    [ratio_of_window] takes nothing from the methods: a channel as a float,
    the brightness of a pixel, exclusion by a zero alpha, a run of five
    positions along a row or a column, and the extrema by what makes them
    extrema.  The lemmas that follow tie the scan of the methods to it. *)

Lemma row_run_window data y x : row_run data y x = h_window data y x.
Proof.
  unfold row_run, h_window, slice, pixel_at.
  replace (x + 5 - x)%nat with 5%nat by lia.
  destruct (data !! y) as [row|]; cbn [default from_option id];
    [|now destruct x].
  cbn [seq omap list_omap]. rewrite <- !lookup_drop.
  destruct (drop x row) as [|a [|b [|c [|d [|e t]]]]]; reflexivity.
Qed.

Lemma column_run_window data y x : column_run data y x = v_window data y x.
Proof.
  unfold column_run, v_window, slice, pixel_at.
  replace (y + 5 - y)%nat with 5%nat by lia.
  cbn [seq omap list_omap]. rewrite <- !lookup_drop.
  destruct (drop y data) as [|a [|b [|c [|d [|e t]]]]]; cbn;
    repeat match goal with
           | |- context [match ?r !! x with _ => _ end] => destruct (r !! x)
           end; reflexivity.
Qed.

Lemma visible_not_excluded p : visible p = negb (excluded p).
Proof. unfold visible, excluded. now destruct (alpha p). Qed.

Lemma brightness_of_window pixels :
  brightness pixels
  = map pixel_brightness (List.filter (fun p => negb (excluded p)) pixels).
Proof.
  unfold brightness. f_equal.
  apply filter_ext. intros p. apply visible_not_excluded.
Qed.

Lemma key_trichotomy (a b : Z * Z * Z) :
  ~ key_lt a b -> ~ key_lt b a -> a = b.
Proof.
  destruct a as [[a1 a2] a3], b as [[b1 b2] b3]. unfold key_lt.
  intros H1 H2.
  assert ((a1 = b1 /\ a2 = b2 /\ a3 = b3)%Z) as (-> & -> & ->) by lia.
  reflexivity.
Qed.

Lemma nonneg_key_inj f g :
  sf_nonneg f = true -> sf_nonneg g = true -> sf_key f = sf_key g -> f = g.
Proof.
  destruct f as [s| s| |s m e], g as [s'| s'| |s' m' e']; cbn [sf_nonneg sf_key];
    try discriminate;
    intros Hs Hs'; apply negb_true_iff in Hs, Hs'; subst s s';
    intros E; try discriminate E; try reflexivity.
  injection E as -> ->. reflexivity.
Qed.

(** Two numbers without a sign bit, neither below the other, are one. *)
Lemma nonneg_equal (a b : float) :
  sf_nonneg (Prim2SF a) = true -> sf_nonneg (Prim2SF b) = true ->
  (a <? b) = false -> (b <? a) = false -> a = b.
Proof.
  intros Ha Hb Hab Hba.
  destruct (proj1 (is_nan_key a) (nonneg_not_nan a Ha)) as [ka Hka].
  destruct (proj1 (is_nan_key b) (nonneg_not_nan b Hb)) as [kb Hkb].
  assert (ka = kb) as E.
  { apply key_trichotomy.
    - intros Hlt. assert ((a <? b) = true) by (apply ltb_key; eauto).
      congruence.
    - intros Hlt. assert ((b <? a) = true) by (apply ltb_key; eauto).
      congruence. }
  apply Prim2SF_inj, nonneg_key_inj; congruence.
Qed.

(** The ratio that the scan computes on a window is the ratio of the
    specification, and the only one. *)
Lemma window_ratio_spec pixels q :
  window_ratio pixels = Some q <-> ratio_of_window pixels q.
Proof.
  unfold ratio_of_window, window_ratio.
  rewrite <- brightness_of_window.
  destruct (brightness pixels) as [|x [|y l]] eqn:E.
  - split; [discriminate|]. cbn. intros [H _]. lia.
  - split; [discriminate|]. cbn. intros [H _]. lia.
  - assert (Hnn : forall v, In v (x :: y :: l) ->
              sf_nonneg (Prim2SF v) = true).
    { intros v Hv. apply (brightness_nonneg pixels). now rewrite E. }
    assert (Hnum : forall v, In v (x :: y :: l) -> is_nan v = false)
      by (intros v Hv; apply nonneg_not_nan; auto).
    destruct (nanmax_is_maximum (y :: l) x Hnum) as (Hmax_in & Hmax).
    destruct (nanmin_is_minimum (y :: l) x Hnum) as (Hmin_in & Hmin).
    split.
    + intros H. split; [cbn; lia|].
      exists (nanmax x (y :: l)), (nanmin x (y :: l)).
      split; [now split|]. split; [now split|].
      destruct (nanmax x (y :: l) + nanmin x (y :: l) =? 0);
        [discriminate|].
      split; [reflexivity|]. now injection H as <-.
    + intros (_ & M & m & [HM_in HM] & [Hm_in Hm] & Hsum & ->).
      assert (M = nanmax x (y :: l)) as ->.
      { apply nonneg_equal; auto. }
      assert (m = nanmin x (y :: l)) as ->.
      { apply nonneg_equal; auto. }
      now rewrite Hsum.
Qed.

(** C2.  On a layer that has its masked image, a rectangle of pixels,
    [differential] returns the maximum of the extrema ratios
    [|max - min| / ((max + min) / 2) * 100] of the horizontal and vertical
    runs of five pixels with at least two pixels that are not excluded: no
    such window has a ratio above the result, and the result is the ratio of
    such a window, or the 0 that the scan starts from, which is also what is
    returned when no window has a ratio.  A window whose extrema sum to zero
    has no ratio. *)
Theorem differential_is_window_maximum (self : UniformityLayer)
  (data : list (list rgba)) (w : nat) (horizontal_first : bool) :
  cropped_data self = Some data ->
  Forall (fun row => length row = w) data ->
  exists r,
    differential horizontal_first self = ([], r)
    /\ (forall y x q,
          (y < length data)%nat -> (x + 5 <= w)%nat ->
          ratio_of_window (row_run data y x) q ->
          (as_float r <? q) = false)
    /\ (forall y x q,
          (x < w)%nat -> (y + 5 <= length data)%nat ->
          ratio_of_window (column_run data y x) q ->
          (as_float r <? q) = false)
    /\ (r = PyInt 0
        \/ exists y x q,
             r = Float64 q
             /\ (((y < length data)%nat /\ (x + 5 <= w)%nat
                  /\ ratio_of_window (row_run data y x) q)
                 \/ ((x < w)%nat /\ (y + 5 <= length data)%nat
                     /\ ratio_of_window (column_run data y x) q))).
Proof.
  intros Hdata Hrect. unfold differential. rewrite Hdata.
  assert (Hw : (0 < length data)%nat -> width data = w).
  { destruct Hrect as [|row rows Hrow _]; cbn; [lia|auto]. }
  set (g := grayscale data).
  set (hs := horizontal_slices g). set (vs := vertical_slices g).
  assert (Hmax : exists r,
            (if horizontal_first
             then py_max (_calculate_uniformity hs) (_calculate_uniformity vs)
             else py_max (_calculate_uniformity vs) (_calculate_uniformity hs))
            = r
            /\ is_nan (float_of_number r) = false
            /\ (forall s q, In s hs \/ In s vs ->
                  extrema_ratio_of (valid s) = Some q ->
                  (float_of_number r <? q) = false)
            /\ (r = PyInt 0
                \/ exists s q, (In s hs \/ In s vs)
                               /\ extrema_ratio_of (valid s) = Some q
                               /\ r = Float64 q)).
  { pose proof (calculate_uniformity_maximum hs) as Hh.
    pose proof (calculate_uniformity_maximum vs) as Hv.
    destruct horizontal_first.
    - destruct (py_max_maximum _ _ _ _ Hh Hv) as (H1 & H2 & H3).
      eexists. split; [reflexivity|]. split; [exact H1|]. split.
      + intros s q Hin. apply H2. apply in_app_iff. tauto.
      + destruct H3 as [H3|(s & q & Hin & Hq & H3)]; [now left|].
        right. exists s, q. apply in_app_iff in Hin. tauto.
    - destruct (py_max_maximum _ _ _ _ Hv Hh) as (H1 & H2 & H3).
      eexists. split; [reflexivity|]. split; [exact H1|]. split.
      + intros s q Hin. apply H2. apply in_app_iff. tauto.
      + destruct H3 as [H3|(s & q & Hin & Hq & H3)]; [now left|].
        right. exists s, q. apply in_app_iff in Hin. tauto. }
  destruct Hmax as (r & -> & _ & Hbound & Hatt).
  exists r. split; [reflexivity|].
  assert (Hval : as_float r = float_of_number r) by now destruct r.
  rewrite Hval. split; [|split].
  - intros y x q Hy Hx Hq.
    rewrite row_run_window in Hq. apply window_ratio_spec in Hq.
    apply (Hbound (map gray (h_window data y x))).
    + left. apply in_horizontal_slices. exists y, x.
      rewrite Hw by lia. auto.
    + now rewrite valid_gray, <- window_ratio_code.
  - intros y x q Hx Hy Hq.
    rewrite column_run_window in Hq. apply window_ratio_spec in Hq.
    apply (Hbound (map gray (v_window data y x))).
    + right. apply in_vertical_slices. exists y, x.
      rewrite Hw by lia. auto.
    + now rewrite valid_gray, <- window_ratio_code.
  - destruct Hatt as [->|(s & q & Hin & Hq & ->)]; [now left|].
    right. destruct Hin as [Hin|Hin].
    + apply in_horizontal_slices in Hin as (y & x & Hy & Hx & ->).
      rewrite valid_gray, <- window_ratio_code in Hq.
      apply window_ratio_spec in Hq. rewrite <- row_run_window in Hq.
      rewrite Hw in Hx by lia.
      exists y, x, q. split; [reflexivity|]. left. auto.
    + apply in_vertical_slices in Hin as (y & x & Hx & Hy & ->).
      rewrite valid_gray, <- window_ratio_code in Hq.
      apply window_ratio_spec in Hq. rewrite <- column_run_window in Hq.
      rewrite Hw in Hx by lia.
      exists y, x, q. split; [reflexivity|]. right. auto.
Qed.

Lemma differential_is_window_maximum_witness :
  exists r,
    differential true (layer_of six_pixel_row) = ([], r)
    /\ (forall y x q,
          (y < length six_pixel_row)%nat -> (x + 5 <= 6)%nat ->
          ratio_of_window (row_run six_pixel_row y x) q ->
          (as_float r <? q) = false)
    /\ (forall y x q,
          (x < 6)%nat -> (y + 5 <= length six_pixel_row)%nat ->
          ratio_of_window (column_run six_pixel_row y x) q ->
          (as_float r <? q) = false)
    /\ (r = PyInt 0
        \/ exists y x q,
             r = Float64 q
             /\ (((y < length six_pixel_row)%nat /\ (x + 5 <= 6)%nat
                  /\ ratio_of_window (row_run six_pixel_row y x) q)
                 \/ ((x < 6)%nat /\ (y + 5 <= length six_pixel_row)%nat
                     /\ ratio_of_window (column_run six_pixel_row y x) q))).
Proof.
  apply (differential_is_window_maximum (layer_of six_pixel_row)
           six_pixel_row 6 true).
  - reflexivity.
  - repeat constructor.
Defined.

(** ** Extrema that sum to zero *)

(** In the scan of [differential] a slice whose extrema sum to zero is passed
    over. *)
Lemma zero_sum_slice_skipped acc s x y l :
  valid s = x :: y :: l ->
  (nanmax x (y :: l) + nanmin x (y :: l) =? 0) = true ->
  uniformity_step acc s = acc.
Proof.
  intros Hv Hz. rewrite uniformity_step_ratio, Hv. unfold extrema_ratio_of.
  now rewrite Hz.
Qed.

Lemma extrema_of_zeros n :
  nanmax 0 (repeat 0%float n) = 0%float
  /\ nanmin 0 (repeat 0%float n) = 0%float.
Proof.
  unfold nanmax, nanmin. induction n as [|n IH]; [split; reflexivity|].
  exact IH.
Qed.

(** [integral] makes no such test.  On an image whose pixels inside the field
    of view are all black, and there is one, both extrema are 0 and the ratio
    is zero over zero. *)
Lemma integral_of_black_image (self : UniformityLayer)
  (data : list (list rgba)) :
  cropped_data self = Some data ->
  (forall p, In p (concat data) -> visible p = true ->
     red p = x00 /\ green p = x00 /\ blue p = x00) ->
  (exists p, In p (concat data) /\ visible p = true) ->
  integral self = ([], Float64 nan).
Proof.
  intros Hdata Hblack (p0 & Hin0 & Hv0). unfold integral. rewrite Hdata.
  assert (Hvalid : exists n,
            valid (concat (grayscale data)) = repeat 0%float (S n)).
  { rewrite grayscale_rows.
    replace (concat (map (map gray) data)) with (map gray (concat data))
      by apply concat_map.
    rewrite valid_gray. unfold brightness.
    revert Hblack Hin0. generalize (concat data) as pixels.
    intros pixels Hblack Hin0.
    assert (Hz : forall q, In q (List.filter visible pixels) ->
              luminance q = 0%float).
    { intros q Hq. apply filter_In in Hq as [Hq Hvq].
      destruct (Hblack q Hq Hvq) as (Hr & Hg & Hb).
      unfold luminance. rewrite Hr, Hg, Hb. reflexivity. }
    assert (Hne : In p0 (List.filter visible pixels))
      by (apply filter_In; auto).
    destruct (List.filter visible pixels) as [|q l]; [destruct Hne|].
    exists (length l). cbn [map repeat]. f_equal.
    - apply Hz. now left.
    - assert (Hl : forall q', In q' l -> luminance q' = 0%float)
        by (intros q' Hq'; apply Hz; now right).
      clear -Hl. induction l as [|q' l IH]; [reflexivity|].
      cbn [map length repeat]. f_equal; [apply Hl; now left|].
      apply IH. intros q'' Hq''. apply Hl. now right. }
  destruct Hvalid as [n ->]. cbn [repeat]. do 2 f_equal.
  destruct (extrema_of_zeros n) as [-> ->]. reflexivity.
Qed.

(** C3 on the code: [integral] has no guard on the sum of the extrema; on the
    black pixel it divides zero by zero and returns [nan], not 0. *)
Theorem integral_of_black_is_nan :
  integral black_layer = ([], Float64 nan)
  /\ is_nan nan = true.
Proof. split; vm_compute; reflexivity. Qed.

(** ** A layer that was never masked *)

(** C10.  Without [cropped_data] both methods print their notice and return
    the [int] 0; neither reads [bin_data]. *)
Theorem unmasked_layer_returns_zero (self : UniformityLayer)
  (horizontal_first : bool) :
  cropped_data self = None ->
  differential horizontal_first self
  = (["No data to process."%string], PyInt 0)
  /\ integral self = (["No data to process."%string], PyInt 0).
Proof.
  intros H. unfold differential, integral. rewrite H. split; reflexivity.
Qed.

Lemma unmasked_layer_returns_zero_witness :
  differential true
    {| bin_data := [[[xff]]]; circ_rad := 80; cropped_data := None |}
  = (["No data to process."%string], PyInt 0)
  /\ integral
       {| bin_data := [[[xff]]]; circ_rad := 80; cropped_data := None |}
     = (["No data to process."%string], PyInt 0).
Proof.
  apply (unmasked_layer_returns_zero
           {| bin_data := [[[xff]]]; circ_rad := 80; cropped_data := None |}
           true).
  reflexivity.
Defined.

End UniformityFacts.

(** * Facts about strings *)

Module StringFacts.
Import Py.

Lemma length_string_of_list_ascii (l : list ascii) :
  String.length (string_of_list_ascii l) = length l.
Proof. induction l as [|c l IH]; cbn; auto. Qed.

Lemma length_list_ascii_of_string (s : string) :
  length (list_ascii_of_string s) = String.length s.
Proof. induction s as [|c s IH]; cbn; auto. Qed.

Lemma length_append (s1 s2 : string) :
  String.length (s1 ++ s2) = (String.length s1 + String.length s2)%nat.
Proof.
  induction s1 as [|c s1 IH]; [reflexivity|].
  change (S (String.length (s1 ++ s2))
          = S (String.length s1 + String.length s2)).
  now rewrite IH.
Qed.

Lemma string_of_list_ascii_app (l1 l2 : list ascii) :
  string_of_list_ascii (l1 ++ l2)
  = string_of_list_ascii l1 ++ string_of_list_ascii l2.
Proof. induction l1 as [|c l1 IH]; cbn; [reflexivity|now rewrite IH]. Qed.

Lemma length_str_from (n : nat) (s : string) :
  String.length (str_from n s) = (String.length s - n)%nat.
Proof.
  unfold str_from.
  now rewrite length_string_of_list_ascii, length_drop,
    length_list_ascii_of_string.
Qed.

Lemma str_from_split (n : nat) (s : string) :
  s = string_of_list_ascii (take n (list_ascii_of_string s)) ++ str_from n s.
Proof.
  unfold str_from. rewrite <- string_of_list_ascii_app, take_drop.
  now rewrite string_of_list_ascii_of_string.
Qed.

Lemma append_assoc (a b c : string) : (a ++ b) ++ c = a ++ b ++ c.
Proof.
  induction a as [|x a IH]; [reflexivity|].
  change (String x ((a ++ b) ++ c) = String x (a ++ b ++ c)).
  now rewrite IH.
Qed.

End StringFacts.

(** * Further facts about the reader: [decode_value], [rearrange_tag] and
      [parse_binary] *)

Module ReaderFacts.
Import Py Dicom DicomSpec ReaderSpec ListFacts DicomFacts.

Lemma int_from_bytes_big_acc (b : list byte) : forall acc n,
  0 <= acc < 256 ^ Z.of_nat n ->
  0 <= fold_left (fun acc x => 256 * acc + byte_val x) b acc
    < 256 ^ Z.of_nat (n + length b).
Proof.
  induction b as [|x b IH]; intros acc n Hacc; cbn [fold_left length].
  - now rewrite Nat.add_0_r.
  - replace (n + S (length b))%nat with (S n + length b)%nat by lia.
    apply IH. pose proof (byte_val_range x).
    rewrite Nat2Z.inj_succ, Z.pow_succ_r by lia. lia.
Qed.

Lemma int_from_bytes_big_range (b : list byte) :
  0 <= int_from_bytes_big b < 256 ^ Z.of_nat (length b).
Proof.
  unfold int_from_bytes_big.
  apply (int_from_bytes_big_acc b 0 0). cbn. lia.
Qed.

Lemma to_signed_range w u :
  0 < w -> 0 <= u < 2 ^ w ->
  - 2 ^ (w - 1) <= to_signed w u < 2 ^ (w - 1).
Proof.
  intros Hw Hu. unfold to_signed.
  assert (2 ^ w = 2 * 2 ^ (w - 1)) as E.
  { replace w with (Z.succ (w - 1)) at 1 by lia.
    rewrite Z.pow_succ_r by lia. reflexivity. }
  destruct (Z.ltb_spec u (2 ^ (w - 1))); lia.
Qed.

Lemma decode_value_raise_inv (depth : nat) (vr : string) :
  forall (value : list byte) (e : exn),
  decode_value depth vr value = Raise e ->
  e = RecursionError
  /\ forall j, (j < depth)%nat ->
       is_ok (decode_value_try vr (strips j value)) = false.
Proof.
  induction depth as [|depth IH]; intros value e; cbn [decode_value].
  - intros [= <-]. split; [reflexivity|]. intros j Hj. lia.
  - destruct (decode_value_try vr value) eqn:E; [discriminate|].
    intros H. destruct (IH _ _ H) as [-> Hfail]. split; [reflexivity|].
    intros [|j] Hj; cbn [strips].
    + now rewrite E.
    + apply Hfail. lia.
Qed.

(** X1.  Only the interpreter's limit on the depth of calls ends
    [decode_value] with an exception: whatever an attempt raises is caught, so
    [decode_value] raises exactly when every attempt that the limit allows
    fails, and what it raises is [RecursionError]. *)
Theorem decode_value_raises_only_recursion_error (depth : nat) (vr : string)
  (value : list byte) (e : exn) :
  decode_value depth vr value = Raise e <->
  e = RecursionError
  /\ forall j, (j < depth)%nat ->
       is_ok (decode_value_try vr (strips j value)) = false.
Proof.
  split.
  - apply decode_value_raise_inv.
  - intros [-> Hall]. now apply decode_value_all_fail.
Qed.

Lemma decode_value_raises_only_recursion_error_witness :
  decode_value 3 "SS" [x01] = Raise RecursionError
  /\ RecursionError = RecursionError
  /\ forall j, (j < 3)%nat ->
       is_ok (decode_value_try "SS" (strips j [x01])) = false.
Proof.
  split; [reflexivity|].
  apply (proj1 (decode_value_raises_only_recursion_error 3 "SS" [x01]
                  RecursionError)).
  reflexivity.
Defined.

Lemma decode_value_ok_inv (depth : nat) (vr : string) :
  forall (value : list byte) (v : pyval),
  decode_value depth vr value = Ok v ->
  exists k, (k < depth)%nat
    /\ decode_value_try vr (strips k value) = Ok v
    /\ forall j, (j < k)%nat ->
         is_ok (decode_value_try vr (strips j value)) = false.
Proof.
  induction depth as [|depth IH]; intros value v; cbn [decode_value].
  - discriminate.
  - destruct (decode_value_try vr value) as [v'|e] eqn:E.
    + intros [= ->]. exists 0%nat. cbn [strips]. split; [lia|].
      split; [exact E|]. intros j Hj. lia.
    + intros H. destruct (IH _ _ H) as (k & Hk & Hv & Hfail).
      exists (S k). cbn [strips]. split; [lia|]. split; [exact Hv|].
      intros [|j] Hj; cbn [strips].
      * now rewrite E.
      * apply Hfail. lia.
Qed.

(** X2.  [decode_value] returns a value exactly when some attempt that the
    depth limit allows succeeds, and the value is that of the first attempt
    that does: the result of one attempt on the input less an even number of
    trailing bytes, every attempt on a longer prefix having failed. *)
Theorem decode_value_returns_first_success (depth : nat) (vr : string)
  (value : list byte) (v : pyval) :
  decode_value depth vr value = Ok v <->
  exists k, (k < depth)%nat
    /\ decode_value_try vr (strips k value) = Ok v
    /\ forall j, (j < k)%nat ->
         is_ok (decode_value_try vr (strips j value)) = false.
Proof.
  split.
  - apply decode_value_ok_inv.
  - intros (k & Hk & Hv & Hfail).
    now apply (decode_value_first_success vr k).
Qed.

Lemma decode_value_returns_first_success_witness :
  exists k, (k < 5)%nat
    /\ decode_value_try "IS" (strips k [x34; x32; xff; xff]) = Ok (VInt 42)
    /\ forall j, (j < k)%nat ->
         is_ok (decode_value_try "IS" (strips j [x34; x32; xff; xff])) = false.
Proof.
  apply (proj1 (decode_value_returns_first_success 5 "IS"
                  [x34; x32; xff; xff] (VInt 42))).
  reflexivity.
Defined.

Lemma strips_take k : forall value : list byte,
  strips k value = take (length value - 2 * k) value.
Proof.
  induction k as [|k IH]; intros value; cbn [strips].
  - rewrite Nat.sub_0_r. now rewrite take_ge by lia.
  - rewrite IH. unfold strip2. rewrite take_take, length_take.
    f_equal. lia.
Qed.

Lemma decode_value_try_FL value :
  decode_value_try "FL" value
  = let* b := unpack_exact 4 value in Ok (VFloat32 (int_from_bytes_big b)).
Proof. reflexivity. Qed.

Lemma decode_value_try_FD value :
  decode_value_try "FD" value
  = let* b := unpack_exact 8 value in Ok (VFloat64 (int_from_bytes_big b)).
Proof. reflexivity. Qed.

Lemma decode_value_try_SL value :
  decode_value_try "SL" value
  = let* b := unpack_exact 4 value in
    Ok (VInt (to_signed 32 (int_from_bytes_big b))).
Proof. reflexivity. Qed.

Lemma decode_value_try_SS value :
  decode_value_try "SS" value
  = let* b := unpack_exact 2 value in
    Ok (VInt (to_signed 16 (int_from_bytes_big b))).
Proof. reflexivity. Qed.

Lemma decode_value_try_SV value :
  decode_value_try "SV" value
  = let* b := unpack_exact 8 value in
    Ok (VInt (to_signed 64 (int_from_bytes_big b))).
Proof. reflexivity. Qed.

Lemma fixed_width_cases vr w :
  fixed_width vr = Some w ->
  (vr = "FL" /\ w = 4%nat) \/ (vr = "FD" /\ w = 8%nat)
  \/ (vr = "SL" /\ w = 4%nat) \/ (vr = "SS" /\ w = 2%nat)
  \/ (vr = "SV" /\ w = 8%nat).
Proof.
  unfold fixed_width.
  destruct (String.eqb_spec vr "FL") as [->|_]; [intros [= <-]; tauto|].
  destruct (String.eqb_spec vr "FD") as [->|_]; [intros [= <-]; tauto|].
  destruct (String.eqb_spec vr "SL") as [->|_]; [intros [= <-]; tauto|].
  destruct (String.eqb_spec vr "SS") as [->|_]; [intros [= <-]; tauto|].
  destruct (String.eqb_spec vr "SV") as [->|_]; [intros [= <-]; tauto|].
  discriminate.
Qed.

Lemma fixed_width_try vr w value :
  fixed_width vr = Some w ->
  is_ok (decode_value_try vr value) = (length value =? w)%nat.
Proof.
  intros H.
  destruct (fixed_width_cases _ _ H)
    as [[-> ->]|[[-> ->]|[[-> ->]|[[-> ->]|[-> ->]]]]].
  - rewrite decode_value_try_FL. unfold unpack_exact, bind.
    now destruct (length value =? 4)%nat.
  - rewrite decode_value_try_FD. unfold unpack_exact, bind.
    now destruct (length value =? 8)%nat.
  - rewrite decode_value_try_SL. unfold unpack_exact, bind.
    now destruct (length value =? 4)%nat.
  - rewrite decode_value_try_SS. unfold unpack_exact, bind.
    now destruct (length value =? 2)%nat.
  - rewrite decode_value_try_SV. unfold unpack_exact, bind.
    now destruct (length value =? 8)%nat.
Qed.

(** X3. Under a VR that [struct.unpack] reads ([FL], [FD], [SL], [SS], [SV]),
    [decode_value] returns exactly when the input is longer than the field by
    an even number of bytes that the depth limit lets it strip, and what it
    returns is read off the first bytes of the input; on every other length it
    ends in [RecursionError]. *)
Theorem decode_value_fixed_width (vr : string) (w : nat) (value : list byte)
  (depth : nat) :
  fixed_width vr = Some w ->
  (forall k, length value = (w + 2 * k)%nat -> (k < depth)%nat ->
     decode_value depth vr value = decode_value_try vr (take w value)
     /\ is_ok (decode_value depth vr value) = true)
  /\ ((forall k, (k < depth)%nat -> length value <> (w + 2 * k)%nat) ->
      decode_value depth vr value = Raise RecursionError).
Proof.
  intros Hw. split.
  - intros k Hlen Hk.
    assert (strips k value = take w value) as Hs.
    { rewrite strips_take. f_equal. lia. }
    assert (is_ok (decode_value_try vr (take w value)) = true) as Hok.
    { rewrite (fixed_width_try _ _ _ Hw), length_take.
      apply Nat.eqb_eq. rewrite Hlen. lia. }
    destruct (decode_value_try vr (take w value)) as [v|] eqn:E;
      [|discriminate].
    rewrite (decode_value_first_success vr k depth value v); auto.
    + intros j Hj. rewrite (fixed_width_try _ _ _ Hw), strips_length.
      apply Nat.eqb_neq. lia.
    + now rewrite Hs.
  - intros Hno.
    destruct (decode_value depth vr value) as [v|e] eqn:E.
    + destruct (decode_value_ok_inv _ _ _ _ E)
        as (k & Hk & Hv & _).
      assert (is_ok (decode_value_try vr (strips k value)) = true) as Hok
        by now rewrite Hv.
      rewrite (fixed_width_try _ _ _ Hw), strips_length in Hok.
      apply Nat.eqb_eq in Hok. exfalso. apply (Hno k Hk).
      assert (0 < w)%nat by
        (destruct (fixed_width_cases _ _ Hw)
           as [[_ ->]|[[_ ->]|[[_ ->]|[[_ ->]|[_ ->]]]]]; lia).
      lia.
    + f_equal.
      now destruct (decode_value_raise_inv _ _ _ _ E).
Qed.

Lemma decode_value_fixed_width_witness :
  (forall k, length [x00; x2a; x20; x20] = (2 + 2 * k)%nat -> (k < 5)%nat ->
     decode_value 5 "SS" [x00; x2a; x20; x20]
     = decode_value_try "SS" (take 2 [x00; x2a; x20; x20])
     /\ is_ok (decode_value 5 "SS" [x00; x2a; x20; x20]) = true)
  /\ ((forall k, (k < 5)%nat ->
        length [x00; x2a; x20; x20] <> (2 + 2 * k)%nat) ->
      decode_value 5 "SS" [x00; x2a; x20; x20] = Raise RecursionError).
Proof.
  apply (decode_value_fixed_width "SS" 2 [x00; x2a; x20; x20] 5).
  reflexivity.
Defined.

(** X4. The integers that [decode_value] returns under the signed VRs are in
    the range of their width: 16 bits for [SS], 32 for [SL], 64 for [SV];
    under [UL] and [US] the first attempt succeeds on every input, whatever
    its length, and the integer is not negative and below 256 to the power of
    the number of bytes. *)
Theorem decode_value_integer_ranges (depth : nat) (value : list byte) :
  (forall v, decode_value depth "SS" value = Ok v ->
     exists z, v = VInt z /\ - 2 ^ 15 <= z < 2 ^ 15)
  /\ (forall v, decode_value depth "SL" value = Ok v ->
       exists z, v = VInt z /\ - 2 ^ 31 <= z < 2 ^ 31)
  /\ (forall v, decode_value depth "SV" value = Ok v ->
       exists z, v = VInt z /\ - 2 ^ 63 <= z < 2 ^ 63)
  /\ (forall vr, vr = "UL" \/ vr = "US" ->
       decode_value (S depth) vr value = Ok (VInt (int_from_bytes_little value))
       /\ 0 <= int_from_bytes_little value < 256 ^ Z.of_nat (length value)).
Proof.
  assert (forall vr w bits,
    (forall b, decode_value_try vr b
               = let* b' := unpack_exact w b in
                 Ok (VInt (to_signed bits (int_from_bytes_big b')))) ->
    bits = 8 * Z.of_nat w -> 0 < bits ->
    forall v, decode_value depth vr value = Ok v ->
      exists z, v = VInt z /\ - 2 ^ (bits - 1) <= z < 2 ^ (bits - 1)) as Hs.
  { intros vr w bits Htry Hbits Hpos v Hv.
    destruct (decode_value_ok_inv _ _ _ _ Hv) as (k & _ & Hk & _).
    rewrite Htry in Hk. unfold unpack_exact, bind in Hk.
    destruct (length (strips k value) =? w)%nat eqn:E; [|discriminate].
    apply Nat.eqb_eq in E. injection Hk as <-.
    eexists. split; [reflexivity|].
    apply to_signed_range; [lia|].
    pose proof (int_from_bytes_big_range (strips k value)) as Hr.
    rewrite E in Hr.
    replace (2 ^ bits) with (256 ^ Z.of_nat w); [exact Hr|].
    change 256 with (2 ^ 8). rewrite <- Z.pow_mul_r by lia.
    now rewrite Hbits. }
  split; [|split; [|split]].
  - apply (Hs "SS" 2%nat 16 decode_value_try_SS); lia.
  - apply (Hs "SL" 4%nat 32 decode_value_try_SL); lia.
  - apply (Hs "SV" 8%nat 64 decode_value_try_SV); lia.
  - intros vr Hvr. split; [|apply int_from_bytes_little_range].
    destruct Hvr as [-> | ->]; reflexivity.
Qed.

Lemma decode_value_integer_ranges_witness :
  exists z, VInt (-2) = VInt z /\ - 2 ^ 15 <= z < 2 ^ 15.
Proof.
  apply (proj1 (decode_value_integer_ranges 5 [xff; xfe; x00; x00])).
  reflexivity.
Defined.

Lemma refuses_empty_try vr :
  is_ok (decode_value_try vr []) = negb (refuses_empty vr).
Proof.
  unfold refuses_empty, existsb, decode_value_try.
  destruct (String.eqb_spec vr "FL") as [->|_]; [reflexivity|].
  destruct (String.eqb_spec vr "FD") as [->|_]; [reflexivity|].
  destruct (String.eqb_spec vr "IS") as [->|_]; [reflexivity|].
  destruct (String.eqb_spec vr "SL") as [->|_]; [reflexivity|].
  destruct (String.eqb_spec vr "SS") as [->|_]; [reflexivity|].
  destruct (String.eqb_spec vr "SV") as [->|_]; [reflexivity|].
  destruct (str_in vr text_vrs); [reflexivity|].
  destruct (vr =? "AT")%string; [reflexivity|].
  destruct (vr =? "UL")%string; [reflexivity|].
  destruct (vr =? "US")%string; reflexivity.
Qed.

Lemma decode_value_returns_aux vr :
  refuses_empty vr = false ->
  forall depth value, (length value + 2 <= 2 * depth)%nat ->
  is_ok (decode_value depth vr value) = true.
Proof.
  intros Hvr. induction depth as [|depth IH]; intros value Hlen;
    cbn [decode_value]; [lia|].
  destruct (decode_value_try vr value) eqn:E; [reflexivity|].
  destruct value as [|x value].
  { pose proof (refuses_empty_try vr) as H. rewrite E, Hvr in H.
    discriminate. }
  apply IH. rewrite strip2_length. cbn [length] in *. lia.
Qed.

(** X5. [decode_value] cannot fail under any VR but [FL], [FD], [IS], [SL],
    [SS] and [SV], whatever the bytes, as long as the interpreter allows one
    call for every two bytes of the input and one more: those are the VRs that
    refuse the empty input, and the stripping reaches it. Under those six it
    does fail: on the empty input, for every depth. *)
Theorem decode_value_returns (vr : string) (value : list byte) (depth : nat) :
  (refuses_empty vr = false ->
   (length value + 2 <= 2 * depth)%nat ->
   exists v, decode_value depth vr value = Ok v)
  /\ (refuses_empty vr = true ->
      decode_value depth vr [] = Raise RecursionError).
Proof.
  split.
  - intros Hvr Hlen.
    pose proof (decode_value_returns_aux vr Hvr depth value Hlen) as H.
    destruct (decode_value depth vr value) as [v|]; [|discriminate].
    now exists v.
  - intros Hvr. apply decode_value_empty_fails.
    now rewrite refuses_empty_try, Hvr.
Qed.

Lemma decode_value_returns_witness :
  (exists v, decode_value 3 "PN" [xff; x41; x42; xff] = Ok v)
  /\ decode_value 3 "IS" [] = Raise RecursionError.
Proof.
  split.
  - apply (proj1 (decode_value_returns "PN" [xff; x41; x42; xff] 3)).
    + reflexivity.
    + cbn. lia.
  - apply (proj2 (decode_value_returns "IS" [] 3)). reflexivity.
Defined.

(** X6.  [rearrange_tag] on a string of eight characters swaps the first pair
    of characters with the second and the third pair with the fourth: it keeps
    the length, applied twice it gives the tag back, and on the hexadecimal
    form of four bytes it is the hexadecimal form of the bytes swapped within
    each half. *)
Theorem rearrange_tag_involutive (tag : string) :
  String.length tag = 8%nat ->
  String.length (rearrange_tag tag) = 8%nat
  /\ rearrange_tag (rearrange_tag tag) = tag
  /\ forall b0 b1 b2 b3 : byte,
       tag = hex [b0; b1; b2; b3] ->
       rearrange_tag tag = hex [b1; b0; b3; b2].
Proof.
  intros Hlen.
  destruct tag as [|c0 [|c1 [|c2 [|c3 [|c4 [|c5 [|c6 [|c7 [|c8 tag]]]]]]]]];
    try discriminate.
  split; [reflexivity|]. split; [reflexivity|].
  intros b0 b1 b2 b3 H. cbn [hex] in H.
  injection H as -> -> -> -> -> -> -> ->. reflexivity.
Qed.

Lemma rearrange_tag_involutive_witness :
  String.length (rearrange_tag "e07f1000") = 8%nat
  /\ rearrange_tag (rearrange_tag "e07f1000") = "e07f1000"
  /\ forall b0 b1 b2 b3 : byte,
       "e07f1000" = hex [b0; b1; b2; b3] ->
       rearrange_tag "e07f1000" = hex [b1; b0; b3; b2].
Proof.
  apply (rearrange_tag_involutive "e07f1000"). reflexivity.
Defined.

Lemma read_header_fields (tagb vrb field raw rest : list byte) (vr : string) :
  length tagb = 4%nat -> length vrb = 2%nat ->
  decode_ascii vrb = Ok vr ->
  length_field vr field = Some (Z.of_nat (length raw)) ->
  read_header (tagb ++ vrb ++ field ++ raw ++ rest)
  = Ok (rearrange_tag (hex tagb), vr, Z.of_nat (length raw), raw, rest).
Proof.
  intros Ht Hv Hvr Hf. unfold read_header.
  rewrite (take_app_length' tagb) by (symmetry; exact Ht).
  rewrite (drop_app_length' tagb) by (symmetry; exact Ht).
  rewrite (take_app_length' vrb) by (symmetry; exact Hv).
  rewrite (drop_app_length' vrb) by (symmetry; exact Hv).
  rewrite Hvr. unfold bind. unfold length_field in Hf.
  destruct (str_in vr short_length_vrs).
  - destruct (length field =? 2)%nat eqn:E; [|discriminate].
    apply Nat.eqb_eq in E. injection Hf as Hf.
    rewrite (take_app_length' field) by (symmetry; exact E).
    rewrite (drop_app_length' field) by (symmetry; exact E).
    rewrite Hf, Nat2Z.id.
    now rewrite take_app_length, drop_app_length.
  - destruct (length field =? 6)%nat eqn:E; [|discriminate].
    apply Nat.eqb_eq in E. injection Hf as Hf.
    rewrite (drop_app_le field) by lia.
    rewrite (take_app_length' (drop 2 field))
      by (rewrite length_drop; lia).
    rewrite (drop_app_length' (drop 2 field))
      by (rewrite length_drop; lia).
    rewrite Hf, Nat2Z.id.
    now rewrite take_app_length, drop_app_length.
Qed.

Lemma entry_of_fields depth e tag entry :
  entry_of depth e = Some (tag, entry) ->
  exists vr value,
    length (el_tag e) = 4%nat /\ length (el_vr e) = 2%nat
    /\ decode_ascii (el_vr e) = Ok vr
    /\ length_field vr (el_len e) = Some (Z.of_nat (length (el_raw e)))
    /\ decode_value depth vr (el_raw e) = Ok value
    /\ tag = rearrange_tag (hex (el_tag e))
    /\ entry = [VStr vr; VInt (Z.of_nat (length (el_raw e))); value].
Proof.
  unfold entry_of. destruct (decode_ascii (el_vr e)) as [vr|]; [|discriminate].
  destruct (length (el_tag e) =? 4)%nat eqn:E1; [|discriminate].
  destruct (length (el_vr e) =? 2)%nat eqn:E2; [|discriminate].
  cbn [andb]. case_bool_decide as E3; [|discriminate].
  destruct (decode_value depth vr (el_raw e)) as [value|] eqn:E4;
    [|discriminate].
  intros [= <- <-]. exists vr, value.
  apply Nat.eqb_eq in E1, E2. auto 10.
Qed.

Lemma read_element_wire depth e tag entry rest :
  entry_of depth e = Some (tag, entry) ->
  exists vr len value,
    entry = [VStr vr; VInt len; value]
    /\ read_element depth (wire e ++ rest) = Ok (tag, vr, len, value, rest).
Proof.
  intros H.
  destruct (entry_of_fields _ _ _ _ H)
    as (vr & value & Ht & Hv & Hvr & Hf & Hd & -> & ->).
  exists vr, (Z.of_nat (length (el_raw e))), value. split; [reflexivity|].
  unfold read_element, wire. rewrite <- !app_assoc.
  rewrite (read_header_fields _ _ _ _ _ vr Ht Hv Hvr Hf).
  unfold bind. now rewrite Hd.
Qed.

(** X7. The header of an element is read back from its bytes: when the tag has
    four bytes, the VR two ASCII bytes, and the length field, in the form that
    the VR asks for, holds the length of the value, [read_header] returns the
    reordered tag, the VR, that length, the bytes of the value and the bytes
    that follow the element, whatever they are. *)
Theorem read_header_round_trip (tagb vrb field raw rest : list byte)
  (vr : string) :
  length tagb = 4%nat -> length vrb = 2%nat ->
  decode_ascii vrb = Ok vr ->
  length_field vr field = Some (Z.of_nat (length raw)) ->
  read_header (tagb ++ vrb ++ field ++ raw ++ rest)
  = Ok (rearrange_tag (hex tagb), vr, Z.of_nat (length raw), raw, rest).
Proof. apply read_header_fields. Qed.

Lemma read_header_round_trip_witness :
  read_header ([x10; x00; x10; x00] ++ [x4f; x42]
               ++ [x00; x00; x01; x00; x00; x00] ++ [x07] ++ [xaa; xbb])
  = Ok (rearrange_tag (hex [x10; x00; x10; x00]), "OB",
        Z.of_nat (length [x07]), [x07], [xaa; xbb]).
Proof.
  apply (read_header_round_trip [x10; x00; x10; x00] [x4f; x42]
           [x00; x00; x01; x00; x00; x00] [x07] [xaa; xbb] "OB");
    reflexivity.
Defined.

Lemma parse_loop_fuel depth : forall fuel1 fuel2 data parsed,
  (length data < fuel1)%nat -> (length data < fuel2)%nat ->
  parse_loop fuel1 depth data parsed = parse_loop fuel2 depth data parsed.
Proof.
  induction fuel1 as [|fuel1 IH]; intros fuel2 data parsed H1 H2; [lia|].
  destruct fuel2 as [|fuel2]; [lia|]. cbn [parse_loop].
  destruct (Nat.ltb_spec 0 (length data)); [|reflexivity].
  destruct (read_element depth data)
    as [[[[[tag vr] len] value] data']|] eqn:E; [|reflexivity].
  destruct (String.eqb tag pixel_data_tag); [reflexivity|].
  pose proof (read_element_shorter _ _ _ _ _ _ _ E).
  apply IH; lia.
Qed.

Lemma wire_length depth e tag entry :
  entry_of depth e = Some (tag, entry) -> (6 <= length (wire e))%nat.
Proof.
  intros H. destruct (entry_of_fields _ _ _ _ H) as (? & ? & Ht & Hv & _).
  unfold wire. rewrite !length_app. lia.
Qed.

Lemma parse_loop_elements depth (es : list element) :
  Forall (fun e => exists tag entry,
            entry_of depth e = Some (tag, entry) /\ tag <> pixel_data_tag) es ->
  forall fuel tail parsed,
  (length (flat_map wire es ++ tail) < fuel)%nat ->
  parse_loop fuel depth (flat_map wire es ++ tail) parsed
  = parse_loop (S (length tail)) depth tail (entries depth es parsed).
Proof.
  induction 1 as [|e es (tag & entry & He & Htag) _ IH]; intros fuel tail parsed Hf.
  - cbn [flat_map app entries foldl] in *. apply parse_loop_fuel; lia.
  - cbn [flat_map] in *. rewrite <- app_assoc in *.
    pose proof (wire_length _ _ _ _ He) as Hw.
    destruct fuel as [|fuel]; [lia|]. cbn [parse_loop].
    rewrite length_app in *.
    destruct (Nat.ltb_spec 0 (length (wire e) + length (flat_map wire es ++ tail)));
      [|lia].
    destruct (read_element_wire depth e tag entry
                (flat_map wire es ++ tail) He)
      as (vr & len & value & -> & ->).
    apply String.eqb_neq in Htag. rewrite Htag.
    rewrite IH by lia. unfold entries. cbn [foldl]. now rewrite He.
Qed.

(** X8. A stream of well-formed elements is parsed back: behind any 132 bytes,
    when every element has a four-byte tag that is not the pixel-data tag
    after reordering, a two-byte ASCII VR, a length field of the form that the
    VR asks for holding the length of its value, and a value that
    [decode_value] decodes, [parse_binary] returns the dictionary with one
    entry [[vr, length, value, name]] per tag, the last element of a tag
    winning, and the empty list for the image. *)
Theorem parse_binary_elements (depth : nat) (elements : gmap string string)
  (preamble : list byte) (es : list element) :
  length preamble = 132%nat ->
  Forall (fun e => exists tag entry,
            entry_of depth e = Some (tag, entry) /\ tag <> pixel_data_tag) es ->
  parse_binary depth elements (preamble ++ flat_map wire es)
  = Some (Ok (annotate elements (entries depth es ∅), VEmptyList)).
Proof.
  intros Hp Hes. unfold parse_binary.
  rewrite drop_drop. change (128 + 4)%nat with 132%nat.
  rewrite (drop_app_length' preamble) by (symmetry; exact Hp).
  rewrite <- (app_nil_r (flat_map wire es)).
  rewrite (parse_loop_elements depth es Hes) by lia.
  reflexivity.
Qed.

Lemma parse_binary_elements_witness :
  parse_binary 5 ∅
    (replicate 132 x00 ++ flat_map wire [rows_element; blob_element])
  = Some (Ok (annotate ∅ (entries 5 [rows_element; blob_element] ∅),
              VEmptyList)).
Proof.
  apply (parse_binary_elements 5 ∅ (replicate 132 x00)
           [rows_element; blob_element]).
  - reflexivity.
  - repeat constructor.
    + eexists _, _. split; [reflexivity|]. discriminate.
    + eexists _, _. split; [reflexivity|]. discriminate.
Defined.

Lemma decode_ascii_raises (b : list byte) e :
  decode_ascii b = Raise e -> e = UnicodeDecodeError.
Proof.
  induction b as [|x b IH]; cbn [decode_ascii]; [discriminate|].
  destruct (byte_val x <? 128); [|congruence].
  destruct (decode_ascii b); cbn [bind]; [discriminate|].
  intros [= <-]. now apply IH.
Qed.

Lemma read_header_raises data e :
  read_header data = Raise e -> e = UnicodeDecodeError.
Proof.
  unfold read_header.
  destruct (decode_ascii (take 2 (drop 4 data))) as [vr|e'] eqn:E;
    cbn [bind].
  - destruct (str_in vr short_length_vrs); discriminate.
  - intros [= <-]. exact (decode_ascii_raises _ _ E).
Qed.

Lemma read_element_raises depth data e :
  read_element depth data = Raise e ->
  e = UnicodeDecodeError \/ e = RecursionError.
Proof.
  unfold read_element.
  destruct (read_header data) as [[[[[tag vr] len] raw] rest]|e'] eqn:E;
    cbn [bind].
  - destruct (decode_value depth vr raw) eqn:Ed; cbn [bind]; [discriminate|].
    intros [= <-]. right.
    now destruct (decode_value_raise_inv _ _ _ _ Ed).
  - intros [= <-]. left. exact (read_header_raises _ _ E).
Qed.

Lemma parse_loop_raises depth : forall fuel data parsed e,
  parse_loop fuel depth data parsed = Some (Raise e) ->
  e = UnicodeDecodeError \/ e = RecursionError.
Proof.
  induction fuel as [|fuel IH]; intros data parsed e; cbn [parse_loop];
    [discriminate|].
  destruct (0 <? length data)%nat; [|discriminate].
  destruct (read_element depth data)
    as [[[[[tag vr] len] value] data']|e'] eqn:E.
  - destruct (String.eqb tag pixel_data_tag); [discriminate|]. apply IH.
  - intros [= <-]. exact (read_element_raises _ _ _ E).
Qed.

(** X9. [parse_binary] ends on every input, and the only exceptions that leave
    it are [UnicodeDecodeError], from a VR field that is not ASCII, and
    [RecursionError], from [decode_value]: a truncated stream, a wrong length
    or an unknown VR raise nothing. *)
Theorem parse_binary_exceptions (depth : nat) (elements : gmap string string)
  (data : list byte) :
  exists r, parse_binary depth elements data = Some r
    /\ forall e, r = Raise e -> e = UnicodeDecodeError \/ e = RecursionError.
Proof.
  destruct (parse_binary_total depth elements data) as [r Hr].
  exists r. split; [exact Hr|]. intros e ->.
  unfold parse_binary in Hr.
  destruct (parse_loop _ depth _ ∅) as [[[parsed image]|e']|] eqn:E;
    [discriminate| |discriminate].
  injection Hr as ->. exact (parse_loop_raises _ _ _ _ _ E).
Qed.

Lemma parse_binary_exceptions_witness :
  exists r,
    parse_binary 5 ∅ (replicate 132 x00 ++ [x28; x00; x10; x00; xff; xff])
    = Some r
    /\ forall e, r = Raise e -> e = UnicodeDecodeError \/ e = RecursionError.
Proof.
  apply (parse_binary_exceptions 5 ∅
           (replicate 132 x00 ++ [x28; x00; x10; x00; xff; xff])).
Defined.

Lemma read_header_length data tag vr len raw rest :
  read_header data = Ok (tag, vr, len, raw, rest) ->
  0 <= len < 2 ^ 32 /\ (Z.of_nat (length raw) <= len).
Proof.
  unfold read_header.
  destruct (decode_ascii (take 2 (drop 4 data))) as [vr'|]; cbn [bind];
    [|discriminate].
  destruct (str_in vr' short_length_vrs); intros [= <- <- <- <- <-].
  - pose proof (int_from_bytes_little_range (take 2 (drop 2 (drop 4 data))))
      as Hr.
    assert (length (take 2 (drop 2 (drop 4 data))) <= 2)%nat as Hl
      by (rewrite length_take; lia).
    assert (256 ^ Z.of_nat (length (take 2 (drop 2 (drop 4 data))))
            <= 256 ^ 2) by (apply Z.pow_le_mono_r; lia).
    rewrite length_take. split; lia.
  - pose proof (int_from_bytes_little_range
                  (take 4 (drop 2 (drop 2 (drop 4 data))))) as Hr.
    assert (length (take 4 (drop 2 (drop 2 (drop 4 data)))) <= 4)%nat as Hl
      by (rewrite length_take; lia).
    assert (256 ^ Z.of_nat (length (take 4 (drop 2 (drop 2 (drop 4 data)))))
            <= 256 ^ 4) by (apply Z.pow_le_mono_r; lia).
    rewrite length_take. split; lia.
Qed.

Lemma parse_loop_entries depth (P : string -> list pyval -> Prop) :
  (forall data tag vr len value rest,
     read_element depth data = Ok (tag, vr, len, value, rest) ->
     tag <> pixel_data_tag ->
     P tag [VStr vr; VInt len; value]) ->
  forall fuel data parsed parsed' image,
  (forall key entry, parsed !! key = Some entry -> P key entry) ->
  parse_loop fuel depth data parsed = Some (Ok (parsed', image)) ->
  forall key entry, parsed' !! key = Some entry -> P key entry.
Proof.
  intros HP. induction fuel as [|fuel IH];
    intros data parsed parsed' image Hinv; cbn [parse_loop]; [discriminate|].
  destruct (0 <? length data)%nat; [|now intros [= <- <-]].
  destruct (read_element depth data)
    as [[[[[tag vr] len] value] data']|e'] eqn:E; [|discriminate].
  destruct (String.eqb_spec tag pixel_data_tag) as [|Hne];
    [now intros [= <- <-]|].
  apply IH. intros key entry.
  destruct (decide (tag = key)) as [<-|Hk].
  - rewrite lookup_insert_eq. intros [= <-]. exact (HP _ _ _ _ _ _ E Hne).
  - rewrite lookup_insert_ne by exact Hk. apply Hinv.
Qed.

(** X10. Every entry of the dictionary that [parse_binary] returns is a list
    of four items [[vr, length, value, name]]: the length is an integer from 0
    to 2^32 - 1, the value is what [decode_value] returned for that VR on at
    most [length] bytes, and the name is what the tag dictionary has for the
    key, or the fallback label; no entry is under the pixel-data tag, and
    reading item 2 of an entry, as [decode_image_data] does, cannot fail. *)
Theorem parse_binary_entry_shape (depth : nat) (elements : gmap string string)
  (data : list byte) (parsed : gmap string (list pyval)) (image : pyval)
  (key : string) (entry : list pyval) :
  parse_binary depth elements data = Some (Ok (parsed, image)) ->
  parsed !! key = Some entry ->
  key <> pixel_data_tag
  /\ exists vr len raw value,
       entry = [VStr vr; VInt len; value;
                VStr (default "UNKOWN" (elements !! key))]
       /\ 0 <= len < 2 ^ 32
       /\ Z.of_nat (length raw) <= len
       /\ decode_value depth vr raw = Ok value
       /\ metadata_value parsed key = Ok value.
Proof.
  unfold parse_binary.
  destruct (parse_loop _ depth _ ∅) as [[[parsed0 image0]|e']|] eqn:E;
    [|discriminate|discriminate].
  intros [= <- <-] Hk. rewrite annotate_lookup in Hk.
  destruct (parsed0 !! key) as [entry0|] eqn:E0; [|discriminate].
  cbn in Hk. injection Hk as <-.
  assert (key <> pixel_data_tag
          /\ exists vr len raw value,
               entry0 = [VStr vr; VInt len; value]
               /\ 0 <= len < 2 ^ 32
               /\ Z.of_nat (length raw) <= len
               /\ decode_value depth vr raw = Ok value) as [Hne H].
  { refine (parse_loop_entries depth
              (fun key entry0 => key <> pixel_data_tag
                 /\ exists vr len raw value,
                      entry0 = [VStr vr; VInt len; value]
                      /\ 0 <= len < 2 ^ 32
                      /\ Z.of_nat (length raw) <= len
                      /\ decode_value depth vr raw = Ok value)
              _ _ _ ∅ parsed0 image0 _ E key entry0 E0).
    - intros d tag vr len value rest Hr Hne. split; [exact Hne|].
      unfold read_element in Hr.
      destruct (read_header d) as [[[[[tag' vr'] len'] raw] rest']|] eqn:Eh;
        cbn [bind] in Hr; [|discriminate].
      destruct (decode_value depth vr' raw) as [value'|] eqn:Ed;
        cbn [bind] in Hr; [|discriminate].
      injection Hr as <- <- <- <- <-.
      destruct (read_header_length _ _ _ _ _ _ Eh).
      exists vr', len', raw, value'. auto.
    - intros k e0. now rewrite lookup_empty. }
  split; [exact Hne|].
  destruct H as (vr & len & raw & value & -> & Hlen & Hraw & Hd).
  exists vr, len, raw, value.
  split; [|split; [exact Hlen|split; [exact Hraw|split; [exact Hd|]]]].
  - cbn [app]. destruct (elements !! key); reflexivity.
  - unfold metadata_value. rewrite annotate_lookup, E0. reflexivity.
Qed.

Lemma parse_binary_entry_shape_witness :
  "00280010" <> pixel_data_tag
  /\ exists vr len raw value,
       [VStr "US"; VInt 2; VInt 64; VStr "UNKOWN"]
       = [VStr vr; VInt len; value;
          VStr (default "UNKOWN" ((∅ : gmap string string) !! "00280010"))]
       /\ 0 <= len < 2 ^ 32
       /\ Z.of_nat (length raw) <= len
       /\ decode_value 1000 vr raw = Ok value
       /\ metadata_value
            (annotate ∅ (entries 1000 [rows_element] ∅)) "00280010"
          = Ok value.
Proof.
  apply (parse_binary_entry_shape 1000 ∅
           (replicate 132 x00 ++ flat_map wire [rows_element])
           (annotate ∅ (entries 1000 [rows_element] ∅)) VEmptyList
           "00280010" [VStr "US"; VInt 2; VInt 64; VStr "UNKOWN"]).
  - vm_compute. reflexivity.
  - vm_compute. reflexivity.
Defined.

(** X11. [parse_binary] never looks at the first 132 bytes: two inputs that
    agree from byte 132 on are parsed alike whatever stands in the preamble
    and the prefix, and an input of at most 132 bytes is parsed without error
    into the empty dictionary and the empty list. *)
Theorem parse_binary_ignores_preamble (depth : nat)
  (elements : gmap string string) (data data' : list byte) :
  (drop 132 data = drop 132 data' ->
   parse_binary depth elements data = parse_binary depth elements data')
  /\ ((length data <= 132)%nat ->
      parse_binary depth elements data = Some (Ok (∅, VEmptyList))).
Proof.
  unfold parse_binary. rewrite !drop_drop.
  change (128 + 4)%nat with 132%nat. split.
  - now intros ->.
  - intros Hlen. rewrite drop_ge by exact Hlen. reflexivity.
Qed.

Lemma parse_binary_ignores_preamble_witness :
  parse_binary 5 ∅ (replicate 132 x00 ++ wire rows_element)
  = parse_binary 5 ∅ (replicate 132 xff ++ wire rows_element)
  /\ parse_binary 5 ∅ (replicate 100 x44) = Some (Ok (∅, VEmptyList)).
Proof.
  split.
  - apply (proj1 (parse_binary_ignores_preamble 5 ∅
             (replicate 132 x00 ++ wire rows_element)
             (replicate 132 xff ++ wire rows_element))).
    reflexivity.
  - apply (proj2 (parse_binary_ignores_preamble 5 ∅ (replicate 100 x44) [])).
    cbn. lia.
Defined.

End ReaderFacts.

(** * Further facts about the volume and the transforms *)

Module TransformFacts.
Import Py Dicom DicomSpec ListFacts DicomFacts.

Lemma foldl_max_spec (l : list Z) : forall x,
  In (foldl Z.max x l) (x :: l)
  /\ forall v, In v (x :: l) -> v <= foldl Z.max x l.
Proof.
  induction l as [|y l IH]; intros x; cbn [foldl].
  - split; [now left|]. intros v [E|[]]. lia.
  - destruct (IH (Z.max x y)) as [Hin Hle]. split.
    + destruct Hin as [E|Hin]; [|right; now right].
      rewrite <- E. destruct (Z.max_spec x y) as [[_ ->]|[_ ->]];
        [right; now left|now left].
    + specialize (Hle (Z.max x y)) as Hxy.
      specialize (Hxy (or_introl eq_refl)).
      intros v [E|[E|Hv]]; [lia|lia|].
      apply Hle. now right.
Qed.

Lemma foldl_min_spec (l : list Z) : forall x,
  In (foldl Z.min x l) (x :: l)
  /\ forall v, In v (x :: l) -> foldl Z.min x l <= v.
Proof.
  induction l as [|y l IH]; intros x; cbn [foldl].
  - split; [now left|]. intros v [E|[]]. lia.
  - destruct (IH (Z.min x y)) as [Hin Hle]. split.
    + destruct Hin as [E|Hin]; [|right; now right].
      rewrite <- E. destruct (Z.min_spec x y) as [[_ ->]|[_ ->]];
        [now left|right; now left].
    + specialize (Hle (Z.min x y)) as Hxy.
      specialize (Hxy (or_introl eq_refl)).
      intros v [E|[E|Hv]]; [lia|lia|].
      apply Hle. now right.
Qed.

Lemma kept_pixels (array : list Z) (v : Z) :
  v ∈ filter (fun value => value <> 10000) array
  <-> v ∈ array /\ v <> 10000.
Proof. rewrite list_elem_of_filter. tauto. Qed.

(** X12. [max_pixel] returns the largest and [min_pixel] the smallest of the
    items that are not 10000, the value that [remove_image_edges] writes: the
    result is such an item; both raise [ValueError] exactly when there is no
    such item, the empty list included; and the minimum is not above the
    maximum. *)
Theorem pixel_extrema (array : list Z) :
  (forall m, max_pixel array = Ok m <->
     m ∈ array /\ m <> 10000
     /\ forall v, v ∈ array -> v <> 10000 -> v <= m)
  /\ (forall m, min_pixel array = Ok m <->
        m ∈ array /\ m <> 10000
        /\ forall v, v ∈ array -> v <> 10000 -> m <= v)
  /\ (forall e, max_pixel array = Raise e <->
        e = ValueError /\ forall v, v ∈ array -> v = 10000)
  /\ (forall e, min_pixel array = Raise e <->
        e = ValueError /\ forall v, v ∈ array -> v = 10000)
  /\ (forall lo hi, min_pixel array = Ok lo -> max_pixel array = Ok hi ->
        lo <= hi).
Proof.
  unfold max_pixel, min_pixel.
  pose proof (kept_pixels array) as Hk.
  destruct (filter (fun value => value <> 10000) array) as [|x l].
  - assert (forall v, v ∈ array -> v = 10000) as Hall.
    { intros v Hv. destruct (decide (v = 10000)) as [|Hne]; [assumption|].
      exfalso. apply (not_elem_of_nil v). apply Hk. auto. }
    split; [|split; [|split; [|split]]].
    + intros m. split; [discriminate|]. intros (Hm & Hne & _).
      now specialize (Hall m Hm).
    + intros m. split; [discriminate|]. intros (Hm & Hne & _).
      now specialize (Hall m Hm).
    + intros e. split; [intros [= <-]; auto|now intros [-> _]].
    + intros e. split; [intros [= <-]; auto|now intros [-> _]].
    + discriminate.
  - destruct (foldl_max_spec l x) as [Hmax_in Hmax].
    destruct (foldl_min_spec l x) as [Hmin_in Hmin].
    rewrite <- list_elem_of_In in Hmax_in, Hmin_in.
    assert (forall v, v ∈ array -> v <> 10000 -> In v (x :: l)) as Hin.
    { intros v Hv Hne. apply list_elem_of_In, Hk. auto. }
    split; [|split; [|split; [|split]]].
    + intros m. split.
      * intros [= <-]. apply Hk in Hmax_in as [? ?]. auto.
      * intros (Hm & Hne & Hle). f_equal. apply Z.le_antisymm.
        -- apply Hle; now apply Hk in Hmax_in as [? ?].
        -- apply Hmax. auto.
    + intros m. split.
      * intros [= <-]. apply Hk in Hmin_in as [? ?]. auto.
      * intros (Hm & Hne & Hle). f_equal. apply Z.le_antisymm.
        -- apply Hmin. auto.
        -- apply Hle; now apply Hk in Hmin_in as [? ?].
    + intros e. split; [discriminate|]. intros [_ Hall]. exfalso.
      assert (x ∈ x :: l) as Hx by apply list_elem_of_here.
      apply Hk in Hx as [Hx Hne]. now apply Hne, Hall.
    + intros e. split; [discriminate|]. intros [_ Hall]. exfalso.
      assert (x ∈ x :: l) as Hx by apply list_elem_of_here.
      apply Hk in Hx as [Hx Hne]. now apply Hne, Hall.
    + intros lo hi [= <-] [= <-].
      apply Hmax. now apply list_elem_of_In.
Qed.

Lemma pixel_extrema_witness :
  min_pixel [3; 10000; 7; 1] = Ok 1 /\ max_pixel [3; 10000; 7; 1] = Ok 7
  /\ 1 <= 7.
Proof.
  split; [reflexivity|]. split; [reflexivity|].
  apply (proj2 (proj2 (proj2 (proj2 (pixel_extrema [3; 10000; 7; 1]))))
           1 7); reflexivity.
Defined.

Lemma length_py_range_step n step :
  length (py_range_step n step) = ((n + step - 1) / step)%nat.
Proof. unfold py_range_step. now rewrite length_map, length_seq. Qed.

(** X13.  [decode_image_data] makes a volume only of a pixel stream that has
    exactly one sample per cell: with non-negative dimensions whose product
    differs from the number of strides of [bits // 8] bytes, the last stride
    counted even when it is short, it raises [ValueError]; nothing is padded
    and nothing is cut. *)
Theorem decode_image_data_size_mismatch
  (parsed_data : gmap string (list pyval)) (b : list byte)
  (bits planes rows columns : Z) :
  metadata_value parsed_data "00280100" = Ok (VInt bits) ->
  metadata_value parsed_data "00280010" = Ok (VInt rows) ->
  metadata_value parsed_data "00280011" = Ok (VInt columns) ->
  metadata_value parsed_data "00280008" = Ok (VInt planes) ->
  8 <= bits ->
  0 <= planes -> 0 <= rows -> 0 <= columns ->
  planes * rows * columns
  <> Z.of_nat ((length b + Z.to_nat (bits / 8) - 1) / Z.to_nat (bits / 8)) ->
  decode_image_data parsed_data (VBytes b) = Raise ValueError.
Proof.
  intros Hb Hr Hc Hp Hbits Hpl Hro Hco Hne.
  unfold decode_image_data. rewrite Hb, Hr, Hc, Hp. cbn [bind floordiv8].
  assert (0 < bits / 8) as Hstep by (apply Z.div_str_pos; lia).
  rewrite samples_bytes by exact Hstep. cbn [bind]. cbv zeta.
  set (flat := map _ (py_range_step (length b) (Z.to_nat (bits / 8)))).
  assert (reshape3 (snd (np_array flat)) (VInt planes) (VInt rows)
            (VInt columns) = Raise ValueError) as ->; [|reflexivity].
  unfold reshape3.
  destruct (as_dim (VInt planes)) as [p|e] eqn:Ep; cbn [bind];
    [|now rewrite (as_dim_raises _ _ Ep)].
  destruct (as_dim (VInt rows)) as [r|e] eqn:Er; cbn [bind];
    [|now rewrite (as_dim_raises _ _ Er)].
  destruct (as_dim (VInt columns)) as [c|e] eqn:Ec; cbn [bind];
    [|now rewrite (as_dim_raises _ _ Ec)].
  apply as_dim_int in Ep, Er, Ec.
  injection Ep as <-. injection Er as <-. injection Ec as <-.
  rewrite length_np_array. unfold flat.
  rewrite length_map, length_py_range_step.
  unfold resolve_shape. cbn [List.filter].
  destruct (Z.leb_spec 0 planes); [|lia].
  destruct (Z.leb_spec 0 rows); [|lia].
  destruct (Z.leb_spec 0 columns); [|lia].
  destruct (Z.ltb_spec planes 0); [lia|].
  destruct (Z.ltb_spec rows 0); [lia|].
  destruct (Z.ltb_spec columns 0); [lia|].
  cbn [length fold_right].
  destruct (Z.eqb_spec
              (Z.of_nat ((length b + Z.to_nat (bits / 8) - 1)
                         / Z.to_nat (bits / 8)))
              (planes * (rows * (columns * 1)))) as [E|_]; [|reflexivity].
  exfalso. apply Hne. rewrite E. ring.
Qed.

Lemma decode_image_data_size_mismatch_witness :
  decode_image_data (metadata 16 1 2 2) (VBytes [x01; x00; x02; x00; x03])
  = Raise ValueError.
Proof.
  apply (decode_image_data_size_mismatch (metadata 16 1 2 2)
           [x01; x00; x02; x00; x03] 16 1 2 2);
    try reflexivity; try (vm_compute; intuition congruence).
Defined.

(** X14. Cropping is idempotent: when the window of a crop lies within every
    axis, cropping the view that comes back once more to the same size returns
    that very view, and the store as it was. *)
Theorem crop_idempotent (h : gmap nat volume) (array : ndarray)
  (crop_size : Z) (ax0 ax1 ax2 : nat * nat) (view : ndarray) :
  axes array = [ax0; ax1; ax2] ->
  0 <= Z.of_nat (snd ax0) / 2 - crop_size / 2 ->
  0 <= crop_size ->
  Z.of_nat (snd ax0) / 2 - crop_size / 2 + crop_size <= Z.of_nat (snd ax0) ->
  Z.of_nat (snd ax0) / 2 - crop_size / 2 + crop_size <= Z.of_nat (snd ax1) ->
  Z.of_nat (snd ax0) / 2 - crop_size / 2 + crop_size <= Z.of_nat (snd ax2) ->
  crop h array crop_size = Ok (h, view) ->
  crop h view crop_size = Ok (h, view).
Proof.
  intros Hax H0 Hk H1 H2 H3. unfold crop at 1. rewrite Hax.
  set (start := Z.of_nat (snd ax0) / 2 - crop_size / 2) in *.
  assert (E : forall ax, start + crop_size <= Z.of_nat (snd ax) ->
            sub_axis start (start + crop_size) ax
            = ((fst ax + Z.to_nat start)%nat, Z.to_nat crop_size)).
  { intros ax Hle. rewrite sub_axis_inside by lia. do 2 f_equal. lia. }
  rewrite !E by assumption. intros [= <-].
  unfold crop. cbn [axes buffer snd].
  rewrite Z2Nat.id by exact Hk.
  replace (crop_size / 2 - crop_size / 2) with 0 by lia.
  assert (E' : forall o, sub_axis 0 (0 + crop_size) (o, Z.to_nat crop_size)
                         = (o, Z.to_nat crop_size)).
  { intros o. rewrite sub_axis_inside by (cbn [snd]; lia).
    cbn [fst]. f_equal; [|f_equal]; lia. }
  now rewrite !E'.
Qed.

Lemma crop_idempotent_witness :
  crop store4 {| buffer := 0; axes := [(1, 2); (1, 2); (1, 2)]%nat |} 2
  = Ok (store4, {| buffer := 0; axes := [(1, 2); (1, 2); (1, 2)]%nat |}).
Proof.
  apply (crop_idempotent store4 cube4 2 (0, 4)%nat (0, 4)%nat (0, 4)%nat);
    try reflexivity; vm_compute; congruence.
Defined.

Lemma list_alter_fixed {A} (f : A -> A) (l : list A) (i : nat) :
  (forall x, l !! i = Some x -> f x = x) -> alter f i l = l.
Proof.
  revert i. induction l as [|y l IH]; intros [|i] Hf; cbn; try reflexivity.
  - f_equal. now apply Hf.
  - f_equal. now apply IH.
Qed.

Lemma set_item_same h a ax0 ax1 ax2 i j k v :
  axes a = [ax0; ax1; ax2] ->
  sample_at (h !!! buffer a) (fst ax0 + i) (fst ax1 + j) (fst ax2 + k)
  = (fun _ => v) <$> sample_at (h !!! buffer a) (fst ax0 + i) (fst ax1 + j)
                       (fst ax2 + k) ->
  set_item h a i j k v = h.
Proof.
  intros Hax Hs. unfold set_item. rewrite Hax.
  apply alter_id. intros vol Hvol.
  unfold lookup_total, map_lookup_total in Hs. rewrite Hvol in Hs.
  cbn [default from_option id] in Hs.
  apply list_alter_fixed. intros plane Hplane.
  apply list_alter_fixed. intros row Hrow.
  unfold sample_at in Hs. rewrite Hplane, Hrow in Hs.
  destruct (row !! (fst ax2 + k)%nat) as [x|] eqn:E.
  - cbn in Hs. injection Hs as ->. now apply list_insert_id.
  - apply list_insert_ge. now apply lookup_ge_None.
Qed.

(** X15. Edge removal is idempotent: a second pass over the array that a first
    pass returned writes 10000 only where 10000 already is, and leaves the
    store exactly as the first pass left it. *)
Theorem remove_image_edges_idempotent (h h1 : gmap nat volume)
  (array out : ndarray) :
  is_Some (h !! buffer array) ->
  remove_image_edges h array = Ok (h1, out) ->
  remove_image_edges h1 out = Ok (h1, out).
Proof.
  intros Hb H.
  assert (Hax : exists ax0 ax1 ax2, axes array = [ax0; ax1; ax2]).
  { unfold remove_image_edges, shape in H.
    destruct (axes array) as [|ax0 [|ax1 [|ax2 [|? ?]]]]; try discriminate.
    eauto. }
  destruct Hax as (ax0 & ax1 & ax2 & Hax).
  assert (Hs : shape array = [snd ax0; snd ax1; snd ax2])
    by (unfold shape; now rewrite Hax).
  rewrite (remove_image_edges_cells h array _ _ _ Hs) in H.
  injection H as <- <-.
  rewrite (remove_image_edges_cells _ array _ _ _ Hs). do 2 f_equal.
  set (radius := Z.of_nat (snd ax0) / 2).
  set (cs := cells (snd ax0) (snd ax1) (snd ax2)).
  destruct (edges_pass radius array ax0 ax1 ax2 cs Hax h Hb) as (_ & _ & Hw).
  set (h1 := foldl _ h cs) in *.
  assert (forall cs', (forall c, In c cs' -> In c cs) ->
            foldl (fun h c =>
                     let '(layer, row, column) := c in
                     if outside_circle radius row column
                     then set_item h array layer row column 10000
                     else h) h1 cs' = h1) as Hfix.
  { induction cs' as [|[[i j] k] cs' IH]; intros Hsub; [reflexivity|].
    cbn [foldl].
    destruct (outside_circle radius j k) eqn:Eo.
    - rewrite (set_item_same h1 array ax0 ax1 ax2); cycle 1.
      + exact Hax.
      + rewrite !Hw.
        assert (In (i, j, k) cs) as Hin by (apply Hsub; now left).
        apply elem_of_cells in Hin as (Hi & Hj & Hk). unfold cs.
        rewrite (writes_own_cell radius ax0 ax1 ax2 _ _ _ i j k Hi Hj Hk).
        rewrite Eo.
        now destruct (sample_at (h !!! buffer array) _ _ _).
      + apply IH. intros c Hc. apply Hsub. now right.
    - apply IH. intros c Hc. apply Hsub. now right. }
  apply Hfix. auto.
Qed.

Lemma remove_image_edges_idempotent_witness :
  match remove_image_edges store4 cube4 with
  | Ok (h1, out) => remove_image_edges h1 out = Ok (h1, out)
  | Raise _ => False
  end.
Proof.
  destruct (remove_image_edges store4 cube4) as [[h1 out]|e] eqn:E.
  - apply (remove_image_edges_idempotent store4 h1 cube4 out).
    + vm_compute. eauto.
    + exact E.
  - vm_compute in E. discriminate.
Defined.

Lemma single_weight_at plane c m n :
  convolve_at plane [[c]] 1 1 m n
  = wrap64 (c * at2 plane (Z.of_nat m) (Z.of_nat n)).
Proof.
  unfold convolve_at. f_equal.
  cbn [seq flat_map map app Zsum fold_right].
  change ((Z.of_nat 1 - 1) / 2) with 0.
  change (at2 [[c]] (Z.of_nat 0) (Z.of_nat 0)) with c.
  change (Z.of_nat 0) with 0. rewrite !Z.add_0_r, !Z.sub_0_r. lia.
Qed.

Lemma at2_plane_of h array i m n :
  at2 (plane_of h array i) (Z.of_nat m) (Z.of_nat n)
  = default 0 (sample_at (contents h array) i m n).
Proof.
  unfold at2, plane_of, sample_at.
  destruct (Z.leb_spec 0 (Z.of_nat m)); [|lia].
  destruct (Z.leb_spec 0 (Z.of_nat n)); [|lia].
  cbn [andb]. rewrite !Nat2Z.id.
  destruct (contents h array !! i) as [plane|]; cbn [default from_option id].
  - destruct (plane !! m); reflexivity.
  - reflexivity.
Qed.

(** X16. With a kernel of one weight [c], an [int64], [apply_convolution]
    multiplies every sample by [c] in [int64] arithmetic and moves nothing:
    the kernel [[1]] copies the volume into the new array. *)
Theorem single_weight_kernel_scales (h : gmap nat volume) (array : ndarray)
  (c : Z) (n0 n1 n2 : nat) :
  - 2 ^ 63 <= c < 2 ^ 63 ->
  shape array = [n0; n1; n2] ->
  is_Some (h !! buffer array) ->
  exists h' new_array,
    apply_convolution h array [[c]] = Ok (h', new_array)
    /\ shape new_array = shape array
    /\ forall i m n, (i < n0)%nat -> (m < n1)%nat -> (n < n2)%nat ->
         sample_at (contents h' new_array) i m n
         = Some (wrap64 (c * default 0 (sample_at (contents h array) i m n)))
         /\ (c = 1 ->
             forall v, sample_at (contents h array) i m n = Some v ->
             - 2 ^ 63 <= v < 2 ^ 63 ->
             sample_at (contents h' new_array) i m n = Some v).
Proof.
  intros Hc Hs Hb.
  assert (kernel_weights [[c]] = Ok tt) as Hw
    by (apply kernel_weights_int64; repeat constructor; lia).
  rewrite (apply_convolution_result h array [[c]] 1 1 n0 n1 n2 eq_refl Hw
             Hs Hb).
  eexists _, _. split; [reflexivity|]. split; [now rewrite Hs|].
  intros i m n Hi Hm Hn.
  assert (sample_at
            (contents
               (<[fresh (dom h) :=
                    map (fun i => convolve_plane n1 n2 [[c]] 1 1
                                    (plane_of h array i)) (seq 0 n0)]> h)
               {| buffer := fresh (dom h);
                  axes := [(0, n0); (0, n1); (0, n2)]%nat |}) i m n
          = Some (wrap64 (c * default 0
                                (sample_at (contents h array) i m n)))) as E.
  { erewrite sample_at_contents by (try reflexivity; assumption).
    cbn [buffer fst Nat.add]. rewrite lookup_total_insert_eq.
    unfold sample_at at 1. rewrite lookup_map, lookup_seq_lt by exact Hi.
    cbn [fmap option_fmap option_map Nat.add].
    pose proof (sample_at_convolve_plane n1 n2 [[c]] 1 1
                  (plane_of h array i) m n Hm Hn) as E.
    rewrite single_weight_at, at2_plane_of in E.
    destruct (convolve_plane n1 n2 [[c]] 1 1 (plane_of h array i) !! m);
      exact E. }
  split; [exact E|].
  intros -> v Hv Hr. rewrite E, Hv. cbn [default from_option id].
  f_equal. unfold wrap64, to_signed.
  replace (1 * v) with v by lia.
  change (2 ^ (64 - 1)) with (2 ^ 63).
  destruct (Z.ltb_spec (v mod 2 ^ 64) (2 ^ 63)) as [Hlt|Hge].
  - destruct (Z.lt_ge_cases v 0) as [Hn'|Hp].
    + rewrite <- (Z.mod_add v 1 (2 ^ 64)) in Hlt by lia.
      rewrite Z.mod_small in Hlt by lia. lia.
    + apply Z.mod_small. lia.
  - destruct (Z.lt_ge_cases v 0) as [Hn'|Hp].
    + rewrite <- (Z.mod_add v 1 (2 ^ 64)) by lia.
      rewrite Z.mod_small by lia. lia.
    + rewrite Z.mod_small in Hge by lia. lia.
Qed.

Lemma single_weight_kernel_scales_witness :
  exists h' new_array,
    apply_convolution store4 cube4 [[1]] = Ok (h', new_array)
    /\ shape new_array = shape cube4
    /\ forall i m n, (i < 4)%nat -> (m < 4)%nat -> (n < 4)%nat ->
         sample_at (contents h' new_array) i m n
         = Some (wrap64 (1 * default 0
                               (sample_at (contents store4 cube4) i m n)))
         /\ (1 = 1 ->
             forall v, sample_at (contents store4 cube4) i m n = Some v ->
             - 2 ^ 63 <= v < 2 ^ 63 ->
             sample_at (contents h' new_array) i m n = Some v).
Proof.
  apply (single_weight_kernel_scales store4 cube4 1 4 4 4).
  - lia.
  - reflexivity.
  - vm_compute. eauto.
Defined.

Lemma convolution_loop_raised (array new_array : ndarray) kernel n1 n2 e :
  forall l : list nat,
  foldl (fun acc i =>
           let* hi := acc in
           let* out := convolve2d n1 n2 (plane_of hi array i) kernel in
           Ok (set_plane hi new_array i out)) (Raise e) l
  = Raise e.
Proof. induction l as [|i l IH]; cbn [foldl bind]; auto. Qed.

Lemma convolution_loop_raises (array new_array : ndarray) kernel n1 n2 e h0
  (i : nat) (l : list nat) :
  kernel_shape kernel = Raise e ->
  foldl (fun acc i =>
           let* hi := acc in
           let* out := convolve2d n1 n2 (plane_of hi array i) kernel in
           Ok (set_plane hi new_array i out)) (Ok h0) (i :: l)
  = Raise e.
Proof.
  intros Hk. cbn [foldl bind].
  assert (convolve2d n1 n2 (plane_of h0 array i) kernel = Raise e) as ->
    by (unfold convolve2d; now rewrite Hk).
  cbn [bind]. apply convolution_loop_raised.
Qed.

(** X17. A kernel that numpy cannot make a 2-D array of, the empty list or
    rows of different lengths, is refused with [ValueError] by the first call
    of [convolve2d]; on a volume without planes no call is made, and
    [apply_convolution] returns the new, empty array whatever the kernel. *)
Theorem apply_convolution_bad_kernel (h : gmap nat volume) (array : ndarray)
  (kernel : list (list Z)) (n0 n1 n2 : nat) (e : exn) :
  shape array = [n0; n1; n2] ->
  kernel_shape kernel = Raise e ->
  e = ValueError
  /\ ((0 < n0)%nat -> apply_convolution h array kernel = Raise ValueError)
  /\ (n0 = 0%nat -> is_ok (apply_convolution h array kernel) = true).
Proof.
  intros Hs Hk.
  assert (e = ValueError) as ->.
  { unfold kernel_shape in Hk. destruct kernel as [|row rows]; [congruence|].
    destruct (forallb _ rows); congruence. }
  split; [reflexivity|]. unfold apply_convolution. rewrite Hs.
  unfold zeros_like. split.
  - intros Hn. destruct n0 as [|n0]; [lia|]. cbn [seq].
    now rewrite (convolution_loop_raises array _ kernel n1 n2 ValueError _ _ _
                   Hk).
  - intros ->. reflexivity.
Qed.

Lemma apply_convolution_bad_kernel_witness :
  ValueError = ValueError
  /\ ((0 < 4)%nat ->
      apply_convolution store4 cube4 [[1; 2]; [3]] = Raise ValueError)
  /\ (4%nat = 0%nat ->
      is_ok (apply_convolution store4 cube4 [[1; 2]; [3]]) = true).
Proof.
  apply (apply_convolution_bad_kernel store4 cube4 [[1; 2]; [3]] 4 4 4);
    reflexivity.
Defined.

End TransformFacts.

(** * Further facts about the uniformity engine *)

Module EngineFacts.
Import Py Uniformity FloatKeys FloatFacts UniformitySpec EngineSpec ListFacts.
Import UniformityFacts.
Local Open Scope float_scope.

Lemma ltb_asym x y : (x <? y) = true -> (y <? x) = false.
Proof.
  intros H. destruct (y <? x) eqn:E; [|reflexivity].
  rewrite <- (ltb_irrefl x). symmetry. eapply ltb_trans; eassumption.
Qed.

Lemma positive_key_inj f g k :
  key_lt (0%Z, 0%Z, 0%Z) k -> sf_key f = Some k -> sf_key g = Some k -> f = g.
Proof.
  intros Hk Hf Hg. rewrite <- Hf in Hg.
  destruct f as [s| s| |s m e]; cbn [sf_key] in Hf; try discriminate;
    injection Hf as Hf; subst k; unfold key_lt in Hk;
    try (destruct s; lia).
  - destruct g as [s'| s'| |s' m' e']; cbn [sf_key] in Hg; try discriminate;
      destruct s, s'; try discriminate; try reflexivity; lia.
  - destruct g as [s'| s'| |s' m' e']; cbn [sf_key] in Hg; try discriminate;
      destruct s, s'; try discriminate; try lia.
    injection Hg as -> ->. reflexivity.
Qed.

Lemma positive_equal q1 q2 :
  (0 <? q1) = true -> is_nan q2 = false ->
  (q1 <? q2) = false -> (q2 <? q1) = false -> q1 = q2.
Proof.
  intros H0 Hn H12 H21.
  apply ltb_key in H0 as (a & b & Ha & Hb & Hab).
  apply is_nan_key in Hn as (c & Hc).
  assert (a = (0%Z, 0%Z, 0%Z)) as -> by (vm_compute in Ha; congruence).
  assert (b = c) as <-.
  { apply key_trichotomy.
    - intros Hlt. assert ((q1 <? q2) = true) as E
        by (apply ltb_key; eauto). congruence.
    - intros Hlt. assert ((q2 <? q1) = true) as E
        by (apply ltb_key; eauto). congruence. }
  apply Prim2SF_inj. exact (positive_key_inj _ _ b Hab Hb Hc).
Qed.

Lemma py_max_zero_or_positive a b :
  zero_or_positive a -> zero_or_positive b ->
  zero_or_positive (py_max a b) /\ py_max a b = py_max b a.
Proof.
  intros Ha Hb. split.
  - unfold py_max. now destruct (float_of_number a <? float_of_number b).
  - unfold py_max.
    destruct Ha as [->|(q1 & -> & H1)], Hb as [->|(q2 & -> & H2)];
      cbn [float_of_number].
    + reflexivity.
    + change (float_of_Z 0) with 0%float. rewrite H2.
      now rewrite (ltb_asym _ _ H2).
    + change (float_of_Z 0) with 0%float. rewrite H1.
      now rewrite (ltb_asym _ _ H1).
    + destruct (q1 <? q2) eqn:E12.
      * now rewrite (ltb_asym _ _ E12).
      * destruct (q2 <? q1) eqn:E21; [reflexivity|].
        f_equal. apply positive_equal; auto.
        eapply ltb_not_nan_r, H2.
Qed.

Lemma calculate_uniformity_zero_or_positive slices :
  zero_or_positive (_calculate_uniformity slices).
Proof.
  unfold _calculate_uniformity. apply foldl_invariant; [now left|].
  intros acc s Hacc. rewrite uniformity_step_ratio.
  destruct (extrema_ratio_of (valid s)) as [q|]; [|exact Hacc].
  unfold py_max. cbn [float_of_number].
  destruct (float_of_number acc <? q) eqn:E; [|exact Hacc].
  right. exists q. split; [reflexivity|].
  destruct Hacc as [->|(q' & -> & Hq')]; cbn [float_of_number] in E.
  - exact E.
  - eapply ltb_trans; eassumption.
Qed.

(** X18. [differential] does not depend on which of its two scans completes
    first: the value is the same whether the pool hands back the horizontal
    result or the vertical one first. *)
Theorem differential_order_independent (self : UniformityLayer) :
  differential true self = differential false self.
Proof.
  unfold differential. destruct (cropped_data self) as [data|];
    [|reflexivity].
  f_equal.
  apply py_max_zero_or_positive; apply calculate_uniformity_zero_or_positive.
Qed.

Lemma abs_not_negative x : (abs x <? 0) = false.
Proof.
  destruct (abs x <? 0) eqn:E; [|reflexivity].
  apply ltb_key in E as (a & b & Ha & Hb & Hab).
  assert (b = (0%Z, 0%Z, 0%Z)) as -> by (vm_compute in Hb; congruence).
  rewrite FloatAxioms.abs_spec in Ha.
  destruct (Prim2SF x) as [s| s| |s m e]; cbn [SFabs sf_key] in Ha;
    try discriminate; injection Ha as <-; unfold key_lt in Hab; lia.
Qed.

(** X19. Neither figure is ever negative: [differential] returns the [int] 0
    or a [float64] strictly above zero, never [nan]; [integral] returns the
    [int] 0 or the absolute value that it computes, which is not below zero. *)
Theorem uniformity_never_negative (self : UniformityLayer)
  (horizontal_first : bool) :
  zero_or_positive (snd (differential horizontal_first self))
  /\ (float_of_number (snd (differential horizontal_first self)) <? 0) = false
  /\ is_nan (float_of_number (snd (differential horizontal_first self)))
     = false
  /\ (float_of_number (snd (integral self)) <? 0) = false.
Proof.
  assert (zero_or_positive (snd (differential horizontal_first self))) as Hd.
  { unfold differential. destruct (cropped_data self) as [data|];
      cbn [snd]; [|now left].
    destruct horizontal_first;
      apply py_max_zero_or_positive;
      apply calculate_uniformity_zero_or_positive. }
  split; [exact Hd|]. split; [|split].
  - destruct Hd as [->|(q & -> & Hq)]; cbn [float_of_number].
    + reflexivity.
    + now apply ltb_asym.
  - destruct Hd as [->|(q & -> & Hq)]; cbn [float_of_number].
    + reflexivity.
    + eapply ltb_not_nan_r, Hq.
  - unfold integral. destruct (cropped_data self) as [data|];
      cbn [snd]; [|reflexivity].
    destruct (valid (concat (grayscale data))) as [|x l];
      cbn [snd float_of_number]; [reflexivity|].
    apply abs_not_negative.
Qed.

Lemma valid_grayscale data :
  valid (concat (grayscale data)) = brightness (concat data).
Proof.
  rewrite grayscale_rows.
  replace (concat (map (map gray) data)) with (map gray (concat data))
    by apply concat_map.
  apply valid_gray.
Qed.

Lemma gray_same_visible p p' : same_visible p p' -> gray p = gray p'.
Proof.
  intros [Hv Hc]. unfold gray. fold (visible p) (visible p'). rewrite <- Hv.
  destruct (visible p); [|reflexivity].
  destruct (Hc eq_refl) as (Hr & Hg & Hb).
  unfold luminance. now rewrite Hr, Hg, Hb.
Qed.

Lemma gray_row_same_visible row row' :
  Forall2 same_visible row row' -> map gray row = map gray row'.
Proof.
  induction 1 as [|p p' row row' Hp _ IH]; [reflexivity|].
  cbn [map]. rewrite IH. f_equal. now apply gray_same_visible.
Qed.

Lemma grayscale_same_visible data data' :
  Forall2 (Forall2 same_visible) data data' ->
  grayscale data = grayscale data'.
Proof.
  rewrite (grayscale_rows data), (grayscale_rows data').
  induction 1 as [|row row' data data' Hrow _ IH]; [reflexivity|].
  cbn [map]. rewrite IH. f_equal. now apply gray_row_same_visible.
Qed.

(** X20. The two figures see a pixel only through its colour and through
    whether its alpha is zero: images that agree on which pixels are excluded
    and on the colours of the others give the same [differential] and the same
    [integral], whatever the colours of the excluded pixels, the alpha levels
    of the others and the other fields of the layer; [integral] depends only
    on the brightness values of the pixels that are not excluded, not on where
    they lie. *)
Theorem uniformity_ignores_excluded_pixels (self self' : UniformityLayer)
  (data data' : list (list rgba)) (horizontal_first : bool) :
  cropped_data self = Some data ->
  cropped_data self' = Some data' ->
  (Forall2 (Forall2 same_visible) data data' ->
   differential horizontal_first self = differential horizontal_first self'
   /\ integral self = integral self')
  /\ (brightness (concat data) = brightness (concat data') ->
      integral self = integral self').
Proof.
  intros Hd Hd'. split.
  - intros H. apply grayscale_same_visible in H.
    unfold differential, integral. rewrite Hd, Hd', H. auto.
  - intros H. unfold integral. rewrite Hd, Hd', !valid_grayscale, H.
    reflexivity.
Qed.

Lemma uniformity_ignores_excluded_pixels_witness :
  (Forall2 (Forall2 same_visible)
     [[pixel x64 xff; pixel x07 x00]] [[pixel x64 x01; pixel xc8 x00]] ->
   differential true (layer_of [[pixel x64 xff; pixel x07 x00]])
   = differential true
       {| bin_data := [[[x01]]]; circ_rad := 9;
          cropped_data := Some [[pixel x64 x01; pixel xc8 x00]] |}
   /\ integral (layer_of [[pixel x64 xff; pixel x07 x00]])
      = integral
          {| bin_data := [[[x01]]]; circ_rad := 9;
             cropped_data := Some [[pixel x64 x01; pixel xc8 x00]] |})
  /\ (brightness (concat [[pixel x64 xff; pixel x07 x00]])
      = brightness (concat [[pixel x64 x01; pixel xc8 x00]]) ->
      integral (layer_of [[pixel x64 xff; pixel x07 x00]])
      = integral
          {| bin_data := [[[x01]]]; circ_rad := 9;
             cropped_data := Some [[pixel x64 x01; pixel xc8 x00]] |}).
Proof.
  apply (uniformity_ignores_excluded_pixels
           (layer_of [[pixel x64 xff; pixel x07 x00]])
           {| bin_data := [[[x01]]]; circ_rad := 9;
              cropped_data := Some [[pixel x64 x01; pixel xc8 x00]] |}
           [[pixel x64 xff; pixel x07 x00]]
           [[pixel x64 x01; pixel xc8 x00]] true); reflexivity.
Defined.

Lemma in_slice {A} (i j : nat) (l : list A) (a : A) :
  In a (slice i j l) -> In a l.
Proof.
  unfold slice. rewrite <- !list_elem_of_In. intros H.
  apply elem_of_take in H as (k & Hk & _). rewrite lookup_drop in Hk.
  now apply list_elem_of_lookup_2 in Hk.
Qed.

Lemma h_window_in_image data y x p :
  In p (h_window data y x) -> In p (concat data).
Proof.
  unfold h_window. intros H. apply in_slice in H.
  destruct (data !! y) as [row|] eqn:E; cbn [default from_option id] in H;
    [|destruct H].
  apply in_concat. exists row. split; [|exact H].
  apply list_elem_of_In. now apply list_elem_of_lookup_2 in E.
Qed.

Lemma v_window_in_image data y x p :
  In p (v_window data y x) -> In p (concat data).
Proof.
  unfold v_window. rewrite <- list_elem_of_In, list_elem_of_omap.
  intros (row & Hrow & Hp). apply in_concat. exists row. split.
  - apply (in_slice y (y + 5)). now apply list_elem_of_In.
  - apply list_elem_of_In. now apply list_elem_of_lookup_2 in Hp.
Qed.

Lemma extrema_of_equals (x : float) (l : list float) :
  (forall v, In v l -> v = x) -> nanmax x l = x /\ nanmin x l = x.
Proof.
  unfold nanmax, nanmin. induction l as [|y l IH]; intros H; [auto|].
  cbn [foldl]. assert (y = x) as -> by (apply H; now left).
  unfold fmax at 2, fmin at 2. rewrite ltb_irrefl.
  apply IH. intros v Hv. apply H. now right.
Qed.

Lemma gray_level_ratio (level : byte) :
  (float_of_Z 0 <? extrema_ratio (luminance (pixel level xff))
                     (luminance (pixel level xff))) = false
  /\ (level <> x00 ->
      extrema_ratio (luminance (pixel level xff))
        (luminance (pixel level xff)) = 0).
Proof.
  destruct level; (split; [vm_compute; reflexivity|]);
    first [intros _; vm_compute; reflexivity | intros H; now destruct H].
Qed.

Lemma luminance_gray (level : byte) (p : rgba) :
  red p = level /\ green p = level /\ blue p = level ->
  luminance p = luminance (pixel level xff).
Proof. intros (Hr & Hg & Hb). unfold luminance. cbn. now rewrite Hr, Hg, Hb. Qed.

Lemma uniform_window_step (level : byte) (pixels : list rgba) :
  (forall p, In p pixels -> visible p = true ->
     red p = level /\ green p = level /\ blue p = level) ->
  uniformity_step (PyInt 0) (map gray pixels) = PyInt 0.
Proof.
  intros Hu. rewrite uniformity_step_ratio, valid_gray.
  set (L := luminance (pixel level xff)).
  assert (forall v, In v (brightness pixels) -> v = L) as Hall.
  { intros v Hv. unfold brightness in Hv. apply in_map_iff in Hv
      as (p & <- & Hp). apply filter_In in Hp as [Hp Hvis].
    apply luminance_gray. auto. }
  destruct (brightness pixels) as [|x [|y l]]; try reflexivity.
  unfold extrema_ratio_of.
  assert (x = L) as -> by (apply Hall; now left).
  destruct (extrema_of_equals L (y :: l)) as [-> ->].
  { intros v Hv. apply Hall. now right. }
  destruct (L + L =? 0); [reflexivity|].
  unfold py_max. cbn [float_of_number]. unfold L.
  now rewrite (proj1 (gray_level_ratio level)).
Qed.

(** X21. An image of one gray level has no non-uniformity: when every pixel
    that is not excluded has red, green and blue equal to one level,
    [differential] returns the [int] 0, and, when the level is not 0 and some
    pixel is not excluded, [integral] returns the [float64] 0.0. *)
Theorem uniform_image_scores_zero (self : UniformityLayer)
  (data : list (list rgba)) (level : byte) (horizontal_first : bool) :
  cropped_data self = Some data ->
  (forall p, In p (concat data) -> visible p = true ->
     red p = level /\ green p = level /\ blue p = level) ->
  differential horizontal_first self = ([], PyInt 0)
  /\ (level <> x00 ->
      (exists p, In p (concat data) /\ visible p = true) ->
      integral self = ([], Float64 0)).
Proof.
  intros Hd Hu. split.
  - unfold differential. rewrite Hd.
    assert (_calculate_uniformity (horizontal_slices (grayscale data))
            = PyInt 0) as ->.
    { unfold _calculate_uniformity.
      assert (forall ss, (forall s, In s ss ->
                            In s (horizontal_slices (grayscale data))) ->
                foldl uniformity_step (PyInt 0) ss = PyInt 0) as H.
      { induction ss as [|s ss IH]; intros Hss; [reflexivity|].
        cbn [foldl].
        destruct (proj1 (in_horizontal_slices data s) (Hss s (or_introl eq_refl)))
          as (y & x & _ & _ & ->).
        rewrite (uniform_window_step level).
        - apply IH. intros s' Hs'. apply Hss. now right.
        - intros p Hp. apply Hu. eapply h_window_in_image, Hp. }
      apply H. auto. }
    assert (_calculate_uniformity (vertical_slices (grayscale data))
            = PyInt 0) as ->.
    { unfold _calculate_uniformity.
      assert (forall ss, (forall s, In s ss ->
                            In s (vertical_slices (grayscale data))) ->
                foldl uniformity_step (PyInt 0) ss = PyInt 0) as H.
      { induction ss as [|s ss IH]; intros Hss; [reflexivity|].
        cbn [foldl].
        destruct (proj1 (in_vertical_slices data s) (Hss s (or_introl eq_refl)))
          as (y & x & _ & _ & ->).
        rewrite (uniform_window_step level).
        - apply IH. intros s' Hs'. apply Hss. now right.
        - intros p Hp. apply Hu. eapply v_window_in_image, Hp. }
      apply H. auto. }
    now destruct horizontal_first.
  - intros Hl (p0 & Hin0 & Hv0). unfold integral.
    rewrite Hd, valid_grayscale.
    set (L := luminance (pixel level xff)).
    assert (forall v, In v (brightness (concat data)) -> v = L) as Hall.
    { intros v Hv. unfold brightness in Hv. apply in_map_iff in Hv
        as (p & <- & Hp). apply filter_In in Hp as [Hp Hvis].
      apply luminance_gray. auto. }
    assert (In (luminance p0) (brightness (concat data))) as Hne.
    { unfold brightness. apply in_map. apply filter_In. auto. }
    destruct (brightness (concat data)) as [|x l]; [destruct Hne|].
    assert (x = L) as -> by (apply Hall; now left).
    destruct (extrema_of_equals L l) as [-> ->].
    { intros v Hv. apply Hall. now right. }
    unfold L. now rewrite (proj2 (gray_level_ratio level) Hl).
Qed.

Lemma uniform_image_scores_zero_witness :
  differential true (layer_of (gray_image x80)) = ([], PyInt 0)
  /\ (x80 <> x00 ->
      (exists p, In p (concat (gray_image x80)) /\ visible p = true) ->
      integral (layer_of (gray_image x80)) = ([], Float64 0)).
Proof.
  apply (uniform_image_scores_zero (layer_of (gray_image x80))
           (gray_image x80) x80 true).
  - reflexivity.
  - intros p Hp Hv. cbn in Hp.
    repeat (destruct Hp as [<-|Hp]; [first [discriminate Hv | now auto]|]).
    destruct Hp.
Defined.

(** X22. [differential] needs a run of five pixels: on an image with fewer
    than five rows and fewer than five columns no window exists, and the
    result is the [int] 0 whatever the pixels are. *)
Theorem differential_of_small_image (self : UniformityLayer)
  (data : list (list rgba)) (horizontal_first : bool) :
  cropped_data self = Some data ->
  (length data < 5)%nat -> (width data < 5)%nat ->
  differential horizontal_first self = ([], PyInt 0).
Proof.
  intros Hd Hrows Hcols. unfold differential. rewrite Hd.
  assert (horizontal_slices (grayscale data) = []) as ->.
  { unfold horizontal_slices. rewrite width_grayscale.
    replace (width data - 4)%nat with 0%nat by lia. cbn [seq map].
    induction (seq 0 (length (grayscale data))); auto. }
  assert (vertical_slices (grayscale data) = []) as ->.
  { unfold vertical_slices. rewrite (grayscale_rows data), length_map.
    replace (length data - 4)%nat with 0%nat by lia. cbn [seq map].
    induction (seq 0 (width (map (map gray) data))); auto. }
  now destruct horizontal_first.
Qed.

Lemma differential_of_small_image_witness :
  differential false (layer_of [[pixel x00 xff; pixel xff xff]])
  = ([], PyInt 0).
Proof.
  apply (differential_of_small_image
           (layer_of [[pixel x00 xff; pixel xff xff]])
           [[pixel x00 xff; pixel xff xff]] false).
  - reflexivity.
  - cbn. lia.
  - cbn. lia.
Defined.

End EngineFacts.

(** * Facts about the file functions *)

Module FilesFacts.
Import Py Dicom Files DicomSpec ListFacts DicomFacts StringFacts.

Lemma str_endswith_spec (suffix s : string) :
  str_endswith suffix s = true <-> exists stem, s = stem ++ suffix.
Proof.
  unfold str_endswith. rewrite andb_true_iff, String.eqb_eq, Nat.leb_le.
  split.
  - intros [E _].
    pose proof (str_from_split (String.length s - String.length suffix) s)
      as Hs.
    rewrite E in Hs. eauto.
  - intros [stem ->]. rewrite length_append. split; [|lia].
    replace (String.length stem + String.length suffix
             - String.length suffix)%nat with (String.length stem) by lia.
    unfold str_from.
    rewrite <- (string_of_list_ascii_of_string stem),
      <- (string_of_list_ascii_of_string suffix), <- string_of_list_ascii_app,
      !list_ascii_of_string_of_list_ascii, length_string_of_list_ascii,
      drop_app_length.
    reflexivity.
Qed.

Lemma decode_image_data_reads parsed_data image_data volume_data :
  decode_image_data parsed_data image_data = Ok volume_data ->
  exists bits rows columns planes,
    metadata_value parsed_data "00280100" = Ok (VInt bits)
    /\ metadata_value parsed_data "00280010" = Ok (VInt rows)
    /\ metadata_value parsed_data "00280011" = Ok (VInt columns)
    /\ metadata_value parsed_data "00280008" = Ok (VInt planes)
    /\ bits / 8 <> 0.
Proof.
  unfold decode_image_data.
  destruct (metadata_value parsed_data "00280100") as [bits|]; cbn [bind];
    [|discriminate].
  destruct bits as [|bits| | | |]; cbn [bind floordiv8]; try discriminate.
  destruct (samples image_data (bits / 8)) as [flat|] eqn:Es; cbn [bind];
    [|discriminate].
  destruct (metadata_value parsed_data "00280010") as [rows|]; cbn [bind];
    [|discriminate].
  destruct (metadata_value parsed_data "00280011") as [columns|]; cbn [bind];
    [|discriminate].
  destruct (metadata_value parsed_data "00280008") as [planes|]; cbn [bind];
    [|discriminate].
  cbv zeta. unfold reshape3.
  destruct (as_dim planes) as [p|] eqn:Ep; cbn [bind]; [|discriminate].
  destruct (as_dim rows) as [r|] eqn:Er; cbn [bind]; [|discriminate].
  destruct (as_dim columns) as [c|] eqn:Ec; cbn [bind]; [|discriminate].
  apply as_dim_int in Ep, Er, Ec. subst planes rows columns.
  intros _. exists bits, r, c, p.
  repeat split; try reflexivity.
  intros E. rewrite E in Es. unfold samples in Es.
  destruct (py_len image_data); cbn [bind] in Es; discriminate.
Qed.

(** X23. [load_dicom_image] checks in the order of the source: a path that
    names no file is refused with [FileNotFoundError] whatever its extension;
    a file whose name does not end in [.dcm] is refused with [ValueError]
    before a byte of it is read; the call always ends; and when it returns,
    the path ends in [.dcm], the dictionary is the one that [parse_binary]
    made of the file, and that dictionary has the bits allocated, at least 8,
    the rows, the columns and the number of frames as integers: a file without
    one of the four is not loaded. *)
Theorem load_dicom_image_checks (depth : nat) (elements : gmap string string)
  (files : gmap string (list byte)) (filepath : string) :
  (files !! filepath = None ->
   load_dicom_image depth elements files filepath = Some FileNotFound)
  /\ (forall data, files !! filepath = Some data ->
        str_endswith ".dcm" filepath = false ->
        load_dicom_image depth elements files filepath
        = Some (Raised ValueError))
  /\ (exists o, load_dicom_image depth elements files filepath = Some o)
  /\ (forall parsed_data volume_data,
        load_dicom_image depth elements files filepath
        = Some (Returned (parsed_data, volume_data)) ->
        (exists stem, filepath = stem ++ ".dcm")
        /\ exists data image_data bits rows columns planes,
             files !! filepath = Some data
             /\ parse_binary depth elements data
                = Some (Ok (parsed_data, image_data))
             /\ decode_image_data parsed_data image_data = Ok volume_data
             /\ metadata_value parsed_data "00280100" = Ok (VInt bits)
             /\ metadata_value parsed_data "00280010" = Ok (VInt rows)
             /\ metadata_value parsed_data "00280011" = Ok (VInt columns)
             /\ metadata_value parsed_data "00280008" = Ok (VInt planes)
             /\ (bits < 0 \/ 8 <= bits)).
Proof.
  unfold load_dicom_image, isfile, get_dicom_data.
  split; [|split; [|split]].
  - now intros ->.
  - intros data -> ->. reflexivity.
  - destruct (files !! filepath) as [data|]; cbn [negb]; [|eauto].
    destruct (str_endswith ".dcm" filepath); cbn [negb]; [|eauto].
    destruct (parse_binary_total depth elements data) as [r ->].
    destruct r as [[parsed image]|e]; eauto.
  - intros parsed_data volume_data.
    destruct (files !! filepath) as [data|]; cbn [negb]; [|discriminate].
    destruct (str_endswith ".dcm" filepath) eqn:Es; cbn [negb];
      [|discriminate].
    destruct (parse_binary depth elements data) as [[[parsed image]|e]|]
      eqn:Epb; try discriminate.
    destruct (decode_image_data parsed image) as [vol|] eqn:Ed; cbn [bind of_result];
      [|discriminate].
    intros [= <- <-]. split; [now apply str_endswith_spec|].
    destruct (decode_image_data_reads _ _ _ Ed)
      as (bits & rows & columns & planes & Hb & Hr & Hc & Hp & Hne).
    exists data, image, bits, rows, columns, planes.
    repeat (split; [first [reflexivity|assumption]|]).
    destruct (Z.lt_ge_cases bits 0) as [|H0]; [now left|right].
    destruct (Z.lt_ge_cases bits 8) as [H8|]; [|assumption].
    exfalso. apply Hne. apply Z.div_small. lia.
Qed.

Lemma load_dicom_image_checks_witness :
  load_dicom_image 5 ∅ {[ "scan.txt" := [x00] ]} "scan.dcm"
  = Some FileNotFound
  /\ load_dicom_image 5 ∅ {[ "scan.txt" := [x00] ]} "scan.txt"
     = Some (Raised ValueError).
Proof.
  split.
  - apply (proj1 (load_dicom_image_checks 5 ∅ {[ "scan.txt" := [x00] ]}
                    "scan.dcm")).
    reflexivity.
  - apply (proj1 (proj2 (load_dicom_image_checks 5 ∅
                           {[ "scan.txt" := [x00] ]} "scan.txt")) [x00]);
      reflexivity.
Defined.

(** X24. The configuration file is edited in place and read back: an edit
    succeeds exactly when a read of the same key does; after it, reading the
    key returns the new value, every other key reads as before, and no key has
    been added; an edit that raises raises what the read raises, and leaves
    the file as it was. *)
Theorem edit_config_file_round_trip {V : Type}
  (config : option (gmap string V)) (key : string) (value : V) :
  (forall old, read_config_file config key = Returned old ->
     exists data',
       edit_config_file config key value = (Returned tt, Some data')
       /\ read_config_file (Some data') key = Returned value
       /\ (forall k, k <> key ->
             read_config_file (Some data') k = read_config_file config k)
       /\ (forall k, (exists v, read_config_file (Some data') k = Returned v)
                     <-> (exists v, read_config_file config k = Returned v)))
  /\ (read_config_file config key = FileNotFound ->
      edit_config_file config key value = (FileNotFound, config))
  /\ (forall e, read_config_file config key = Raised e ->
      e = KeyError
      /\ edit_config_file config key value = (Raised KeyError, config)).
Proof.
  unfold edit_config_file, read_config_file.
  destruct config as [data|].
  - destruct (data !! key) as [old|] eqn:E.
    + split; [|split; [discriminate|discriminate]].
      intros old' _. eexists. split; [reflexivity|].
      rewrite lookup_insert_eq. split; [reflexivity|]. split.
      * intros k Hk. now rewrite lookup_insert_ne by congruence.
      * intros k. destruct (decide (k = key)) as [->|Hk].
        -- rewrite lookup_insert_eq, E. split; eauto.
        -- now rewrite lookup_insert_ne by congruence.
    + split; [discriminate|]. split; [discriminate|].
      intros e [= <-]. auto.
  - split; [discriminate|]. split; [reflexivity|discriminate].
Qed.

Lemma edit_config_file_round_trip_witness :
  exists data',
    edit_config_file (Some {[ "crop_amount" := 40; "step" := 2 ]})
      "crop_amount" 64
    = (Returned tt, Some data')
    /\ read_config_file (Some data') "crop_amount" = Returned 64
    /\ (forall k, k <> "crop_amount" ->
          read_config_file (Some data') k
          = read_config_file (Some {[ "crop_amount" := 40; "step" := 2 ]}) k)
    /\ (forall k, (exists v, read_config_file (Some data') k = Returned v)
                  <-> (exists v,
                         read_config_file
                           (Some {[ "crop_amount" := 40; "step" := 2 ]}) k
                         = Returned v)).
Proof.
  apply (proj1 (edit_config_file_round_trip
                  (Some {[ "crop_amount" := 40; "step" := 2 ]})
                  "crop_amount" 64) 40).
  reflexivity.
Defined.

End FilesFacts.

(** * Facts about the functions of the interface *)

Module GuiFacts.
Import Py Dicom Gui DicomSpec ListFacts DicomFacts StringFacts.

Lemma length_spaces n : String.length (spaces n) = n.
Proof.
  unfold spaces. now rewrite length_string_of_list_ascii, repeat_length.
Qed.

(** X25. [normalize_directory] makes every directory name 30 characters long,
    as its docstring says: a name of 25 characters or more is cut to its last
    25, behind a quote and three dots and before a quote; a shorter one is
    kept whole between quotes and padded with spaces. *)
Theorem normalize_directory_length (directory : string) :
  String.length (normalize_directory directory) = 30%nat
  /\ ((25 <= String.length directory)%nat ->
      exists cut kept,
        directory = cut ++ kept /\ String.length kept = 25%nat
        /\ normalize_directory directory = quote ++ "..." ++ kept ++ quote)
  /\ ((String.length directory < 25)%nat ->
      exists padding,
        normalize_directory directory
        = quote ++ directory ++ quote ++ padding).
Proof.
  unfold normalize_directory.
  destruct (Nat.leb_spec 25 (String.length directory)) as [H|H].
  - split; [|split; [|lia]].
    + rewrite !length_append, length_str_from. cbn. lia.
    + intros _. eexists _, _. split; [apply (str_from_split
        (String.length directory - 25))|].
      split; [rewrite length_str_from; lia|]. reflexivity.
  - split; [|split; [lia|]].
    + rewrite !length_append, length_spaces. cbn. lia.
    + intros _. eexists.
      rewrite !append_assoc. reflexivity.
Qed.

Lemma normalize_directory_length_witness :
  exists cut kept,
    "/home/physics/gamma/uniformity/scans" = cut ++ kept
    /\ String.length kept = 25%nat
    /\ normalize_directory "/home/physics/gamma/uniformity/scans"
       = quote ++ "..." ++ kept ++ quote.
Proof.
  apply (proj1 (proj2 (normalize_directory_length
                         "/home/physics/gamma/uniformity/scans"))).
  cbn. lia.
Defined.

Lemma apply_convolution_frame h array kernel h' new_array :
  apply_convolution h array kernel = Ok (h', new_array) ->
  forall l, l ∈ dom h -> h' !! l = h !! l.
Proof.
  unfold apply_convolution.
  destruct (shape array) as [|n0 [|n1 [|n2 [|? ?]]]]; try discriminate.
  unfold zeros_like.
  set (l0 := fresh (dom h)).
  set (new := {| buffer := l0; axes := _ |}).
  set (loop := foldl _ _ _).
  assert (Hloop : match loop with
                  | Ok hi => forall l', l' <> l0 -> hi !! l' = h !! l'
                  | Raise _ => True
                  end).
  { unfold loop. apply foldl_invariant.
    - intros l' Hl'. now apply lookup_insert_ne.
    - intros [hi|e] i Hi; cbn [bind]; [|exact I].
      destruct (convolve2d n1 n2 (plane_of hi array i) kernel) as [out|e];
        cbn [bind]; [|exact I].
      intros l' Hl'. unfold set_plane. cbn [buffer new].
      rewrite lookup_alter_ne by congruence. now apply Hi. }
  destruct loop as [hi|e]; cbn [bind]; [|discriminate].
  intros [= <- <-] l Hl. apply Hloop. intros ->.
  now apply (is_fresh (dom h)).
Qed.

(** X26. The volume that [uniformity_callback] keeps as [cropped_dicom_image]
    is not smoothed: the array that [apply_convolution] returns is replaced by
    the crop of the current image, so the result is a view of the buffer of
    the current image, with the contents that [crop] alone gives, whatever the
    kernel. *)
Theorem uniformity_callback_drops_smoothing (h h' : gmap nat volume)
  (current_dicom_image cropped : ndarray) (convolution : list (list Z))
  (crop_amount : Z) :
  is_Some (h !! buffer current_dicom_image) ->
  uniformity_callback_volume h current_dicom_image convolution crop_amount
  = Ok (h', cropped) ->
  crop h current_dicom_image crop_amount = Ok (h, cropped)
  /\ buffer cropped = buffer current_dicom_image
  /\ contents h' cropped = contents h cropped
  /\ contents h' current_dicom_image = contents h current_dicom_image.
Proof.
  intros Hb. unfold uniformity_callback_volume.
  destruct (apply_convolution h current_dicom_image convolution)
    as [[h1 smoothed]|] eqn:Ea; cbn [bind fst]; [|discriminate].
  pose proof (apply_convolution_frame _ _ _ _ _ Ea
                (buffer current_dicom_image)) as Hframe.
  specialize (Hframe (proj2 (elem_of_dom _ _) Hb)).
  unfold crop.
  destruct (axes current_dicom_image) as [|ax0 [|ax1 [|ax2 [|? ?]]]] eqn:Hax;
    try discriminate.
  cbn [bind]. intros [= <- <-]. cbn [buffer].
  split; [reflexivity|]. split; [reflexivity|].
  unfold contents, lookup_total, map_lookup_total. cbn [buffer axes].
  now rewrite Hframe, Hax.
Qed.

Lemma uniformity_callback_drops_smoothing_witness :
  crop store4 cube4 2
  = Ok (store4, {| buffer := 0; axes := [(1, 2); (1, 2); (1, 2)]%nat |})
  /\ buffer {| buffer := 0; axes := [(1, 2); (1, 2); (1, 2)]%nat |}
     = buffer cube4
  /\ contents (<[1%nat := map (convolve_plane 4 4 nema_kernel 3 3)
                            [ramp; ramp; ramp; ramp]]> store4)
       {| buffer := 0; axes := [(1, 2); (1, 2); (1, 2)]%nat |}
     = contents store4 {| buffer := 0; axes := [(1, 2); (1, 2); (1, 2)]%nat |}
  /\ contents (<[1%nat := map (convolve_plane 4 4 nema_kernel 3 3)
                            [ramp; ramp; ramp; ramp]]> store4) cube4
     = contents store4 cube4.
Proof.
  apply (uniformity_callback_drops_smoothing store4 _ cube4 _ nema_kernel 2).
  - vm_compute. eauto.
  - vm_compute. reflexivity.
Defined.

End GuiFacts.
